(** * qtranscode: a shallow embedding of [qtranscode.py] and its properties

    The development follows the layout of the script: the Python builtins
    the script relies on ([str], [int], [zfill], [splitlines], [re],
    [datetime.timedelta], [fractions.Fraction], [float]), then
    [AVExtractor], the encoder command builders, [transcode] and [main].

    Text is modelled as lists of characters whose code points are below
    256; on that range [\d] is the ASCII digits and the line boundaries of
    [str.splitlines] are the eight control characters listed below. *)

From Stdlib Require Import ZArith Znumtheory List Ascii String Bool Lia.
From Stdlib Require Import DecimalString DecimalZ DecimalN Decimal.
From Stdlib Require Import QArith Qcanon.
From Stdlib Require Import Floats.SpecFloat.
Import ListNotations.

Open Scope Z_scope.
Open Scope list_scope.

(** ** Python strings *)

Definition pystr := list ascii.

(** A string literal of the script. *)
Definition L (s : string) : pystr := list_ascii_of_string s.

Definition nl : ascii := ascii_of_nat 10.
Definition cr : ascii := ascii_of_nat 13.

Definition pystr_eqb (a b : pystr) : bool :=
  if list_eq_dec ascii_dec a b then true else false.

Module Py.

(** [c.isdigit()] on code points below 256 as used by [\d]. *)
Definition is_digit (c : ascii) : bool :=
  let n := nat_of_ascii c in (48 <=? n)%nat && (n <=? 57)%nat.

(** [str(n)] for an [int].  (CPython 3.11 and later refuse to convert
    more than 4300 digits either way; the statements that read numerals
    of any width bound them by [max_str_digits].) *)
Definition str_int (n : Z) : pystr :=
  list_ascii_of_string (NilZero.string_of_int (Z.to_int n)).

(** [int(s)] on the strings the script applies it to: the groups [\d+],
    [\d\d] and [\d\d\d] of its regular expressions.  [None] is Python's
    [ValueError]. *)
Definition int (s : pystr) : option Z :=
  match s with
  | [] => None
  | _ => option_map (fun d => Z.of_N (N.of_uint d))
           (NilEmpty.uint_of_string (string_of_list_ascii s))
  end.

(** [s.zfill(width)]: pad with zeros on the left, after a leading sign. *)
Definition zfill (width : nat) (s : pystr) : pystr :=
  let fill := repeat "0"%char (width - List.length s) in
  match s with
  | c :: rest =>
      if (Ascii.eqb c "-" || Ascii.eqb c "+")%bool
      then c :: fill ++ rest
      else fill ++ s
  | [] => fill
  end.

(** [sep.join(parts)]. *)
Fixpoint join (sep : pystr) (parts : list pystr) : pystr :=
  match parts with
  | [] => []
  | [p] => p
  | p :: rest => p ++ sep ++ join sep rest
  end.

(** The line boundaries of [str.splitlines] below code point 256. *)
Definition is_linebreak (c : ascii) : bool :=
  let n := nat_of_ascii c in
  existsb (Nat.eqb n) [10; 11; 12; 13; 28; 29; 30; 133]%nat.

(** [s.splitlines()]: a boundary ends the current line, [\r\n] counts as
    one boundary, and no empty line is reported after a final boundary. *)
Fixpoint splitlines (s : pystr) : list pystr :=
  match s with
  | [] => []
  | c :: s' =>
      if is_linebreak c then
        [] :: (if Ascii.eqb c cr
               then match s' with
                    | c' :: s'' => if Ascii.eqb c' nl then splitlines s''
                                   else splitlines s'
                    | [] => splitlines s'
                    end
               else splitlines s')
      else
        match splitlines s' with
        | [] => [[c]]
        | l :: ls => (c :: l) :: ls
        end
  end.

(** [s.lower()] on ASCII letters and on the upper-case letters of
    Latin-1. *)
Definition lower_char (c : ascii) : ascii :=
  let n := nat_of_ascii c in
  if ((65 <=? n) && (n <=? 90))%nat then ascii_of_nat (n + 32)
  else if ((192 <=? n) && (n <=? 222) && negb (n =? 215))%nat
       then ascii_of_nat (n + 32)
  else c.

Definition lower (s : pystr) : pystr := map lower_char s.

(** [s.startswith(a)]. *)
Fixpoint is_prefix (a s : pystr) : bool :=
  match a, s with
  | [], _ => true
  | x :: a', y :: s' => Ascii.eqb x y && is_prefix a' s'
  | _ :: _, [] => false
  end.

(** [needle in s]. *)
Fixpoint contains (needle s : pystr) : bool :=
  is_prefix needle s
  || match s with
     | [] => false
     | _ :: s' => contains needle s'
     end.

(** [s.count(needle)] for a non-empty [needle]: occurrences that do not
    overlap, found from the left.  [fuel] bounds the scan by the length of
    the text. *)
Fixpoint count_from (fuel : nat) (needle s : pystr) : Z :=
  match fuel with
  | O => 0
  | S fuel' =>
      match s with
      | [] => 0
      | _ :: s' =>
          if is_prefix needle s
          then 1 + count_from fuel' needle (skipn (List.length needle) s)
          else count_from fuel' needle s'
      end
  end.

Definition count (needle s : pystr) : Z :=
  count_from (List.length s) needle s.

(** [s.upper()] on ASCII letters; the script only compares the result
    with ['.MKV'], which no other character below 256 can produce. *)
Definition upper_char (c : ascii) : ascii :=
  let n := nat_of_ascii c in
  if ((97 <=? n) && (n <=? 122))%nat then ascii_of_nat (n - 32) else c.

Definition upper (s : pystr) : pystr := map upper_char s.

End Py.


(** ** Exceptions and results *)

Inductive exn :=
| AssertionError
| ZeroDivisionError
| ValueError
| OverflowError
| TypeError
| AttributeError
| CalledProcessError
| FileNotFoundError
| Exception (msg : pystr).

Inductive result (A : Type) :=
| Ok (a : A)
| Raise (e : exn).
Arguments Ok {A} a.
Arguments Raise {A} e.

Definition rbind {A B} (r : result A) (k : A -> result B) : result B :=
  match r with
  | Ok a => k a
  | Raise e => Raise e
  end.

Declare Scope result_scope.
Delimit Scope result_scope with result.
Notation "x <- c ;; k" := (rbind c (fun x => k))
  (at level 61, c at next level, right associativity) : result_scope.
Notation "c ;; k" := (rbind c (fun _ => k))
  (at level 61, right associativity) : result_scope.

(** ** The fragment of [re] the script uses

    Patterns are sequences of single-character atoms, greedy repetitions of
    an atom, group parentheses and the anchors.  Matching backtracks the
    way [re] does: a repetition first takes as many characters as it can
    and gives them back one at a time.  The groups of the script's patterns
    are not nested; captures are listed in the order the groups close. *)

Module Re.

Inductive atom :=
| Chr (c : ascii)          (* a literal character *)
| Digit                    (* \d *)
| Word                     (* \w *)
| Range (lo hi : ascii)    (* [lo-hi] *)
| Dot.                     (* .  (anything but a newline) *)

(** [\w] below code point 256: the alphanumeric characters of Unicode
    and the underscore. *)
Definition is_word (c : ascii) : bool :=
  let n := nat_of_ascii c in
  ((48 <=? n) && (n <=? 57) || (65 <=? n) && (n <=? 90)
   || (97 <=? n) && (n <=? 122) || (n =? 95)
   || existsb (Nat.eqb n) [170; 178; 179; 181; 185; 186; 188; 189; 190]
   || (192 <=? n) && (n <=? 255) && negb (n =? 215) && negb (n =? 247))%nat.

Definition atom_ok (a : atom) (c : ascii) : bool :=
  match a with
  | Chr x => Ascii.eqb x c
  | Digit => Py.is_digit c
  | Word => is_word c
  | Range lo hi =>
      ((nat_of_ascii lo <=? nat_of_ascii c)
       && (nat_of_ascii c <=? nat_of_ascii hi))%nat
  | Dot => negb (Ascii.eqb c nl)
  end.

Inductive item :=
| One (a : atom)     (* a  *)
| Many1 (a : atom)   (* a+ *)
| Many0 (a : atom)   (* a* *)
| Opt (a : atom)     (* a? *)
| Open               (* (  *)
| Close              (* )  *)
| Bol                (* ^  *)
| Eol.               (* $  *)

Definition regex := list item.

(** A run of literal characters. *)
Definition lit (s : pystr) : regex := map (fun c => One (Chr c)) s.

Definition at_bol (multiline : bool) (prev : option ascii) : bool :=
  match prev with
  | None => true
  | Some c => multiline && Ascii.eqb c nl
  end.

Definition at_eol (multiline : bool) (s : pystr) : bool :=
  match s with
  | [] => true
  | c :: rest =>
      Ascii.eqb c nl && (multiline || match rest with [] => true | _ => false end)
  end.

Section Run.
Context {R : Type}.

(** Greedy [a*] followed by the continuation [k]. [opens] holds the
    text of the groups that are open, most recent first and each
    reversed. *)
Fixpoint greedy (a : atom)
    (k : option ascii -> pystr -> list pystr -> option R)
    (prev : option ascii) (s : pystr) (opens : list pystr) : option R :=
  match s with
  | c :: s' =>
      if atom_ok a c then
        match greedy a k (Some c) s' (map (cons c) opens) with
        | Some r => Some r
        | None => k prev s opens
        end
      else k prev s opens
  | [] => k prev s opens
  end.
End Run.

Fixpoint run (multiline : bool) (p : regex) (prev : option ascii) (s : pystr)
    (opens caps : list pystr) : option (list pystr) :=
  match p with
  | [] => Some (List.rev caps)
  | One a :: p' =>
      match s with
      | c :: s' =>
          if atom_ok a c
          then run multiline p' (Some c) s' (map (cons c) opens) caps
          else None
      | [] => None
      end
  | Many1 a :: p' =>
      match s with
      | c :: s' =>
          if atom_ok a c
          then greedy a (fun prev s opens => run multiline p' prev s opens caps)
                 (Some c) s' (map (cons c) opens)
          else None
      | [] => None
      end
  | Many0 a :: p' =>
      greedy a (fun prev s opens => run multiline p' prev s opens caps)
        prev s opens
  | Opt a :: p' =>
      match s with
      | c :: s' =>
          if atom_ok a c then
            match run multiline p' (Some c) s' (map (cons c) opens) caps with
            | Some r => Some r
            | None => run multiline p' prev s opens caps
            end
          else run multiline p' prev s opens caps
      | [] => run multiline p' prev s opens caps
      end
  | Open :: p' => run multiline p' prev s ([] :: opens) caps
  | Close :: p' =>
      match opens with
      | o :: os => run multiline p' prev s os (List.rev o :: caps)
      | [] => None
      end
  | Bol :: p' =>
      if at_bol multiline prev then run multiline p' prev s opens caps else None
  | Eol :: p' =>
      if at_eol multiline s then run multiline p' prev s opens caps else None
  end.

(** [pattern.match(s)]: a match that starts at the first character. *)
Definition match_ (p : regex) (s : pystr) : option (list pystr) :=
  run false p None s [] [].

(** The leftmost match of [re.search(p, s, re.M)], trying every position. *)
Fixpoint search_from (multiline : bool) (p : regex) (prev : option ascii)
    (s : pystr) : option (list pystr) :=
  match run multiline p prev s [] [] with
  | Some m => Some m
  | None =>
      match s with
      | [] => None
      | c :: s' => search_from multiline p (Some c) s'
      end
  end.

Definition search (multiline : bool) (p : regex) (s : pystr) :=
  search_from multiline p None s.

(** [mat.group(k)], [k >= 1]. *)
Definition group (mat : list pystr) (k : nat) : pystr := nth (k - 1) mat [].

End Re.

(** ** [datetime.timedelta] *)

Module Datetime.

Record timedelta := { days : Z; seconds : Z; microseconds : Z }.

Definition us_per_day : Z := 86400 * 1000000.

(** Durations are kept normalised: [0 <= seconds < 86400] and
    [0 <= microseconds < 1000000], the days carrying the sign. *)
Definition normalize (us : Z) : timedelta :=
  {| days := us / us_per_day;
     seconds := (us mod us_per_day) / 1000000;
     microseconds := us mod 1000000 |}.

Definition total_us (t : timedelta) : Z :=
  (days t * 86400 + seconds t) * 1000000 + microseconds t.

(** [datetime.timedelta(hours=h, minutes=m, seconds=s, milliseconds=ms)]. *)
Definition make (hours minutes secs milliseconds : Z) : timedelta :=
  normalize (((hours * 60 + minutes) * 60 + secs) * 1000000
             + milliseconds * 1000).

(** [datetime.timedelta()]. *)
Definition zero : timedelta := normalize 0.

Definition sub (a b : timedelta) : timedelta :=
  normalize (total_us a - total_us b).

End Datetime.

(** ** [fractions.Fraction] *)

Module Fraction.

Record t := { numerator : Z; denominator : Z }.

(** [Fraction(n, d)]: lowest terms, positive denominator. *)
Definition make (n d : Z) : result t :=
  if d =? 0 then Raise ZeroDivisionError
  else
    let g := Z.gcd n d in
    let g := if d <? 0 then - g else g in
    Ok {| numerator := n / g; denominator := d / g |}.

(** [a * b] for two fractions, and [a * k] for an [int]. *)
Definition mul (a b : t) : result t :=
  make (numerator a * numerator b) (denominator a * denominator b).

Definition of_int (k : Z) : t := {| numerator := k; denominator := 1 |}.

Definition mul_int (a : t) (k : Z) : result t := mul a (of_int k).

(** [a / b]. *)
Definition div (a b : t) : result t :=
  make (numerator a * denominator b) (denominator a * numerator b).

(** The rational a fraction stands for. *)
Definition to_Q (a : t) : Q := inject_Z (numerator a) / inject_Z (denominator a).

End Fraction.

(** ** [float]: IEEE 754 binary64 *)

Module Float.

Definition prec : Z := 53.
Definition emax : Z := 1024.

Definition float := spec_float.

(** [float(n)] for an [int] that converts to a finite value. *)
Definition of_Z (n : Z) : float := binary_normalize prec emax n 0 false.

(** The double nearest to [n / d], [d > 0]: both operands are exact, so the
    division rounds once. *)
Definition of_ratio (n d : Z) : float :=
  match n with
  | Z0 => S754_zero false
  | Zpos m => SFdiv prec emax (S754_finite false m 0)
                (S754_finite false (Z.to_pos d) 0)
  | Zneg m => SFdiv prec emax (S754_finite true m 0)
                (S754_finite false (Z.to_pos d) 0)
  end.

(** [float(s)] for [s] of the form [\d+\.\d+], given as its two digit
    runs. *)
Definition of_decimal (ip fp : pystr) : result float :=
  match Py.int (ip ++ fp) with
  | Some n => Ok (of_ratio n (10 ^ Z.of_nat (List.length fp)))
  | None => Raise ValueError
  end.

Definition is_zero (x : float) : bool :=
  match x with S754_zero _ => true | _ => false end.

Definition mul (x y : float) : float := SFmul prec emax x y.
Definition sub (x y : float) : float := SFsub prec emax x y.
Definition add (x y : float) : float := SFadd prec emax x y.
Definition abs (x : float) : float := SFabs x.
Definition ltb (x y : float) : bool := SFltb x y.

(** [x / y]: Python raises on a zero divisor. *)
Definition div (x y : float) : result float :=
  if is_zero y then Raise ZeroDivisionError else Ok (SFdiv prec emax x y).

(** [int / float]: the integer is converted first. *)
Definition int_to_float (n : Z) : result float :=
  match of_Z n with
  | S754_infinity _ => Raise OverflowError
  | x => Ok x
  end.

(** [math.ceil(x)]. *)
Definition ceil (x : float) : result Z :=
  match x with
  | S754_zero _ => Ok 0
  | S754_infinity _ => Raise OverflowError
  | S754_nan => Raise ValueError
  | S754_finite s m e =>
      let n := if s then Zneg m else Zpos m in
      if 0 <=? e then Ok (n * 2 ^ e)
      else Ok (- ((- n) / 2 ^ (- e)))
  end.

(** [round(x)] with one argument: to the nearest integer, ties to even. *)
Definition round (x : float) : result Z :=
  match x with
  | S754_zero _ => Ok 0
  | S754_infinity _ => Raise OverflowError
  | S754_nan => Raise ValueError
  | S754_finite s m e =>
      let a :=
        if 0 <=? e then Zpos m * 2 ^ e
        else
          let d := 2 ^ (- e) in
          let q := Zpos m / d in
          let r := Zpos m mod d in
          match 2 * r ?= d with
          | Lt => q
          | Gt => q + 1
          | Eq => if Z.even q then q else q + 1
          end in
      Ok (if s then - a else a)
  end.

(** [Fraction(x)]: the exact value of a finite float. *)
Definition to_Fraction (x : float) : result Fraction.t :=
  match x with
  | S754_zero _ => Ok (Fraction.of_int 0)
  | S754_infinity _ => Raise OverflowError
  | S754_nan => Raise ValueError
  | S754_finite s m e =>
      let n := if s then Zneg m else Zpos m in
      if 0 <=? e then Fraction.make (n * 2 ^ e) 1
      else Fraction.make n (2 ^ (- e))
  end.

End Float.

(** ** [os.path] on POSIX *)

Module OsPath.

Definition devnull : pystr := L "/dev/null".

Definition sep : ascii := "/"%char.
Definition extsep : ascii := "."%char.

(** [p.rfind(c)], as the number of characters before the last [c];
    [None] is Python's [-1]. *)
Fixpoint rfind (c : ascii) (p : pystr) : option nat :=
  match p with
  | [] => None
  | x :: p' =>
      match rfind c p' with
      | Some i => Some (S i)
      | None => if Ascii.eqb x c then Some 0%nat else None
      end
  end.

(** The loop of [genericpath._splitext] that skips the dots a file name
    starts with: is there a character other than [.] in
    [p[filenameIndex:dotIndex]]? *)
Definition has_non_dot (p : pystr) (filenameIndex dotIndex : nat) : bool :=
  existsb (fun c => negb (Ascii.eqb c extsep))
          (firstn (dotIndex - filenameIndex) (skipn filenameIndex p)).

(** [os.path.splitext(p)]. *)
Definition splitext (p : pystr) : pystr * pystr :=
  match rfind extsep p with
  | None => (p, [])
  | Some dotIndex =>
      let filenameIndex :=
        match rfind sep p with
        | Some sepIndex => S sepIndex
        | None => 0%nat
        end in
      if (filenameIndex <=? dotIndex)%nat
         && has_non_dot p filenameIndex dotIndex
      then (firstn dotIndex p, skipn dotIndex p)
      else (p, [])
  end.

(** [os.path.join(a, b)] for a relative [b]. *)
Definition join (a b : pystr) : pystr :=
  match List.rev a with
  | [] => b
  | c :: _ => if Ascii.eqb c sep then a ++ b else a ++ sep :: b
  end.

(** [os.path.basename(p)]. *)
Definition basename (p : pystr) : pystr :=
  match rfind sep p with
  | Some i => skipn (S i) p
  | None => p
  end.

End OsPath.

(** ** Polymorphic [str()] *)

Class Str (A : Type) := str : A -> pystr.
#[export] Instance Str_int : Str Z := Py.str_int.
#[export] Instance Str_str : Str pystr := fun s => s.

(** ** The environment and the effects of the script

    External processes are numbered in the order the script starts them;
    the environment fixes, for each, whether it can be started, its exit
    status and what it writes on its standard output. *)

Record world := {
  cpu_count : Z;                       (* multiprocessing.cpu_count() *)
  which : pystr -> bool;               (* shutil.which(name) is not None *)
  abspath : pystr -> pystr;            (* os.path.abspath *)
  getcwd : pystr;                      (* os.getcwd() *)
  work_dir : pystr;                    (* the temporary directory's name *)
  glob_sorted : pystr -> list pystr;   (* sorted(glob.glob(pattern)) *)
  spawns : nat -> bool;                (* the n-th process can be started *)
  exit_status : nat -> Z;              (* its exit status *)
  stdout_of : nat -> pystr;            (* its decoded standard output *)
  float_repr : Float.float -> pystr;   (* str(x) for a float: the shortest
                                          decimal that reads back as x *)
  done_message : pystr                 (* the closing report of the run time *)
}.

Inductive event :=
| Launch (pid : nat) (cmd : list pystr)   (* a process is started *)
| CloseStdout (pid : nat)                 (* proc.stdout.close() *)
| Wait (pid : nat)                        (* proc.wait() or the implicit wait
                                             of check_call/check_output *)
| WriteFile (path content : pystr)
| Mkdir (path : pystr)
| Rmtree (path : pystr)
| Chdir (path : pystr)
| Nice (increment : Z)
| Print (text : pystr).

Record state := { trace : list event; launched : nat }.

Definition initial : state := {| trace := []; launched := 0 |}.

Inductive outcome (A : Type) :=
| Done (a : A)
| Raised (e : exn)
| Returned (status : Z).     (* an early [return status] of [main] *)
Arguments Done {A} a.
Arguments Raised {A} e.
Arguments Returned {A} status.

Definition M (A : Type) : Type := state -> outcome A * state.

Definition ret {A} (a : A) : M A := fun s => (Done a, s).

Definition bind {A B} (c : M A) (k : A -> M B) : M B :=
  fun s =>
    match c s with
    | (Done a, s') => k a s'
    | (Raised e, s') => (Raised e, s')
    | (Returned z, s') => (Returned z, s')
    end.

Definition raise {A} (e : exn) : M A := fun s => (Raised e, s).
Definition return_ {A} (status : Z) : M A := fun s => (Returned status, s).

Definition lift {A} (r : result A) : M A :=
  match r with
  | Ok a => ret a
  | Raise e => raise e
  end.

Definition emit (e : event) : M unit :=
  fun s => (Done tt, {| trace := trace s ++ [e]; launched := launched s |}).

Declare Scope monad_scope.
Delimit Scope monad_scope with monad.
Notation "x <- c ;; k" := (bind c (fun x => k))
  (at level 61, c at next level, right associativity) : monad_scope.
Notation "c ;; k" := (bind c (fun _ => k))
  (at level 61, right associativity) : monad_scope.

(** [print] of several arguments with [end=end_]. *)
Definition print_end (args : list pystr) (end_ : pystr) : M unit :=
  emit (Print (Py.join (L " ") args ++ end_)).

Definition print (args : list pystr) : M unit := print_end args [nl].

(** ** [subprocess] *)

Module Subprocess.

Section WithWorld.
Variable w : world.

(** [subprocess.Popen(cmd, ...)]: the process handle is its number. *)
Definition Popen (cmd : list pystr) : M nat :=
  fun s =>
    let pid := launched s in
    let s' := {| trace := trace s ++ [Launch pid cmd];
                 launched := S pid |} in
    if spawns w pid then (Done pid, s') else (Raised FileNotFoundError, s').

(** [proc.wait()]. *)
Definition wait (pid : nat) : M Z :=
  (emit (Wait pid) ;; ret (exit_status w pid))%monad.

(** [subprocess.check_call(cmd, ...)]. *)
Definition check_call (cmd : list pystr) : M unit :=
  (pid <- Popen cmd ;;
   rc <- wait pid ;;
   if rc =? 0 then ret tt else raise CalledProcessError)%monad.

(** [subprocess.check_output(cmd, ...).decode()]. *)
Definition check_output (cmd : list pystr) : M pystr :=
  (pid <- Popen cmd ;;
   rc <- wait pid ;;
   if rc =? 0 then ret (stdout_of w pid) else raise CalledProcessError)%monad.
End WithWorld.

End Subprocess.

Definition int_ (s : pystr) : result Z :=
  match Py.int s with
  | Some z => Ok z
  | None => Raise ValueError
  end.

(** [float(s)] for [s] matched by [\d+\.\d+]. *)
Fixpoint split_dot (s : pystr) : pystr * option pystr :=
  match s with
  | [] => ([], None)
  | c :: s' =>
      if Ascii.eqb c "."%char then ([], Some s')
      else let (a, b) := split_dot s' in (c :: a, b)
  end.

Definition float_ (s : pystr) : result Float.float :=
  match split_dot s with
  | (ip, Some fp) => Float.of_decimal ip fp
  | (_, None) => Raise ValueError
  end.

(** [mat.group(k)] on the result of a search that may have failed. *)
Definition group_of (mat : option (list pystr)) (k : nat) : result pystr :=
  match mat with
  | Some m => Ok (Re.group m k)
  | None => Raise AttributeError
  end.

(** An attribute that is only set on some paths of [__init__]. *)
Definition attr {A} (a : option A) : result A :=
  match a with
  | Some x => Ok x
  | None => Raise AttributeError
  end.

Inductive disc := dvd | bluray.

(** ** class [AVExtractor] *)

Module AVExtractor.

Import Re.

Definition two_digits : regex := [Open; One Digit; One Digit; Close].
Definition three_digits : regex := [Open; One Digit; One Digit; One Digit; Close].

(** [(\d\d):(\d\d):(\d\d)\.(\d\d\d)$] *)
Definition timestamp_re : regex :=
  two_digits ++ lit (L ":") ++ two_digits ++ lit (L ":") ++ two_digits
  ++ lit (L ".") ++ three_digits ++ [Eol].

(** [^CHAPTER(\d+)=(\d\d):(\d\d):(\d\d)\.(\d\d\d)$] *)
Definition CHAPTERS_TIME_RE : regex :=
  [Bol] ++ lit (L "CHAPTER") ++ [Open; Many1 Digit; Close] ++ lit (L "=")
  ++ timestamp_re.

(** [^CHAPTER(\d+)NAME=Chapter (\d+)$] *)
Definition CHAPTERS_TITLE_1_RE : regex :=
  [Bol] ++ lit (L "CHAPTER") ++ [Open; Many1 Digit; Close]
  ++ lit (L "NAME=Chapter ") ++ [Open; Many1 Digit; Close; Eol].

(** [^CHAPTER(\d+)NAME=(.{0,})$], the group being the script's starred
    dot. *)
Definition CHAPTERS_TITLE_2_RE : regex :=
  [Bol] ++ lit (L "CHAPTER") ++ [Open; Many1 Digit; Close]
  ++ lit (L "NAME=") ++ [Open; Many0 Dot; Close; Eol].

(** [^VIDEO:  \[?(\w+)\]?  (\d+)x(\d+) .+ (\d+\.\d+) fps] *)
Definition VIDEO_RE : regex :=
  [Bol] ++ lit (L "VIDEO:  ") ++ [Opt (Chr "["%char); Open; Many1 Word; Close;
                                  Opt (Chr "]"%char)]
  ++ lit (L "  ") ++ [Open; Many1 Digit; Close] ++ lit (L "x")
  ++ [Open; Many1 Digit; Close] ++ lit (L " ") ++ [Many1 Dot] ++ lit (L " ")
  ++ [Open; Many1 Digit; One (Chr "."%char); Many1 Digit; Close] ++ lit (L " fps").

(** [^AUDIO: (\d+) Hz, (\d+) ch] *)
Definition AUDIO_RE : regex :=
  [Bol] ++ lit (L "AUDIO: ") ++ [Open; Many1 Digit; Close] ++ lit (L " Hz, ")
  ++ [Open; Many1 Digit; Close] ++ lit (L " ch").

(** [^Selected audio codec: \[(\w+)\]] *)
Definition AUDIO_CODEC_RE : regex :=
  [Bol] ++ lit (L "Selected audio codec: [") ++ [Open; Many1 Word; Close]
  ++ lit (L "]").

(** [^number of subtitles on disk: [1-9]] *)
Definition DVD_SUBTITLES_RE : regex :=
  [Bol] ++ lit (L "number of subtitles on disk: ") ++ [One (Range "1"%char "9"%char)].

(** [^Track ID (\d+): subtitles] *)
Definition MKV_SUBTITLES_RE : regex :=
  [Bol] ++ lit (L "Track ID ") ++ [Open; Many1 Digit; Close]
  ++ lit (L ": subtitles").

(** [^Track ID (\d+): audio \((.+)\)] *)
Definition MKV_AUDIO_RE : regex :=
  [Bol] ++ lit (L "Track ID ") ++ [Open; Many1 Digit; Close]
  ++ lit (L ": audio (") ++ [Open; Many1 Dot; Close] ++ lit (L ")").

Record t := {
  path : pystr;
  disc_type : option disc;
  mplayer_input_args : list pystr;
  disc_title : option Z;                   (* set for discs only *)
  video_codec : option pystr;              (* not set for Blu-ray *)
  video_dimensions : option (Z * Z);       (* not set for Blu-ray *)
  video_framerate : option Fraction.t;     (* not set for Blu-ray *)
  audio_samplerate : Z;
  audio_channels : Z;
  audio_codec : pystr;
  chap_start : option Z;
  chap_end : option Z;
  is_matroska : bool;
  has_chapters : bool;
  attachment_cnt : Z;
  has_subtitles : bool;
  mkvmerge_probe_out : option pystr;       (* Matroska files only *)
  mkv_subtitle_tracknum : option Z
}.

(** Lines 78-82 of [__init__]: the probed rate, snapped to the NTSC rates. *)
Definition normalize_framerate (video_framerate_float : Float.float)
  : result Fraction.t :=
  (c <- Float.ceil video_framerate_float ;;
   cf <- Float.int_to_float c ;;
   q <- Float.div cf (Float.of_ratio 1001 1000) ;;
   r <- Float.div (Float.abs (Float.sub q video_framerate_float))
                  video_framerate_float ;;
   if Float.ltb r (Float.of_ratio 1 100000)
   then Fraction.make (c * 1000) 1001
   else Float.to_Fraction video_framerate_float)%result.

Definition disc_eqb (a : option disc) (b : disc) : bool :=
  match a, b with
  | Some dvd, dvd | Some bluray, bluray => true
  | _, _ => false
  end.

Definition opt_args {A} `{Str A} (flag : pystr) (v : option A) : list pystr :=
  match v with
  | Some x => [flag; str x]
  | None => []
  end.

Section WithWorld.
Variable w : world.

Definition probe_video (mplayer_probe_out : pystr)
  : result (pystr * (Z * Z) * Fraction.t) :=
  (let mat := search true VIDEO_RE mplayer_probe_out in
   codec <- group_of mat 1 ;;
   g2 <- group_of mat 2 ;;
   width <- int_ g2 ;;
   g3 <- group_of mat 3 ;;
   height <- int_ g3 ;;
   g4 <- group_of mat 4 ;;
   video_framerate_float <- float_ g4 ;;
   rate <- normalize_framerate video_framerate_float ;;
   Ok (codec, (width, height), rate))%result.

Definition probe_audio (mplayer_probe_out : pystr) : result (Z * Z * pystr) :=
  (let mat := search true AUDIO_RE mplayer_probe_out in
   g1 <- group_of mat 1 ;;
   samplerate <- int_ g1 ;;
   g2 <- group_of mat 2 ;;
   channels <- int_ g2 ;;
   codec <- group_of (search true AUDIO_CODEC_RE mplayer_probe_out) 1 ;;
   Ok (samplerate, channels, codec))%result.

Definition chapter_args (chap_start chap_end : option Z) : list pystr :=
  match chap_start, chap_end with
  | Some s, Some e => [L "-chapter"; str s ++ L "-" ++ str e]
  | Some s, None => [L "-chapter"; str s]
  | None, Some e => [L "-chapter"; L "-" ++ str e]
  | None, None => []
  end.

(** The command of the probe at line 71. *)
Definition probe_command (args : list pystr) : list pystr :=
  [L "mplayer"; L "-nocorrect-pts"; L "-vc"; L ","; L "-vo"; L "null";
   L "-ac"; L "ffmp3,"; L "-ao"; L "null"; L "-endpos"; L "1"] ++ args.

(** Lines 55-69: the arguments that select the input. *)
Definition input_args (path : pystr) (disc_type : option disc) (disc_title : Z)
    (maid msid : option Z) : list pystr :=
  let args := opt_args (L "-aid") maid ++ opt_args (L "-sid") msid in
  match disc_type with
  | Some dvd => args ++ [L "-dvd-device"; path; L "dvd://" ++ str disc_title]
  | Some bluray =>
      args ++ [L "-bluray-device"; path; L "bluray://" ++ str disc_title]
  | None => args ++ [path]
  end.

Definition __init__ (path : pystr) (disc_type : option disc) (disc_title : Z)
    (chap_start chap_end maid msid : option Z) : M t :=
  (let args := input_args path disc_type disc_title maid msid in
   mplayer_probe_out <- Subprocess.check_output w (probe_command args) ;;
   video <-
     (if disc_eqb disc_type bluray then ret None
      else v <- lift (probe_video mplayer_probe_out) ;; ret (Some v)) ;;
   audio <- lift (probe_audio mplayer_probe_out) ;;
   let '(samplerate, channels, acodec) := audio in
   let args := args ++ chapter_args chap_start chap_end in
   let is_mkv :=
     pystr_eqb (Py.upper (snd (OsPath.splitext path))) (L ".MKV") in
   let self chapters attachments subtitles probe tracknum :=
     {| path := abspath w path;
        disc_type := disc_type;
        mplayer_input_args := args;
        disc_title := match disc_type with Some _ => Some disc_title
                                      | None => None end;
        video_codec := option_map (fun v => fst (fst v)) video;
        video_dimensions := option_map (fun v => snd (fst v)) video;
        video_framerate := option_map snd video;
        audio_samplerate := samplerate;
        audio_channels := channels;
        audio_codec := acodec;
        chap_start := chap_start;
        chap_end := chap_end;
        is_matroska := is_mkv;
        has_chapters := chapters;
        attachment_cnt := attachments;
        has_subtitles := subtitles;
        mkvmerge_probe_out := probe;
        mkv_subtitle_tracknum := tracknum |} in
   if disc_eqb disc_type dvd then
     ret (self true 0
            (match search true DVD_SUBTITLES_RE mplayer_probe_out with
             | Some _ => true | None => false end)
            None None)
   else if is_mkv then
     out <- Subprocess.check_output w [L "mkvmerge"; L "--identify"; path] ;;
     match search true MKV_SUBTITLES_RE out with
     | Some mat =>
         n <- lift (int_ (group mat 1)) ;;
         ret (self (Py.contains (L "Chapters: ") out)
                   (Py.count (L "Attachment ID ") out) true (Some out) (Some n))
     | None =>
         ret (self (Py.contains (L "Chapters: ") out)
                   (Py.count (L "Attachment ID ") out) false (Some out) None)
     end
   else ret (self false 0 false None None))%monad.

(** *** Chapters *)

(** [(chap_start is None or idx >= chap_start)
     and (chap_end is None or idx <= chap_end)] *)
Definition in_range (chap_start chap_end : option Z) (idx : Z) : bool :=
  match chap_start with None => true | Some s => s <=? idx end
  && match chap_end with None => true | Some e => idx <=? e end.

(** [mat is not None and (...) and (...)]: the match when the test holds. *)
Definition match_in_range (chap_start chap_end : option Z) (re : regex)
    (line : pystr) : result (option (list pystr)) :=
  match match_ re line with
  | None => Ok None
  | Some mat =>
      (idx <- int_ (group mat 1) ;;
       Ok (if in_range chap_start chap_end idx then Some mat else None))%result
  end.

(** Lines 142-154: the offsets of index and time. *)
Definition offsets (chap_start : option Z) (chapters : pystr)
  : result (Z * Datetime.timedelta) :=
  match chap_start with
  | Some start =>
      let offset_index := start - 1 in
      match search true
              ([Bol] ++ lit (L "CHAPTER") ++ lit (Py.zfill 2 (str start))
               ++ lit (L "=") ++ timestamp_re) chapters with
      | None => Raise (Exception (L "Start chapter could not be found!"))
      | Some mat =>
          (h <- int_ (group mat 1) ;;
           m <- int_ (group mat 2) ;;
           s <- int_ (group mat 3) ;;
           ms <- int_ (group mat 4) ;;
           Ok (offset_index, Datetime.make h m s ms))%result
      end
  | None => Ok (0, Datetime.zero)
  end.

(** Lines 156-167: what one line of the chapter text adds to
    [new_chapters]. *)
Definition chapter_line (chap_start chap_end : option Z) (offset_index : Z)
    (offset_time : Datetime.timedelta) (line : pystr) : result pystr :=
  (mat <- match_in_range chap_start chap_end CHAPTERS_TIME_RE line ;;
   match mat with
   | Some mat =>
       idx <- int_ (group mat 1) ;;
       h <- int_ (group mat 2) ;;
       m <- int_ (group mat 3) ;;
       s <- int_ (group mat 4) ;;
       ms <- int_ (group mat 5) ;;
       let new_time := Datetime.sub (Datetime.make h m s ms) offset_time in
       Ok (L "CHAPTER" ++ Py.zfill 2 (str (idx - offset_index)) ++ L "="
           ++ Py.zfill 2 (str (Datetime.seconds new_time / 3600)) ++ L ":"
           ++ Py.zfill 2 (str (Datetime.seconds new_time / 60 mod 60)) ++ L ":"
           ++ Py.zfill 2 (str (Datetime.seconds new_time mod 60)) ++ L "."
           ++ Py.zfill 3 (str (Datetime.microseconds new_time / 1000))
           ++ [nl])
   | None =>
       mat <- match_in_range chap_start chap_end CHAPTERS_TITLE_1_RE line ;;
       match mat with
       | Some mat =>
           idx <- int_ (group mat 1) ;;
           n <- int_ (group mat 2) ;;
           Ok (L "CHAPTER" ++ Py.zfill 2 (str (idx - offset_index))
               ++ L "NAME=Chapter " ++ Py.zfill 2 (str (n - offset_index))
               ++ [nl])
       | None =>
           mat <- match_in_range chap_start chap_end CHAPTERS_TITLE_2_RE line ;;
           match mat with
           | Some mat =>
               idx <- int_ (group mat 1) ;;
               Ok (L "CHAPTER" ++ Py.zfill 2 (str (idx - offset_index))
                   ++ L "NAME=" ++ group mat 2 ++ [nl])
           | None => Ok []
           end
       end
   end)%result.

(** The loop of line 155 over [chapters.splitlines()]. *)
Fixpoint chapter_lines (chap_start chap_end : option Z) (offset_index : Z)
    (offset_time : Datetime.timedelta) (lines : list pystr)
    (new_chapters : pystr) : result pystr :=
  match lines with
  | [] => Ok new_chapters
  | line :: rest =>
      (out <- chapter_line chap_start chap_end offset_index offset_time line ;;
       chapter_lines chap_start chap_end offset_index offset_time rest
         (new_chapters ++ out))%result
  end.

(** Lines 141-167 of [extract_chapters]: the text written to the chapter
    file, from the text the extraction tool printed. *)
Definition new_chapters (chap_start chap_end : option Z) (chapters : pystr)
  : result pystr :=
  (off <- offsets chap_start chapters ;;
   chapter_lines chap_start chap_end (fst off) (snd off)
     (Py.splitlines chapters) [])%result.

Definition extract_chapters (self : t) (filename : pystr) : M unit :=
  (chapters <-
     (if is_matroska self then
        Subprocess.check_output w
          [L "mkvextract"; L "chapters"; path self; L "--simple"]
      else if disc_eqb (disc_type self) dvd then
        title <- lift (attr (disc_title self)) ;;
        Subprocess.check_output w
          [L "dvdxchap"; L "--title"; str title; path self]
      else
        raise (Exception
                 (L "Cannot extract chapters because there are none."))) ;;
   text <- lift (new_chapters (chap_start self) (chap_end self) chapters) ;;
   emit (WriteFile filename text))%monad.

(** *** The other extractions *)

(** [tuple(map(str, range(1, n + 1)))] *)
Definition str_range_1 (n : Z) : list pystr :=
  map (fun i => str (Z.of_nat i)) (seq 1 (Z.to_nat n)).

Definition extract_attachments (self : t) (directory : pystr) : M unit :=
  (if negb (is_matroska self) then raise AssertionError else
   emit (Mkdir directory) ;;
   let cwd := getcwd w in
   emit (Chdir directory) ;;
   Subprocess.check_call w
     ([L "mkvextract"; L "attachments"; path self]
      ++ str_range_1 (attachment_cnt self)) ;;
   emit (Chdir cwd))%monad.

Definition extract_subtitles (self : t) (filename : pystr) : M unit :=
  (if has_subtitles self && is_matroska self then
     n <- lift (attr (mkv_subtitle_tracknum self)) ;;
     Subprocess.check_call w
       [L "mkvextract"; L "tracks"; path self; str n ++ L ":" ++ filename]
   else if has_subtitles self && disc_eqb (disc_type self) dvd then
     Subprocess.check_call w
       ([L "mencoder"; L "-ovc"; L "copy"; L "-o"; OsPath.devnull;
         L "-vobsubout"; filename]
        ++ mplayer_input_args self ++ [L "-nosound"])
   else raise (Exception (L "Cannot extract subtitles (no subtitles)!")))%monad.

(** The number of the first audio track in the output of
    [mkvmerge --identify]. *)
Definition mkv_audio_track (self : t) : result pystr :=
  (out <- attr (mkvmerge_probe_out self) ;;
   group_of (search true MKV_AUDIO_RE out) 1)%result.

Definition extract_audio (self : t) (filename : pystr) : M unit :=
  (match chap_start self, chap_end self with
   | None, None =>
       if is_matroska self then
         track <- lift (mkv_audio_track self) ;;
         Subprocess.check_call w
           [L "mkvextract"; L "tracks"; path self; track ++ L ":" ++ filename]
       else
         Subprocess.check_call w
           ([L "mplayer"; L "-dumpaudio"; L "-dumpfile"; filename]
            ++ mplayer_input_args self)
   | _, _ => raise AssertionError
   end)%monad.

Definition decode_audio (self : t) : result (list pystr) :=
  match chap_start self, chap_end self with
  | None, None =>
      if is_matroska self && pystr_eqb (audio_codec self) (L "ffflac") then
        (track <- mkv_audio_track self ;;
         Ok [L "mkvextract"; L "--redirect-output"; L "/dev/stderr";
             L "tracks"; path self; track ++ L ":/dev/stdout"])%result
      else
        Ok ([L "mplayer"; L "-quiet"; L "-really-quiet"; L "-nocorrect-pts";
             L "-vc"; L "null"; L "-vo"; L "null"; L "-channels";
             str (audio_channels self); L "-ao";
             L "pcm:fast:waveheader:file=/dev/stdout"]
            ++ mplayer_input_args self)
  | _, _ =>
      Ok ([L "mplayer"; L "-quiet"; L "-really-quiet"; L "-nocorrect-pts";
           L "-vc"; L "null"; L "-vo"; L "null"; L "-channels";
           str (audio_channels self); L "-ao";
           L "pcm:fast:waveheader:file=/dev/stdout"]
          ++ mplayer_input_args self)
  end.

(** *** The video decode command *)

(** [sep.join(map(str, xs))] *)
Definition join_ints (sep : pystr) (xs : list Z) : pystr :=
  Py.join sep (map str xs).

(** The value of [filters] at line 230 of [get_decode_video_command]. *)
Definition filters (denoise pp : bool) (scale crop : option (list Z))
    (deint ivtc : bool) : pystr :=
  let filters := L "format=i420" in
  let filters :=
    if ivtc then
      match crop with
      | None => filters ++ L ",filmdint=fast=0,"
      | Some c => filters ++ L ",filmdint=fast=0/crop=" ++ join_ints (L ":") c
      end
    else filters in
  let filters := if deint then filters ++ L ",yadif=1" else filters in
  let filters :=
    match crop with
    | Some c =>
        if negb ivtc then filters ++ L ",crop=" ++ join_ints (L ":") c
        else filters
    | None => filters
    end in
  let filters :=
    match scale with
    | Some sc => filters ++ L ",scale=" ++ join_ints (L ":") sc
    | None => filters
    end in
  let filters := if pp then filters ++ L ",pp=ha/va/dr" else filters in
  let filters := if denoise then filters ++ L ",hqdn3d" else filters in
  filters ++ L ",harddup".

(** The value of [ofps]. *)
Definition ofps (ivtc : bool) (force_rate : option (list Z)) : list pystr :=
  if ivtc then [L "-ofps"; L "24000/1001"]
  else match force_rate with
       | Some r => [L "-ofps"; join_ints (L "/") r]
       | None => []
       end.

Definition hardsub_opt (hardsub : bool) : list pystr :=
  if hardsub then [L "-ass"] else [L "-nosub"].

Definition get_decode_video_command (self : t) (denoise pp : bool)
    (scale crop : option (list Z)) (deint ivtc : bool)
    (force_rate : option (list Z)) (hardsub : bool) : list pystr :=
  [L "mencoder"; L "-quiet"; L "-really-quiet"; L "-sws"; L "9"; L "-vf";
   filters denoise pp scale crop deint ivtc]
  ++ ofps ivtc force_rate
  ++ [L "-ovc"; L "raw"; L "-of"; L "rawvideo"; L "-o"; L "-"]
  ++ mplayer_input_args self ++ [L "-nosound"] ++ hardsub_opt hardsub.
End WithWorld.

End AVExtractor.

(** ** Numbers that are [int] or [float] at run time

    The quality and bitrate arguments of the encoder builders come from the
    command line as [float] or [int], depending on the option. *)

Inductive num :=
| Int (z : Z)
| Flt (x : Float.float).

Definition to_float (n : num) : result Float.float :=
  match n with
  | Int z => Float.int_to_float z
  | Flt x => Ok x
  end.

Definition is_some {A} (o : option A) : bool :=
  match o with Some _ => true | None => false end.

Definition opt_eqb (o : option pystr) (s : pystr) : bool :=
  match o with
  | Some x => pystr_eqb x s
  | None => false
  end.

(** [assert c] *)
Definition assert (c : bool) : result unit :=
  if c then Ok tt else Raise AssertionError.

Section Encoders.
Variable w : world.

#[local] Instance Str_num : Str num :=
  fun n => match n with Int z => str z | Flt x => float_repr w x end.

(** [str(speed)], where [speed] may be [None]. *)
#[local] Instance Str_opt_int : Str (option Z) :=
  fun o => match o with Some z => str z | None => L "None" end.

(** [str(round(a - quality * b))] for float literals [a] and [b]. *)
Definition scaled_level (a b : Float.float) (quality : num) : result pystr :=
  (q <- to_float quality ;;
   r <- Float.round (Float.sub a (Float.mul q b)) ;;
   Ok (str r))%result.

(** [str(round(a * quality + b))] *)
Definition affine_level (a b : Float.float) (quality : num) : result pystr :=
  (q <- to_float quality ;;
   r <- Float.round (Float.add (Float.mul a q) b) ;;
   Ok (str r))%result.

(** *** Audio encoders *)

Definition get_encode_aac_command (out_path : pystr)
    (quality bitrate : option num) : result (list pystr) :=
  (assert (negb (is_some quality && is_some bitrate)) ;;
   if which w (L "fdkaac") then
     qual_args <-
       match quality, bitrate with
       | Some q, _ =>
           m <- affine_level (Float.of_ratio 4 10) (Float.of_Z 1) q ;;
           Ok [L "-m"; m]
       | None, Some b => Ok [L "-m"; L "0"; L "-b"; str b]
       | None, None => Ok [L "-m"; L "4"]
       end ;;
     Ok ([L "fdkaac"; L "--ignorelength"] ++ qual_args
         ++ [L "-o"; out_path; L "-"])
   else if which w (L "neroAacEnc") then
     qual_args <-
       match quality, bitrate with
       | Some q, _ =>
           x <- to_float q ;;
           y <- Float.div x (Float.of_Z 10) ;;
           r <- Float.round y ;;
           Ok [L "-q"; str r]
       | None, Some b => Ok [L "-br"; str b]
       | None, None => Ok []
       end ;;
     Ok ([L "neroAacEnc"; L "-ignorelength"] ++ qual_args
         ++ [L "-if"; L "-"; L "-of"; out_path])
   else if which w (L "faac") then
     qual_args <-
       match quality, bitrate with
       | Some q, _ =>
           m <- affine_level (Float.of_Z 499) (Float.of_Z 10) q ;;
           Ok [L "-q"; m]
       | None, Some b => Ok [L "-b"; str b]
       | None, None => Ok []
       end ;;
     Ok ([L "faac"; L "--ignorelength"] ++ qual_args
         ++ [L "-o"; out_path; L "-"])
   else Raise (Exception (L "No AAC encoder!")))%result.

Definition get_encode_flac_command (out_path : pystr) : list pystr :=
  [L "flac"; L "--ignore-chunk-sizes"; L "-o"; out_path; L "-"].

(** The bitrate comes before the quality in this signature. *)
Definition get_encode_mp3_command (out_path : pystr)
    (bitrate quality : option num) : result (list pystr) :=
  (assert (negb (is_some quality && is_some bitrate)) ;;
   qual_args <-
     match quality, bitrate with
     | Some q, _ =>
         x <- to_float q ;;
         r <- Float.round (Float.sub (Float.of_Z 10) x) ;;
         Ok [L "-V"; str r]
     | None, Some b => Ok [L "-b"; str b]
     | None, None => Ok []
     end ;;
   Ok ([L "lame"] ++ qual_args ++ [L "-"; out_path]))%result.

Definition get_encode_opus_command (out_path : pystr)
    (quality bitrate : option num) : list pystr :=
  let qual_args :=
    match bitrate with
    | Some b =>
        if is_some quality then [L "--vcbr"; L "--bitrate"; str b]
        else [L "--bitrate"; str b]
    | None => [L "--vbr"]
    end in
  [L "opusenc"; L "--ignorelength"; L "--discard-comments"] ++ qual_args
  ++ [L "-"; out_path].

Definition get_encode_vorbis_command (out_path : pystr)
    (quality bitrate : option num) : result (list pystr) :=
  (assert (negb (is_some quality && is_some bitrate)) ;;
   let qual_args :=
     match quality, bitrate with
     | Some q, _ => [L "-q"; str q]
     | None, Some b => [L "-b"; str b]
     | None, None => []
     end in
   Ok ([L "oggenc"; L "--ignorelength"; L "--discard-comments"] ++ qual_args
       ++ [L "-o"; out_path; L "-"]))%result.

(** *** Video encoders *)

(** The two assertions every video builder starts with. *)
Definition pass_assertions (cur_pass : option Z) (stat_path : option pystr)
  : result unit :=
  (assert (negb (is_some cur_pass && is_some stat_path)) ;;
   assert match cur_pass with
          | None => true
          | Some p => (p =? 1) || (p =? 2)
          end)%result.

(** A [stat_path] that is used as a string: [None] is refused, by the
    concatenation ['--fpf=' + stat_path] at once and, where the path is a
    tuple element of its own, by [subprocess.Popen] when the command is
    started. *)
Definition path_str (stat_path : option pystr) : result pystr :=
  match stat_path with
  | Some p => Ok p
  | None => Raise TypeError
  end.

Definition pass_eqb (cur_pass : option Z) (k : Z) : bool :=
  match cur_pass with
  | Some p => p =? k
  | None => false
  end.

(** The body of [get_encode_av1_command] after its assertions. *)
Definition encode_av1_body (out_path : pystr) (dimensions : Z * Z)
    (framerate : Fraction.t) (quality bitrate : option num)
    (speed cur_pass : option Z) (stat_path : option pystr)
  : result (list pystr) :=
  (qual_args <-
     match quality, bitrate with
     | Some q, _ =>
         qp <- scaled_level (Float.of_Z 63) (Float.of_ratio 63 10) q ;;
         Ok [L "--rc"; L "0"; L "--qp"; qp]
     | None, Some b => Ok [L "--rc"; L "1"; L "--tbr"; str b]
     | None, None => Ok []
     end ;;
   pass_args <-
     (if pass_eqb cur_pass 1 then
        sp <- path_str stat_path ;;
        Ok [L "-b"; OsPath.devnull; L "--irefresh-type"; L "2"; L "--pass";
            L "1"; L "--stat-file"; sp]
      else if pass_eqb cur_pass 2 then
        sp <- path_str stat_path ;;
        Ok [L "-b"; out_path; L "--irefresh-type"; L "2"; L "--pass"; L "2";
            L "--stat-file"; sp]
      else Ok [L "-b"; out_path]) ;;
   Ok ([L "SvtAv1EncApp"; L "-i"; L "stdin"; L "-w"; str (fst dimensions);
        L "-h"; str (snd dimensions);
        L "--fps-num"; str (Fraction.numerator framerate);
        L "--fps-denom"; str (Fraction.denominator framerate);
        L "--preset"; str speed]
       ++ qual_args ++ pass_args))%result.

Definition get_encode_av1_command (out_path : pystr) (dimensions : Z * Z)
    (framerate : Fraction.t) (quality bitrate : option num)
    (speed cur_pass : option Z) (stat_path : option pystr)
  : result (list pystr) :=
  (pass_assertions cur_pass stat_path ;;
   encode_av1_body out_path dimensions framerate quality bitrate speed
     cur_pass stat_path)%result.

(** The body of [get_encode_h264_command] after its assertions. *)
Definition encode_h264_body (out_path : pystr) (dimensions : Z * Z)
    (framerate sar : Fraction.t) (quality bitrate : option num)
    (speed cur_pass : option Z) (stat_path : option pystr)
  : result (list pystr) :=
  (qual_args <-
     match quality, bitrate with
     | Some q, _ =>
         crf <- scaled_level (Float.of_Z 51) (Float.of_ratio 51 10) q ;;
         Ok [L "--crf"; crf]
     | None, Some b => Ok [L "--bitrate"; str b]
     | None, None => Ok []
     end ;;
   pass_args <-
     (if pass_eqb cur_pass 1 then
        sp <- path_str stat_path ;;
        Ok [L "--pass"; L "1"; L "--stats"; sp; L "--output"; OsPath.devnull]
      else if pass_eqb cur_pass 2 then
        sp <- path_str stat_path ;;
        Ok [L "--pass"; L "2"; L "--stats"; sp; L "--output"; out_path]
      else Ok [L "--output"; out_path]) ;;
   Ok ([L "x264"; L "--profile"; L "high"; L "--level"; L "4.2";
        L "--bluray-compat"; L "--muxer"; L "raw"; L "--demuxer"; L "raw";
        L "--input-csp"; L "i420"; L "--input-res";
        str (fst dimensions) ++ L "x" ++ str (snd dimensions);
        L "--sar";
        str (Fraction.numerator sar) ++ L ":" ++ str (Fraction.denominator sar);
        L "--fps";
        str (Fraction.numerator framerate) ++ L "/"
        ++ str (Fraction.denominator framerate);
        L "-"]
       ++ qual_args ++ pass_args))%result.

Definition get_encode_h264_command (out_path : pystr) (dimensions : Z * Z)
    (framerate sar : Fraction.t) (quality bitrate : option num)
    (speed cur_pass : option Z) (stat_path : option pystr)
  : result (list pystr) :=
  (pass_assertions cur_pass stat_path ;;
   encode_h264_body out_path dimensions framerate sar quality bitrate speed
     cur_pass stat_path)%result.

(** [speed_args] of the two [vpxenc] builders. *)
Definition speed_args (speed : option Z) : list pystr :=
  match speed with
  | Some 0 => [L "--best"]
  | Some 1 => [L "--good"]
  | Some 2 => [L "--rt"]
  | _ => []
  end.

(** [pass_args] of the two [vpxenc] builders. *)
Definition vpx_pass_args (out_path : pystr) (cur_pass : option Z)
    (stat_path : option pystr) : result (list pystr) :=
  (if pass_eqb cur_pass 1 then
     sp <- path_str stat_path ;;
     Ok [L "--output=" ++ OsPath.devnull; L "--passes=2"; L "--pass=1";
         L "--fpf=" ++ sp; L "--auto-alt-ref=1"]
   else if pass_eqb cur_pass 2 then
     sp <- path_str stat_path ;;
     Ok [L "--output=" ++ out_path; L "--passes=2"; L "--pass=2";
         L "--fpf=" ++ sp; L "--auto-alt-ref=1"]
   else Ok [L "--output=" ++ out_path; L "--passes=1"])%result.

Definition vpx_command (codec : pystr) (pass_args : list pystr)
    (dimensions : Z * Z) (framerate : Fraction.t)
    (qual_args speed_args : list pystr) : list pystr :=
  [L "vpxenc"; L "--codec=" ++ codec; L "--threads=" ++ str (cpu_count w)]
  ++ pass_args
  ++ [L "--ivf"; L "--width=" ++ str (fst dimensions);
      L "--height=" ++ str (snd dimensions);
      L "--fps=" ++ str (Fraction.numerator framerate) ++ L "/"
      ++ str (Fraction.denominator framerate)]
  ++ qual_args ++ speed_args ++ [L "-"].

(** [qual_args] of [get_encode_vp9_command]: each of the three
    statements assigns the variable anew. *)
Definition vp9_qual_args (quality bitrate : option num)
  : result (list pystr) :=
  (let qual_args : list pystr := [] in
   let qual_args :=
     match quality, bitrate with
     | Some _, Some _ => [L "--end-usage=cq"]
     | Some _, None => [L "--end-usage=q"]
     | None, Some _ => [L "--end-usage=vbr"]
     | None, None => qual_args
     end in
   qual_args <-
     match quality with
     | Some q =>
         lvl <- scaled_level (Float.of_Z 63) (Float.of_ratio 63 10) q ;;
         Ok [L "--cq-level=" ++ lvl]
     | None => Ok qual_args
     end ;;
   let qual_args :=
     match bitrate with
     | Some b => [L "--target-bitrate=" ++ str b]
     | None => qual_args
     end in
   Ok qual_args)%result.

(** [qual_args] of [get_encode_vp8_command]: the last two statements
    append to the variable. *)
Definition vp8_qual_args (quality bitrate : option num)
  : result (list pystr) :=
  (let qual_args :=
     match quality, bitrate with
     | Some _, Some _ => [L "--end-usage=cq"]
     | Some _, None => [L "--end-usage=q"]
     | None, Some _ => [L "--end-usage=vbr"]
     | None, None => []
     end in
   qual_args <-
     match quality with
     | Some q =>
         lvl <- scaled_level (Float.of_Z 63) (Float.of_ratio 63 10) q ;;
         Ok (qual_args ++ [L "--cq-level=" ++ lvl])
     | None => Ok qual_args
     end ;;
   let qual_args :=
     match bitrate with
     | Some b => qual_args ++ [L "--target-bitrate=" ++ str b]
     | None => qual_args
     end in
   Ok qual_args)%result.

(** The body of [get_encode_vp9_command] after its assertions. *)
Definition encode_vp9_body (out_path : pystr) (dimensions : Z * Z)
    (framerate : Fraction.t) (quality bitrate : option num)
    (speed cur_pass : option Z) (stat_path : option pystr)
  : result (list pystr) :=
  (qual_args <- vp9_qual_args quality bitrate ;;
   pass_args <- vpx_pass_args out_path cur_pass stat_path ;;
   Ok (vpx_command (L "vp9") pass_args dimensions framerate qual_args
         (speed_args speed)))%result.

Definition get_encode_vp9_command (out_path : pystr) (dimensions : Z * Z)
    (framerate : Fraction.t) (quality bitrate : option num)
    (speed cur_pass : option Z) (stat_path : option pystr)
  : result (list pystr) :=
  (pass_assertions cur_pass stat_path ;;
   encode_vp9_body out_path dimensions framerate quality bitrate speed
     cur_pass stat_path)%result.

(** The body of [get_encode_vp8_command] after its assertions. *)
Definition encode_vp8_body (out_path : pystr) (dimensions : Z * Z)
    (framerate : Fraction.t) (quality bitrate : option num)
    (speed cur_pass : option Z) (stat_path : option pystr)
  : result (list pystr) :=
  (qual_args <- vp8_qual_args quality bitrate ;;
   pass_args <- vpx_pass_args out_path cur_pass stat_path ;;
   Ok (vpx_command (L "vp8") pass_args dimensions framerate qual_args
         (speed_args speed)))%result.

Definition get_encode_vp8_command (out_path : pystr) (dimensions : Z * Z)
    (framerate : Fraction.t) (quality bitrate : option num)
    (speed cur_pass : option Z) (stat_path : option pystr)
  : result (list pystr) :=
  (pass_assertions cur_pass stat_path ;;
   encode_vp8_body out_path dimensions framerate quality bitrate speed
     cur_pass stat_path)%result.
End Encoders.

(** ** Multiplexers *)

Section Mux.
Variable w : world.

Definition pair_str (sep : pystr) (p : Z * Z) : pystr :=
  str (fst p) ++ sep ++ str (snd p).

Definition opt_flag (flag : pystr) (v : option pystr) : list pystr :=
  match v with
  | Some x => [flag; x]
  | None => []
  end.

Definition mux_matroska_mkv (out_path : pystr) (title chapters attachments
    : option pystr) (vid_file : pystr)
    (vid_aspect vid_pixaspect vid_displaysize : option (Z * Z))
    (aud_file : pystr) (sub_file vid_lang aud_lang sub_lang : option pystr)
  : M unit :=
  let cmd :=
    [L "mkvmerge"]
    ++ opt_flag (L "--title") title
    ++ opt_flag (L "--chapters") chapters
    ++ match attachments with
       | Some dir =>
           flat_map (fun i => [L "--attach-file"; i])
             (glob_sorted w (OsPath.join dir (L "*")))
       | None => []
       end
    ++ [L "--output"; out_path]
    ++ opt_flag (L "--language") (option_map (fun l => L "0:" ++ l) vid_lang)
    ++ opt_flag (L "--aspect-ratio")
         (option_map (fun a => L "0:" ++ pair_str (L "/") a) vid_aspect)
    ++ opt_flag (L "--aspect-ratio-factor")
         (option_map (fun a => L "0:" ++ pair_str (L "/") a) vid_pixaspect)
    ++ opt_flag (L "--display-dimensions")
         (option_map (fun a => L "0:" ++ pair_str (L "x") a) vid_displaysize)
    ++ [vid_file]
    ++ opt_flag (L "--language") (option_map (fun l => L "0:" ++ l) aud_lang)
    ++ [aud_file]
    ++ opt_flag (L "--language") (option_map (fun l => L "0:" ++ l) sub_lang)
    ++ match sub_file with Some f => [f] | None => [] end in
  Subprocess.check_call w cmd.

(** [print(cmd)] for a tuple of strings that need no escaping. *)
Definition tuple_repr (cmd : list pystr) : pystr :=
  L "(" ++ Py.join (L ", ") (map (fun a => L "'" ++ a ++ L "'") cmd) ++ L ")".

Definition mux_mp4 (out_path : pystr) (chapters : option pystr)
    (vid_file : pystr) (vid_pixaspect : option (Z * Z)) (aud_file : pystr)
    (vid_lang aud_lang : option pystr) : M unit :=
  let vid_args :=
    vid_file
    ++ match vid_lang with Some l => L ":lang=" ++ l | None => [] end
    ++ match vid_pixaspect with
       | Some a => L ":par=" ++ pair_str (L ":") a
       | None => []
       end in
  let aud_args :=
    aud_file ++ match aud_lang with Some l => L ":lang" ++ l | None => [] end in
  let cmd :=
    [L "MP4Box"] ++ opt_flag (L "-chap") chapters
    ++ [L "-add"; vid_args; L "-add"; aud_args; L "-new"; out_path] in
  (print [tuple_repr cmd] ;;
   Subprocess.check_call w cmd)%monad.
End Mux.

(** ** [transcode] *)

Definition decoding_error : exn :=
  Exception (L "Error occurred in decoding process!").
Definition encoding_error : exn :=
  Exception (L "Error occurred in encoding process!").

Definition transcode (w : world) (dec_cmd enc_cmd : list pystr) : M unit :=
  (dec_proc <- Subprocess.Popen w dec_cmd ;;
   enc_proc <- Subprocess.Popen w enc_cmd ;;
   emit (CloseStdout dec_proc) ;;
   rc <- Subprocess.wait w dec_proc ;;
   if negb (rc =? 0) then raise decoding_error else
   rc <- Subprocess.wait w enc_proc ;;
   if negb (rc =? 0) then raise encoding_error else
   ret tt)%monad.

(** ** The command line, as [argparse] hands it to [main] *)

Module Args.

Record t := {
  input : pystr;
  mplayer_aid : option Z;
  mplayer_sid : option Z;
  container : option pystr;
  output : pystr;
  dvd : bool;
  bluray : bool;
  disc_title : Z;
  size : option (Z * Z);
  rate : option (Z * Z);
  audio_codec : pystr;
  audio_quality : option Float.float;
  audio_bitrate : option Z;
  video_codec : pystr;
  video_quality : option Float.float;
  video_bitrate : option Float.float;
  encoder_speed : Z;
  two_pass : bool;
  title : option pystr;
  video_language : option pystr;
  audio_language : option pystr;
  subtitles_language : option pystr;
  start_chapter : option Z;
  end_chapter : option Z;
  no_chapters : bool;
  denoise : bool;
  post_process : bool;
  deinterlace : bool;
  ivtc : bool;
  crop : option (Z * Z * Z * Z);
  scale : option (Z * Z);
  display_aspect : option (Z * Z);
  pixel_aspect : option (Z * Z);
  display_size : option (Z * Z);
  hardsub : bool;
  no_subtitles : bool;
  no_nice : bool;
  no_attachments : bool
}.

(** What the parser guarantees: the [choices] of the three enumerated
    options and the mutually exclusive groups. *)
Definition one_of (s : pystr) (choices : list string) : bool :=
  existsb (fun c => pystr_eqb s (L c)) choices.

Definition parsed (a : t) : bool :=
  match container a with
  | None => true
  | Some c => one_of c ["mkv"; "webm"; "mp4"]%string
  end
  && one_of (audio_codec a)
       ["aac"; "flac"; "mp3"; "opus"; "vorbis"; "copy"]%string
  && one_of (video_codec a)
       ["av1"; "h264"; "hevc"; "vp9"; "vp8"; "copy"]%string
  && negb (dvd a && bluray a)
  && negb (is_some (audio_quality a) && is_some (audio_bitrate a))
  && negb (is_some (video_quality a) && is_some (video_bitrate a))
  && (Nat.leb
        (List.length (filter (fun b : bool => b)
           [is_some (display_aspect a); is_some (pixel_aspect a);
            is_some (display_size a)])) 1).

End Args.

(** ** [main] *)

Section Main.
Variable w : world.

Definition PROGRAM_NAME : pystr := L "qtranscode".

(** Lines 574-590: the output path and the container, or [None] where
    [main] reports that the container cannot be determined. *)
Definition output_container (container : option pystr) (output : pystr)
  : option (pystr * pystr) :=
  let (output_prefix, output_suffix) := OsPath.splitext output in
  if opt_eqb container (L ".mkv") then
    Some (output_prefix ++ L ".mkv", L "mkv")
  else if opt_eqb container (L ".webm") then
    Some (output_prefix ++ L ".webm", L "webm")
  else if opt_eqb container (L ".mp4") then
    Some (output_prefix ++ L ".mp4", L "mp4")
  else if negb (existsb (pystr_eqb (Py.lower output_suffix))
                  [L ".mkv"; L ".webm"; L ".mp4"]) then
    None
  else Some (output, Py.lower (skipn 1 output_suffix)).

Definition pair_list (p : Z * Z) : list Z := [fst p; snd p].
Definition quad_list (q : Z * Z * Z * Z) : list Z :=
  let '(a, b, c, d) := q in [a; b; c; d].

(** Truth of an optional [int]: set and not zero. *)
Definition truthy (o : option Z) : bool :=
  match o with
  | Some z => negb (z =? 0)
  | None => false
  end.

(** Lines 715-722. *)
Definition final_dimensions (a : Args.t) (extractor : AVExtractor.t)
  : result (Z * Z) :=
  match Args.scale a, Args.crop a, Args.size a with
  | Some sc, _, _ => Ok sc
  | None, Some (cw, ch, _, _), _ => Ok (cw, ch)
  | None, None, Some sz => Ok sz
  | None, None, None => attr (AVExtractor.video_dimensions extractor)
  end.

(** Lines 724-729. *)
Definition sample_aspect (a : Args.t) (dims : Z * Z) : result Fraction.t :=
  match Args.display_aspect a, Args.pixel_aspect a with
  | Some da, _ =>
      (x <- Fraction.make (fst da) (snd da) ;;
       y <- Fraction.make (fst dims) (snd dims) ;;
       Fraction.div x y)%result
  | None, Some pa => Fraction.make (fst pa) (snd pa)
  | None, None => Fraction.make 1 1
  end.

(** Lines 731-736: the rate before deinterlacing is taken into
    account. *)
Definition base_rate (a : Args.t) (extractor : AVExtractor.t)
  : result Fraction.t :=
  if Args.ivtc a then Fraction.make 24000 1001
  else match Args.rate a with
       | Some r => Fraction.make (fst r) (snd r)
       | None => attr (AVExtractor.video_framerate extractor)
       end.

(** Lines 731-739. *)
Definition final_rate (a : Args.t) (extractor : AVExtractor.t)
  : result Fraction.t :=
  (final_rate <- base_rate a extractor ;;
   if Args.deinterlace a then Fraction.mul_int final_rate 2
   else Ok final_rate)%result.

(** One video codec of lines 746-812: a single pass, or two passes that
    share [stat_path]. [build] is the codec's builder applied to
    everything but the pass and the statistics file. *)
Definition transcode_video (label stats : pystr) (two_pass : bool)
    (dec_cmd : list pystr)
    (build : option Z -> option pystr -> result (list pystr)) : M unit :=
  (if negb two_pass then
     print_end [L "==> Transcoding video to " ++ label ++ L " format ..."] [] ;;
     enc_cmd <- lift (build None None) ;;
     transcode w dec_cmd enc_cmd ;;
     print [L " done."]
   else
     print_end
       [L "==> Transcoding video to " ++ label ++ L " format (pass 1) ..."] [] ;;
     let stat_path := OsPath.join (work_dir w) stats in
     enc_cmd <- lift (build (Some 1) (Some stat_path)) ;;
     transcode w dec_cmd enc_cmd ;;
     print [L " done."] ;;
     print_end
       [L "==> Transcoding video to " ++ label ++ L " format (pass 2) ..."] [] ;;
     let stat_path := OsPath.join (work_dir w) stats in
     enc_cmd <- lift (build (Some 2) (Some stat_path)) ;;
     transcode w dec_cmd enc_cmd ;;
     print [L " done."])%monad.

(** [with tempfile.TemporaryDirectory(...) as work_dir: body]: the
    directory is removed however the body ends. *)
Definition with_work_dir {A} (body : M A) : M A :=
  fun s =>
    let (o, s') := (emit (Mkdir (work_dir w)) ;; body)%monad s in
    (o, {| trace := trace s' ++ [Rmtree (work_dir w)];
           launched := launched s' |}).

(** "Verify command line sanity" *)
Definition check_bluray (a : Args.t) : M unit :=
  (if Args.bluray a then
     match Args.size a, Args.rate a with
     | None, _ =>
         print [L "ERROR: You must manually input the size of the input for Blu-ray sources!"] ;;
         return_ 1
     | Some _, None =>
         print [L "ERROR: You must manually input the frame rate of the input for Blu-ray sources!"] ;;
         return_ 1
     | Some _, Some _ => ret tt
     end
   else ret tt)%monad.

(** "Determine output container" *)
Definition determine_container (a : Args.t) : M (pystr * pystr) :=
  match output_container (Args.container a) (Args.output a) with
  | None =>
      (print [L "ERROR: Output container type indeterminable!"] ;;
       return_ 1)%monad
  | Some oc => ret oc
  end.

(** Lines 601-611. *)
Definition disc_type_of (a : Args.t) : option disc :=
  if Args.dvd a then Some dvd
  else if Args.bluray a then Some bluray
  else None.

Definition msid_of (a : Args.t) : option Z :=
  match Args.mplayer_sid a with
  | None => if Args.hardsub a then Some 0 else None
  | Some n => Some n
  end.

(** The construction of the extractor, line 614. *)
Definition make_extractor (a : Args.t) : M AVExtractor.t :=
  AVExtractor.__init__ w (Args.input a) (disc_type_of a) (Args.disc_title a)
    (Args.start_chapter a) (Args.end_chapter a) (Args.mplayer_aid a)
    (msid_of a).

(** The probe that the construction starts with. *)
Definition probe_of (a : Args.t) : list pystr :=
  AVExtractor.probe_command
    (AVExtractor.input_args (Args.input a) (disc_type_of a)
       (Args.disc_title a) (Args.mplayer_aid a) (msid_of a)).

(** "Chapters" *)
Definition chapters_stage (a : Args.t) (extractor : AVExtractor.t)
    (out_container : pystr) : M (option pystr) :=
  (if AVExtractor.has_chapters extractor && negb (Args.no_chapters a) then
     if pystr_eqb out_container (L "webm") then
       print [L "WARNING: Chapters present! This is not supported in WebM container!"] ;;
       ret None
     else if pystr_eqb out_container (L "mkv")
             || pystr_eqb out_container (L "mp4") then
       print_end [L "==> Extracting chapters ..."] [] ;;
       let chapters_path := OsPath.join (work_dir w) (L "chapters") in
       AVExtractor.extract_chapters w extractor chapters_path ;;
       print [L " done."] ;;
       ret (Some chapters_path)
     else raise AssertionError
   else ret None)%monad.

(** "Attachments" *)
Definition attachments_stage (a : Args.t) (extractor : AVExtractor.t)
    (out_container : pystr) : M (option pystr) :=
  (if (0 <? AVExtractor.attachment_cnt extractor)
      && negb (Args.no_attachments a)
   then
     if pystr_eqb out_container (L "webm") then
       print [L "WARNING: Attachments present! This is not supported in WebM container!"] ;;
       ret None
     else if pystr_eqb out_container (L "mp4") then
       print [L "WARNING: Attachments present! This is not supported in MP4 container!"] ;;
       ret None
     else if pystr_eqb out_container (L "mkv") then
       print_end [L "==> Extracting";
                  str (AVExtractor.attachment_cnt extractor);
                  L "attachment(s) ..."] [] ;;
       let attachments_path := OsPath.join (work_dir w) (L "attachments") in
       AVExtractor.extract_attachments w extractor attachments_path ;;
       print [L " done."] ;;
       ret (Some attachments_path)
     else raise AssertionError
   else ret None)%monad.

(** "Subtitles" *)
Definition subtitles_stage (a : Args.t) (extractor : AVExtractor.t)
    (out_container : pystr) : M (option pystr) :=
  (if AVExtractor.has_subtitles extractor && negb (Args.no_subtitles a)
      && negb (Args.hardsub a)
   then
     if pystr_eqb out_container (L "webm") then
       print [L "WARNING: Subtitles present! This is not supported in WebM container!"] ;;
       ret None
     else if pystr_eqb out_container (L "mp4") then
       print [L "WARNING: Subtitles present! This is not supported in MP4 container!"] ;;
       ret None
     else if pystr_eqb out_container (L "mkv") then
       print_end [L "==> Extracting subtitles ..."] [] ;;
       let subtitles_path := OsPath.join (work_dir w) (L "subtitles") in
       AVExtractor.extract_subtitles w extractor subtitles_path ;;
       let subtitles_path :=
         if Args.dvd a then subtitles_path ++ L ".idx" else subtitles_path in
       print [L " done."] ;;
       ret (Some subtitles_path)
     else raise AssertionError
   else ret None)%monad.

(** "Audio", lines 670-696: the chain of codec tests, which ends in
    [assert 0]. *)
Definition audio_encoder (a : Args.t) : M (pystr * list pystr) :=
  (let audio_quality := option_map Flt (Args.audio_quality a) in
   let audio_bitrate := option_map Int (Args.audio_bitrate a) in
   if pystr_eqb (Args.audio_codec a) (L "aac") then
     print_end [L "==> Transcoding audio to AAC format ..."] [] ;;
     let audio_path := OsPath.join (work_dir w) (L "audio.mp4") in
     enc_cmd <- lift (get_encode_aac_command w audio_path audio_quality
                        audio_bitrate) ;;
     ret (audio_path, enc_cmd)
   else if pystr_eqb (Args.audio_codec a) (L "flac") then
     print_end [L "==> Transcoding audio to FLAC format ..."] [] ;;
     let audio_path := OsPath.join (work_dir w) (L "audio.flac") in
     ret (audio_path, get_encode_flac_command audio_path)
   else if pystr_eqb (Args.audio_codec a) (L "opus") then
     print_end [L "==> Transcoding audio to Opus format ..."] [] ;;
     let audio_path := OsPath.join (work_dir w) (L "audio.opus") in
     ret (audio_path,
          get_encode_opus_command w audio_path audio_quality audio_bitrate)
   else if pystr_eqb (Args.audio_codec a) (L "vorbis") then
     print_end [L "==> Transcoding audio to Vorbis format ..."] [] ;;
     let audio_path := OsPath.join (work_dir w) (L "audio.ogg") in
     enc_cmd <- lift (get_encode_vorbis_command w audio_path audio_quality
                        audio_bitrate) ;;
     ret (audio_path, enc_cmd)
   else if pystr_eqb (Args.audio_codec a) (L "mp3") then
     print_end [L "==> Transcoding audio to MP3 format ..."] [] ;;
     let audio_path := OsPath.join (work_dir w) (L "audio.mp3") in
     (* the quality is passed where the builder expects the bitrate *)
     enc_cmd <- lift (get_encode_mp3_command w audio_path audio_quality
                        audio_bitrate) ;;
     ret (audio_path, enc_cmd)
   else raise AssertionError)%monad.

(** "Audio", lines 698-709: transcode, or copy the track. *)
Definition audio_stage (a : Args.t) (extractor : AVExtractor.t) : M pystr :=
  (audio <- audio_encoder a ;;
   let (audio_path, enc_cmd) := audio : pystr * list pystr in
   if negb (pystr_eqb (Args.audio_codec a) (L "copy")) then
     dec_cmd <- lift (AVExtractor.decode_audio extractor) ;;
     transcode w dec_cmd enc_cmd ;;
     print [L " done."] ;;
     ret audio_path
   else
     (if truthy (AVExtractor.chap_start extractor)
         || truthy (AVExtractor.chap_end extractor)
      then
        print [L "Cannot copy audio due to chapter slicing."] ;;
        return_ 1
      else ret tt) ;;
     print_end [L "==> Extracting audio ..."] [] ;;
     let audio_path := OsPath.join (work_dir w) (L "audio") in
     AVExtractor.extract_audio w extractor audio_path ;;
     print [L " done."] ;;
     ret audio_path)%monad.

(** "Final dimension and frame rate calculations" and "Transcode video" *)
Definition video_stage (a : Args.t) (extractor : AVExtractor.t) : M pystr :=
  (final_dimensions <- lift (final_dimensions a extractor) ;;
   sar <- lift (sample_aspect a final_dimensions) ;;
   final_rate <- lift (final_rate a extractor) ;;
   let dec_cmd :=
     AVExtractor.get_decode_video_command extractor (Args.denoise a)
       (Args.post_process a) (option_map pair_list (Args.scale a))
       (option_map quad_list (Args.crop a)) (Args.deinterlace a)
       (Args.ivtc a) (option_map pair_list (Args.rate a))
       (Args.hardsub a) in
   let video_quality := option_map Flt (Args.video_quality a) in
   let video_bitrate := option_map Flt (Args.video_bitrate a) in
   let speed := Some (Args.encoder_speed a) in
   if pystr_eqb (Args.video_codec a) (L "av1") then
     let video_path := OsPath.join (work_dir w) (L "video.ivf") in
     transcode_video (L "AV1") (L "av1_stats") (Args.two_pass a) dec_cmd
       (get_encode_av1_command w video_path final_dimensions final_rate
          video_quality video_bitrate speed) ;;
     ret video_path
   else if pystr_eqb (Args.video_codec a) (L "h264") then
     let video_path := OsPath.join (work_dir w) (L "video.264") in
     transcode_video (L "H264") (L "x264_stats") (Args.two_pass a) dec_cmd
       (get_encode_h264_command w video_path final_dimensions final_rate
          sar video_quality video_bitrate speed) ;;
     ret video_path
   else if pystr_eqb (Args.video_codec a) (L "vp9") then
     let video_path := OsPath.join (work_dir w) (L "video.ivf") in
     transcode_video (L "VP9") (L "vp9_stats") (Args.two_pass a) dec_cmd
       (get_encode_vp9_command w video_path final_dimensions final_rate
          video_quality video_bitrate speed) ;;
     ret video_path
   else if pystr_eqb (Args.video_codec a) (L "vp8") then
     let video_path := OsPath.join (work_dir w) (L "video.ivf") in
     transcode_video (L "VP8") (L "vp8_stats") (Args.two_pass a) dec_cmd
       (get_encode_vp8_command w video_path final_dimensions final_rate
          video_quality video_bitrate speed) ;;
     ret video_path
   else raise AssertionError)%monad.

(** "Mux" *)
Definition mux_stage (a : Args.t) (output out_container : pystr)
    (chapters_path attachments_path subtitles_path : option pystr)
    (video_path audio_path : pystr) : M unit :=
  (print_end [L "==> Multiplexing ..."] [] ;;
   (if pystr_eqb out_container (L "mkv")
       || pystr_eqb out_container (L "webm") then
      mux_matroska_mkv w output (Args.title a) chapters_path
        attachments_path video_path (Args.display_aspect a)
        (Args.pixel_aspect a) (Args.display_size a) audio_path
        subtitles_path (Args.video_language a) (Args.audio_language a)
        (Args.subtitles_language a)
    else if pystr_eqb out_container (L "mp4") then
      mux_mp4 w output chapters_path video_path (Args.pixel_aspect a)
        audio_path (Args.video_language a) (Args.audio_language a)
    else raise AssertionError) ;;
   print [L " done."])%monad.

(** The body of the [with] statement of [main]. *)
Definition process (a : Args.t) (extractor : AVExtractor.t)
    (output out_container : pystr) : M unit :=
  (print [L "==> Created work directory:"; work_dir w; L "..."] ;;
   chapters_path <- chapters_stage a extractor out_container ;;
   attachments_path <- attachments_stage a extractor out_container ;;
   subtitles_path <- subtitles_stage a extractor out_container ;;
   audio_path <- audio_stage a extractor ;;
   video_path <- video_stage a extractor ;;
   mux_stage a output out_container chapters_path attachments_path
     subtitles_path video_path audio_path)%monad.

Definition main (a : Args.t) : M Z :=
  (check_bluray a ;;
   oc <- determine_container a ;;
   let (output, out_container) := oc : pystr * pystr in
   (* Reduce priority *)
   (if negb (Args.no_nice a) then emit (Nice 10) else ret tt) ;;
   (* Process *)
   print [L "==> Processing"; OsPath.basename (Args.input a); L "..."] ;;
   extractor <- make_extractor a ;;
   with_work_dir (process a extractor output out_container) ;;
   print [done_message w] ;;
   ret 0)%monad.

(** The exit status of the script: [sys.exit(main())], and status 1 with
    a traceback when an exception escapes. *)
Definition exit_code (o : outcome Z) : Z :=
  match o with
  | Done z => z
  | Returned z => z
  | Raised _ => 1
  end.

(** The exit status of a run and the events of [main]: what the run has
    done by the time [main] is left.  The line that lines 836-837 print
    after a status other than 0 is not among them. *)
Definition run_script (a : Args.t) : Z * list event :=
  let (o, s) := main a initial in (exit_code o, trace s).
End Main.

(** ** Notions the statements below are phrased with *)

(** *** Filter chains *)

Definition comma : ascii := ","%char.

Definition comma_free (s : pystr) : Prop := Forall (fun c => c <> comma) s.

Definition digit_or_minus (c : ascii) : Prop :=
  Py.is_digit c = true \/ c = "-"%char.

(** A chain of [mencoder] filters is a comma-separated list of stages. *)
Fixpoint split_on (sep : ascii) (s : pystr) : list pystr :=
  match s with
  | [] => [[]]
  | c :: s' =>
      if Ascii.eqb c sep then [] :: split_on sep s'
      else match split_on sep s' with
           | l :: ls => (c :: l) :: ls
           | [] => [[c]]
           end
  end.

Definition stages (chain : pystr) : list pystr := split_on comma chain.

Definition is_empty (s : pystr) : bool :=
  match s with [] => true | _ => false end.

(** The stages that name a filter. *)
Definition named_stages (chain : pystr) : list pystr :=
  filter (fun st => negb (is_empty st)) (stages chain).

(** The stages the picture options ask for, in the order the
    specification fixes: format, inverse telecine (with the crop folded
    in), deinterlace, crop, scale, post-process, denoise, duplication. *)
Definition requested_stages (denoise pp : bool) (scale crop : option (list Z))
    (deint ivtc : bool) : list pystr :=
  [L "format=i420"]
  ++ (if ivtc then
        [match crop with
         | None => L "filmdint=fast=0"
         | Some c => L "filmdint=fast=0/crop=" ++ AVExtractor.join_ints (L ":") c
         end]
      else [])
  ++ (if deint then [L "yadif=1"] else [])
  ++ match crop with
     | Some c => if ivtc then [] else [L "crop=" ++ AVExtractor.join_ints (L ":") c]
     | None => []
     end
  ++ match scale with
     | Some sc => [L "scale=" ++ AVExtractor.join_ints (L ":") sc]
     | None => []
     end
  ++ (if pp then [L "pp=ha/va/dr"] else [])
  ++ (if denoise then [L "hqdn3d"] else [])
  ++ [L "harddup"].

(** *** Fractions in lowest terms *)

Definition lowest_terms (f : Fraction.t) : Prop :=
  0 < Fraction.denominator f
  /\ Z.gcd (Fraction.numerator f) (Fraction.denominator f) = 1.

(** *** Runs of the script *)

(** A computation is tame when it only adds to the trace, never forgets a
    process it started, and returns early with status 1 only. *)
Definition tame {A} (c : M A) : Prop :=
  forall s,
    (exists t, trace (snd (c s)) = trace s ++ t)
    /\ (launched s <= launched (snd (c s)))%nat
    /\ match fst (c s) with
       | Returned z => z = 1
       | _ => True
       end.

(** A computation that cannot end normally. *)
Definition never_done {A} (c : M A) : Prop :=
  forall s,
    match fst (c s) with
    | Done _ => False
    | Raised _ => True
    | Returned z => z = 1
    end.

(** *** Sample environments *)

(** A decoder that fails and an encoder that succeeds. *)
Definition decoder_fails : world := {|
  cpu_count := 1;
  which := fun _ => true;
  abspath := fun p => p;
  getcwd := L "/";
  work_dir := L "/tmp/qtranscode-0";
  glob_sorted := fun _ => [];
  spawns := fun _ => true;
  exit_status := fun pid => match pid with O => 1 | _ => 0 end;
  stdout_of := fun _ => [];
  float_repr := fun _ => [];
  done_message := []
|}.

(** Lines of text, each ended by a newline. *)
Definition unlines (ls : list pystr) : pystr :=
  List.concat (map (fun l => l ++ [nl]) ls).

(** An AVI file that [mplayer] identifies; every process succeeds. *)
Definition avi_probe : pystr :=
  unlines
    [L "VIDEO:  [H264]  1920x1080 24bpp  23.976 fps    0.0 kbps ( 0.0 kbyte/s)";
     L "AUDIO: 48000 Hz, 2 ch, floatle, 0.0 kbit/0.00% (ratio: 0->384000)";
     L "Selected audio codec: [ffaac] afm: ffmpeg (FFmpeg AAC)"].

Definition avi_world : world := {|
  cpu_count := 4;
  which := fun _ => true;
  abspath := fun p => L "/home/user/" ++ p;
  getcwd := L "/home/user";
  work_dir := L "/tmp/qtranscode-0";
  glob_sorted := fun _ => [];
  spawns := fun _ => true;
  exit_status := fun _ => 0;
  stdout_of := fun pid => match pid with O => avi_probe | _ => [] end;
  float_repr := fun _ => [];
  done_message := L "Done."
|}.

(** A command line for [in.avi] with the defaults of the parser for all
    but the container, the output path, the audio codec, the first chapter
    and the deinterlacing switch. *)
Definition sample_args (container : option pystr) (output audio_codec : pystr)
    (start_chapter : option Z) (deinterlace : bool) : Args.t := {|
  Args.input := L "in.avi";
  Args.mplayer_aid := None;
  Args.mplayer_sid := None;
  Args.container := container;
  Args.output := output;
  Args.dvd := false;
  Args.bluray := false;
  Args.disc_title := 1;
  Args.size := None;
  Args.rate := None;
  Args.audio_codec := audio_codec;
  Args.audio_quality := None;
  Args.audio_bitrate := None;
  Args.video_codec := L "av1";
  Args.video_quality := None;
  Args.video_bitrate := None;
  Args.encoder_speed := 3;
  Args.two_pass := false;
  Args.title := None;
  Args.video_language := None;
  Args.audio_language := None;
  Args.subtitles_language := None;
  Args.start_chapter := start_chapter;
  Args.end_chapter := None;
  Args.no_chapters := false;
  Args.denoise := false;
  Args.post_process := false;
  Args.deinterlace := deinterlace;
  Args.ivtc := false;
  Args.crop := None;
  Args.scale := None;
  Args.display_aspect := None;
  Args.pixel_aspect := None;
  Args.display_size := None;
  Args.hardsub := false;
  Args.no_subtitles := false;
  Args.no_nice := false;
  Args.no_attachments := false
|}.

(** [qtranscode -a copy -C 2 -o out.mkv in.avi] *)
Definition copy_with_range : Args.t :=
  sample_args None (L "out.mkv") (L "copy") (Some 2) false.

(** [qtranscode -U mkv -o out.avi in.avi] *)
Definition container_mkv_output_avi : Args.t :=
  sample_args (Some (L "mkv")) (L "out.avi") (L "opus") None false.

(** What the construction of the extractor yields for [in.avi] in
    [avi_world]. *)
Definition avi_extractor : AVExtractor.t := {|
  AVExtractor.path := L "/home/user/in.avi";
  AVExtractor.disc_type := None;
  AVExtractor.mplayer_input_args := [L "in.avi"];
  AVExtractor.disc_title := None;
  AVExtractor.video_codec := Some (L "H264");
  AVExtractor.video_dimensions := Some (1920, 1080);
  AVExtractor.video_framerate :=
    Some {| Fraction.numerator := 24000; Fraction.denominator := 1001 |};
  AVExtractor.audio_samplerate := 48000;
  AVExtractor.audio_channels := 2;
  AVExtractor.audio_codec := L "ffaac";
  AVExtractor.chap_start := None;
  AVExtractor.chap_end := None;
  AVExtractor.is_matroska := false;
  AVExtractor.has_chapters := false;
  AVExtractor.attachment_cnt := 0;
  AVExtractor.has_subtitles := false;
  AVExtractor.mkvmerge_probe_out := None;
  AVExtractor.mkv_subtitle_tracknum := None
|}.

(** [qtranscode -d -o out.mkv in.avi] *)
Definition deinterlaced : Args.t :=
  sample_args None (L "out.mkv") (L "opus") None true.

(** *** Frame rates *)

(** The exact value of a finite float. *)
Definition float_value (v : Float.float) : Q :=
  match v with
  | S754_finite s m e =>
      let n := if s then Zneg m else Zpos m in
      if 0 <=? e then inject_Z (n * 2 ^ e) else Qmake n (Z.to_pos (2 ^ (- e)))
  | _ => 0
  end.

(** The test of line 79, as the script evaluates it in binary64
    arithmetic: is [v] within relative tolerance 1e-5 of
    [ceil(v) / 1.001]? [false] where the test itself cannot be
    evaluated. *)
Definition within_tolerance (v : Float.float) : bool :=
  match
    (c <- Float.ceil v ;;
     cf <- Float.int_to_float c ;;
     q <- Float.div cf (Float.of_ratio 1001 1000) ;;
     r <- Float.div (Float.abs (Float.sub q v)) v ;;
     Ok (Float.ltb r (Float.of_ratio 1 100000)))%result
  with
  | Ok b => b
  | Raise _ => false
  end.

(** *** Chapter files *)

(** The lines of a chapter file in the simple format. *)
Inductive chapter_record :=
| Timestamp (index hh mm ss ms : Z)   (* CHAPTERnn=HH:MM:SS.mmm *)
| Label (index n : Z)                 (* CHAPTERnnNAME=Chapter NN *)
| Title (index : Z) (title : pystr).  (* CHAPTERnnNAME=title *)

Definition index_of (r : chapter_record) : Z :=
  match r with
  | Timestamp i _ _ _ _ => i
  | Label i _ => i
  | Title i _ => i
  end.

(** Numbers are written the way the slicer writes them: zero-padded to a
    minimal width. *)
Definition padded (width : nat) (n : Z) : pystr := Py.zfill width (Py.str_int n).

Definition render_record (r : chapter_record) : pystr :=
  match r with
  | Timestamp i h m s ms =>
      L "CHAPTER" ++ padded 2 i ++ L "=" ++ padded 2 h ++ L ":" ++ padded 2 m
      ++ L ":" ++ padded 2 s ++ L "." ++ padded 3 ms
  | Label i n => L "CHAPTER" ++ padded 2 i ++ L "NAME=Chapter " ++ padded 2 n
  | Title i t => L "CHAPTER" ++ padded 2 i ++ L "NAME=" ++ t
  end.

(** The text of a chapter file: one record per line. *)
Definition render (rs : list chapter_record) : pystr :=
  unlines (map render_record rs).

(** The rest of [s] after the prefix [a]. *)
Fixpoint strip_prefix (a s : pystr) : option pystr :=
  match a, s with
  | [], _ => Some s
  | x :: a', y :: s' => if Ascii.eqb x y then strip_prefix a' s' else None
  | _ :: _, [] => None
  end.

(** A title that reads [Chapter] and a number is a label. *)
Definition is_label_title (t : pystr) : bool :=
  match strip_prefix (L "Chapter ") t with
  | Some rest => negb (is_empty rest) && forallb Py.is_digit rest
  | None => false
  end.

(** A record that its line denotes again: two-digit fields of time, three
    digits of milliseconds, a title that stays on its line and is not a
    label. *)
Definition well_formed (r : chapter_record) : Prop :=
  match r with
  | Timestamp i h m s ms =>
      0 <= i /\ 0 <= h < 100 /\ 0 <= m < 100 /\ 0 <= s < 100 /\ 0 <= ms < 1000
  | Label i n => 0 <= i /\ 0 <= n
  | Title i t =>
      0 <= i /\ forallb (fun c => negb (Py.is_linebreak c)) t = true
      /\ is_label_title t = false
  end.

(** A timestamp in milliseconds. *)
Definition millis (h m s ms : Z) : Z := ((h * 60 + m) * 60 + s) * 1000 + ms.

Definition day_ms : Z := 86400000.

(** [startIndex - 1], or 0 when the start is not set. *)
Definition index_offset (start : option Z) : Z :=
  match start with
  | Some s => s - 1
  | None => 0
  end.

(** The timestamp of the start entry, or zero when the start is not set;
    [None] when the start entry is missing. *)
Fixpoint start_time (s : Z) (rs : list chapter_record) : option Z :=
  match rs with
  | [] => None
  | Timestamp i h m sec ms :: rest =>
      if i =? s then Some (millis h m sec ms) else start_time s rest
  | _ :: rest => start_time s rest
  end.

Definition time_offset (start : option Z) (rs : list chapter_record)
  : option Z :=
  match start with
  | Some s => start_time s rs
  | None => Some 0
  end.

(** [startIndex <= i <= endIndex], an absent bound being no bound. *)
Definition within (start end_ : option Z) (i : Z) : bool :=
  match start with Some s => s <=? i | None => true end
  && match end_ with Some e => i <=? e | None => true end.

(** A record with the offsets subtracted. *)
Definition rebase (ioff toff : Z) (r : chapter_record) : chapter_record :=
  match r with
  | Timestamp i h m s ms =>
      let d := millis h m s ms - toff in
      Timestamp (i - ioff) (d / 3600000) (d / 60000 mod 60) (d / 1000 mod 60)
        (d mod 1000)
  | Label i n => Label (i - ioff) (n - ioff)
  | Title i t => Title (i - ioff) t
  end.

(** The slice the specification describes. *)
Definition slice (start end_ : option Z) (toff : Z) (rs : list chapter_record)
  : list chapter_record :=
  map (rebase (index_offset start) toff)
      (filter (fun r => within start end_ (index_of r)) rs).

(** The timestamps that the slice keeps stay within a day of the
    offset. *)
Definition within_a_day (start end_ : option Z) (toff : Z)
    (rs : list chapter_record) : Prop :=
  forall i h m s ms,
    In (Timestamp i h m s ms) rs -> within start end_ i = true ->
    0 <= millis h m s ms - toff < day_ms.

(** Timestamps as a clock shows them. *)
Definition clock_time (r : chapter_record) : Prop :=
  match r with
  | Timestamp _ h m s _ => h < 24 /\ m < 60 /\ s < 60
  | _ => True
  end.

(** Six chapters, ten minutes apart, the third with a title of its own. *)
Definition six_chapters : list chapter_record :=
  [Timestamp 1 0 0 0 0; Label 1 1;
   Timestamp 2 0 10 0 0; Label 2 2;
   Timestamp 3 0 20 0 500; Title 3 (L "Intermission");
   Timestamp 4 0 30 0 0; Label 4 4;
   Timestamp 5 0 40 0 250; Label 5 5;
   Timestamp 6 0 50 0 0; Label 6 6].

(** The shape of a padded field, as a test. *)
Definition two_digit_ok (n : nat) : bool :=
  match padded 2 (Z.of_nat n) with
  | [a; b] => Py.is_digit a && Py.is_digit b
  | _ => false
  end.

Definition three_digit_ok (n : nat) : bool :=
  match padded 3 (Z.of_nat n) with
  | [a; b; c] => Py.is_digit a && Py.is_digit b && Py.is_digit c
  | _ => false
  end.

(** *** Matching *)

Definition starts_without_digit (s : pystr) : Prop :=
  match s with
  | [] => True
  | c :: _ => Py.is_digit c = false
  end.

(** What follows a group of digits never starts with a digit in the
    patterns of the script. *)
Definition refuses_digits (ml : bool) (p : Re.regex) : Prop :=
  forall prev c s o caps,
    Py.is_digit c = true -> Re.run ml p prev (c :: s) o caps = None.

(** Text that stays on one line. *)
Definition line_safe (s : pystr) : Prop :=
  Forall (fun c => Py.is_linebreak c = false) s.

(** The third to fifth of the six chapters, renumbered and rebased. *)
Definition chapters_3_to_5 : list chapter_record :=
  [Timestamp 1 0 0 0 0; Title 1 (L "Intermission");
   Timestamp 2 0 9 59 500; Label 2 2;
   Timestamp 3 0 19 59 750; Label 3 3].

(** A chapter file whose label is not padded. *)
Definition unpadded_label : pystr :=
  unlines [L "CHAPTER01=00:00:00.000"; L "CHAPTER01NAME=Chapter 1"].

(** *** Chapter files as they are written *)

(** CPython converts between [int] and [str] up to this number of digits
    ([sys.int_info.default_max_str_digits]). *)
Definition max_str_digits : nat := 4300.

(** A number as a chapter file may carry it: a run of digits of any
    width below that limit, leading zeros included. *)
Definition is_numeral (ds : pystr) : bool :=
  negb (is_empty ds) && forallb Py.is_digit ds
  && (List.length ds <? max_str_digits)%nat.

(** The number that a run of digits denotes. *)
Definition number (ds : pystr) : Z :=
  match Py.int ds with
  | Some n => n
  | None => 0
  end.

(** The three kinds of line, with the index and the number of a label as
    they stand in the text. *)
Inductive written_line :=
| TimeLine (index : pystr) (hh mm ss ms : Z)  (* CHAPTER<index>=HH:MM:SS.mmm *)
| LabelLine (index number : pystr)       (* CHAPTER<index>NAME=Chapter <number> *)
| TitleLine (index title : pystr).       (* CHAPTER<index>NAME=<title> *)

Definition write_line (l : written_line) : pystr :=
  match l with
  | TimeLine i h m s ms =>
      L "CHAPTER" ++ i ++ L "=" ++ padded 2 h ++ L ":" ++ padded 2 m
      ++ L ":" ++ padded 2 s ++ L "." ++ padded 3 ms
  | LabelLine i n => L "CHAPTER" ++ i ++ L "NAME=Chapter " ++ n
  | TitleLine i t => L "CHAPTER" ++ i ++ L "NAME=" ++ t
  end.

(** A chapter text: one line per entry, each ended by a newline. *)
Definition write (ls : list written_line) : pystr :=
  unlines (map write_line ls).

(** The record that a line denotes. *)
Definition read_line (l : written_line) : chapter_record :=
  match l with
  | TimeLine i h m s ms => Timestamp (number i) h m s ms
  | LabelLine i n => Label (number i) (number n)
  | TitleLine i t => Title (number i) t
  end.

(** A line of a well-formed chapter text: the index is a numeral, the
    fields of the time have two digits and the milliseconds three, a title
    of the shape [Chapter <numeral>] is a label, and any other title is
    text that stays on its line. *)
Definition well_written (l : written_line) : Prop :=
  match l with
  | TimeLine i h m s ms =>
      is_numeral i = true
      /\ 0 <= h < 100 /\ 0 <= m < 100 /\ 0 <= s < 100 /\ 0 <= ms < 1000
  | LabelLine i n => is_numeral i = true /\ is_numeral n = true
  | TitleLine i t =>
      is_numeral i = true
      /\ forallb (fun c => negb (Py.is_linebreak c)) t = true
      /\ is_label_title t = false
  end.

(** The time of the start entry as line 145 looks for it: the first time
    line whose index is written as [str(start).zfill(2)]. *)
Fixpoint written_start_time (s : Z) (ls : list written_line) : option Z :=
  match ls with
  | [] => None
  | TimeLine i h m sec ms :: rest =>
      if pystr_eqb i (padded 2 s) then Some (millis h m sec ms)
      else written_start_time s rest
  | _ :: rest => written_start_time s rest
  end.

Definition written_time_offset (start : option Z) (ls : list written_line)
  : option Z :=
  match start with
  | Some s => written_start_time s ls
  | None => Some 0
  end.

(** A numeral in the form the slicer writes: two digits, or more without
    a leading zero. *)
Definition shortest_form (ds : pystr) : bool :=
  pystr_eqb ds (padded 2 (number ds)).

(** A line whose index, and number if it is a label, are in that form. *)
Definition slicer_form (l : written_line) : bool :=
  match l with
  | TimeLine i _ _ _ _ => shortest_form i
  | LabelLine i n => shortest_form i && shortest_form n
  | TitleLine i _ => shortest_form i
  end.

(** The six chapters as a tool may write them: an index of three digits
    and labels that are not padded. *)
Definition six_chapters_written : list written_line :=
  [TimeLine (L "01") 0 0 0 0; LabelLine (L "01") (L "1");
   TimeLine (L "02") 0 10 0 0; LabelLine (L "02") (L "2");
   TimeLine (L "03") 0 20 0 500; TitleLine (L "03") (L "Intermission");
   TimeLine (L "004") 0 30 0 0; LabelLine (L "004") (L "4");
   TimeLine (L "05") 0 40 0 250; LabelLine (L "05") (L "005");
   TimeLine (L "06") 0 50 0 0; LabelLine (L "06") (L "6")].

(** The six chapters in the form the slicer writes. *)
Definition six_chapters_padded : list written_line :=
  [TimeLine (L "01") 0 0 0 0; LabelLine (L "01") (L "01");
   TimeLine (L "02") 0 10 0 0; LabelLine (L "02") (L "02");
   TimeLine (L "03") 0 20 0 500; TitleLine (L "03") (L "Intermission");
   TimeLine (L "04") 0 30 0 0; LabelLine (L "04") (L "04");
   TimeLine (L "05") 0 40 0 250; LabelLine (L "05") (L "05");
   TimeLine (L "06") 0 50 0 0; LabelLine (L "06") (L "06")].

(** A chapter file whose start entry carries an index of three digits. *)
Definition wide_start_index : pystr :=
  unlines [L "CHAPTER003=00:20:00.000"; L "CHAPTER003NAME=Chapter 3"].

(** ** Further notions *)

(** *** The events of a run *)

(** The events by which the script itself touches the file system. *)
Definition touches_files (e : event) : bool :=
  match e with
  | WriteFile _ _ | Mkdir _ | Rmtree _ | Chdir _ => true
  | _ => false
  end.

Definition is_nice (e : event) : bool :=
  match e with
  | Nice _ => true
  | _ => false
  end.

(** A computation all of whose events satisfy [P]. *)
Definition emits {A} (P : event -> Prop) (c : M A) : Prop :=
  forall s, exists t, trace (snd (c s)) = trace s ++ t /\ Forall P t.

(** Every process of a trace could be started, was waited for and ended
    with status 0. *)
Definition all_succeeded (w : world) (t : list event) : Prop :=
  forall pid cmd,
    In (Launch pid cmd) t ->
    spawns w pid = true /\ In (Wait pid) t /\ exit_status w pid = 0.

(** A computation that, where it ends normally, leaves no process behind
    that failed or was not waited for. *)
Definition settles {A} (w : world) (c : M A) : Prop :=
  forall s,
    all_succeeded w (trace s) ->
    match fst (c s) with
    | Done _ => all_succeeded w (trace (snd (c s)))
    | _ => True
    end.

(** The messages of the checks that [main] makes before it starts. *)
Definition sanity_errors : list pystr :=
  [L "ERROR: You must manually input the size of the input for Blu-ray sources!";
   L "ERROR: You must manually input the frame rate of the input for Blu-ray sources!";
   L "ERROR: Output container type indeterminable!"].

(** [qtranscode -o out.mkv in.avi] *)
Definition plain_run : Args.t :=
  sample_args None (L "out.mkv") (L "opus") None false.

(** A command line with another video codec. *)
Definition with_video_codec (a : Args.t) (codec : pystr) : Args.t := {|
  Args.input := Args.input a;
  Args.mplayer_aid := Args.mplayer_aid a;
  Args.mplayer_sid := Args.mplayer_sid a;
  Args.container := Args.container a;
  Args.output := Args.output a;
  Args.dvd := Args.dvd a;
  Args.bluray := Args.bluray a;
  Args.disc_title := Args.disc_title a;
  Args.size := Args.size a;
  Args.rate := Args.rate a;
  Args.audio_codec := Args.audio_codec a;
  Args.audio_quality := Args.audio_quality a;
  Args.audio_bitrate := Args.audio_bitrate a;
  Args.video_codec := codec;
  Args.video_quality := Args.video_quality a;
  Args.video_bitrate := Args.video_bitrate a;
  Args.encoder_speed := Args.encoder_speed a;
  Args.two_pass := Args.two_pass a;
  Args.title := Args.title a;
  Args.video_language := Args.video_language a;
  Args.audio_language := Args.audio_language a;
  Args.subtitles_language := Args.subtitles_language a;
  Args.start_chapter := Args.start_chapter a;
  Args.end_chapter := Args.end_chapter a;
  Args.no_chapters := Args.no_chapters a;
  Args.denoise := Args.denoise a;
  Args.post_process := Args.post_process a;
  Args.deinterlace := Args.deinterlace a;
  Args.ivtc := Args.ivtc a;
  Args.crop := Args.crop a;
  Args.scale := Args.scale a;
  Args.display_aspect := Args.display_aspect a;
  Args.pixel_aspect := Args.pixel_aspect a;
  Args.display_size := Args.display_size a;
  Args.hardsub := Args.hardsub a;
  Args.no_subtitles := Args.no_subtitles a;
  Args.no_nice := Args.no_nice a;
  Args.no_attachments := Args.no_attachments a
|}.

(** [qtranscode -v hevc -o out.mkv in.avi] *)
Definition hevc_run : Args.t := with_video_codec plain_run (L "hevc").

(** The course of a run from a trace [t0] on: events that leave the file
    system alone, then either a failure, or the creation of the work
    directory, the work in it and its removal, followed by the closing
    report in a run that ends well and by nothing otherwise. *)
Definition lifecycle_after (w : world) (t0 : list event)
    (r : outcome Z * state) : Prop :=
  exists pre,
    Forall (fun e => touches_files e = false) pre
    /\ ((exit_code (fst r) = 1 /\ trace (snd r) = t0 ++ pre)
        \/ exists body,
             trace (snd r)
             = t0 ++ pre ++ Mkdir (work_dir w) :: body
               ++ Rmtree (work_dir w)
               :: (if exit_code (fst r) =? 0
                   then [Print (done_message w ++ [nl])]
                   else [])).

(** What the script itself may do to the file system for an output
    container: it writes a file (the chapters) for Matroska and MP4 only,
    and makes a directory of its own and changes into it (the
    attachments) for Matroska only. *)
Definition container_allows (w : world) (out_container : pystr) (e : event)
  : Prop :=
  match e with
  | WriteFile _ _ => out_container <> L "webm"
  | Chdir _ => out_container = L "mkv"
  | Mkdir path => path = work_dir w \/ out_container = L "mkv"
  | Rmtree path => path = work_dir w
  | _ => True
  end.

(** [qtranscode -o out.webm in.avi] *)
Definition webm_run : Args.t :=
  sample_args None (L "out.webm") (L "opus") None false.

(** *** A Matroska source *)

(** What [mkvmerge --identify] prints for a file with chapters, one
    attachment and a subtitle track. *)
Definition mkv_identify : pystr :=
  unlines
    [L "File 'in.mkv': container: Matroska";
     L "Track ID 0: video (MPEG-4p10/AVC/h.264)";
     L "Track ID 1: audio (AAC)";
     L "Track ID 2: subtitles (SubRip/SRT)";
     L "Attachment ID 1: type 'font/ttf', size 1000 bytes, file name 'a.ttf'";
     L "Chapters: 6 entries"].

(** Every process succeeds; the first is the probe of [mplayer], the
    second that of [mkvmerge], the third prints the six chapters. *)
Definition mkv_world : world := {|
  cpu_count := 4;
  which := fun _ => true;
  abspath := fun p => L "/home/user/" ++ p;
  getcwd := L "/home/user";
  work_dir := L "/tmp/qtranscode-0";
  glob_sorted := fun _ => [L "/tmp/qtranscode-0/attachments/a.ttf"];
  spawns := fun _ => true;
  exit_status := fun _ => 0;
  stdout_of := fun pid =>
    match pid with
    | O => avi_probe
    | S O => mkv_identify
    | S (S O) => render six_chapters
    | _ => []
    end;
  float_repr := fun _ => [];
  done_message := L "Done."
|}.

(** [qtranscode -o OUTPUT in.mkv], with a chapter range where given. *)
Definition mkv_args (output : pystr) (start_chapter end_chapter : option Z)
  : Args.t := {|
  Args.input := L "in.mkv";
  Args.mplayer_aid := None;
  Args.mplayer_sid := None;
  Args.container := None;
  Args.output := output;
  Args.dvd := false;
  Args.bluray := false;
  Args.disc_title := 1;
  Args.size := None;
  Args.rate := None;
  Args.audio_codec := L "opus";
  Args.audio_quality := None;
  Args.audio_bitrate := None;
  Args.video_codec := L "av1";
  Args.video_quality := None;
  Args.video_bitrate := None;
  Args.encoder_speed := 3;
  Args.two_pass := false;
  Args.title := None;
  Args.video_language := None;
  Args.audio_language := None;
  Args.subtitles_language := None;
  Args.start_chapter := start_chapter;
  Args.end_chapter := end_chapter;
  Args.no_chapters := false;
  Args.denoise := false;
  Args.post_process := false;
  Args.deinterlace := false;
  Args.ivtc := false;
  Args.crop := None;
  Args.scale := None;
  Args.display_aspect := None;
  Args.pixel_aspect := None;
  Args.display_size := None;
  Args.hardsub := false;
  Args.no_subtitles := false;
  Args.no_nice := false;
  Args.no_attachments := false
|}.

(** *** Matches *)

(** A non-empty run of digits. *)
Definition numeral (g : pystr) : Prop :=
  g <> [] /\ Forall (fun c => Py.is_digit c = true) g.

(** *** Chapter times modulo a day *)

(** A record with the offsets subtracted the way the slicer writes it:
    the difference of two times is reduced modulo 24 hours. *)
Definition rebase_wrapping (ioff toff : Z) (r : chapter_record)
  : chapter_record :=
  match r with
  | Timestamp i h m s ms =>
      let d := (millis h m s ms - toff) mod day_ms in
      Timestamp (i - ioff) (d / 3600000) (d / 60000 mod 60) (d / 1000 mod 60)
        (d mod 1000)
  | Label i n => Label (i - ioff) (n - ioff)
  | Title i t => Title (i - ioff) t
  end.

(** The records the slicer emits for a range. *)
Definition emitted (start end_ : option Z) (toff : Z)
    (rs : list chapter_record) : list chapter_record :=
  map (rebase_wrapping (index_offset start) toff)
      (filter (fun r => within start end_ (index_of r)) rs).

(** Three chapters, the third of which starts before the second. *)
Definition disordered_chapters : list chapter_record :=
  [Timestamp 1 0 0 0 0; Timestamp 2 0 10 0 0; Timestamp 3 0 5 0 0].

(** A label whose number has become negative reads as a title. *)
Definition as_written (r : chapter_record) : chapter_record :=
  match r with
  | Label i n => if n <? 0 then Title i (L "Chapter " ++ padded 2 n) else r
  | _ => r
  end.

(** *** Audio levels *)

(** [round(10.0 - n)] is [10 - n] for the integer [n]: the test that is
    run over a range of bitrates. *)
Definition mp3_level_ok (n : nat) : bool :=
  match (x <- Float.int_to_float (Z.of_nat n) ;;
         Float.round (Float.sub (Float.of_Z 10) x))%result with
  | Ok r => r =? 10 - Z.of_nat n
  | Raise _ => false
  end.

(** [qtranscode -a mp3 -b 128 -o out.mkv in.avi] *)
Definition mp3_run : Args.t := {|
  Args.input := L "in.avi";
  Args.mplayer_aid := None;
  Args.mplayer_sid := None;
  Args.container := None;
  Args.output := L "out.mkv";
  Args.dvd := false;
  Args.bluray := false;
  Args.disc_title := 1;
  Args.size := None;
  Args.rate := None;
  Args.audio_codec := L "mp3";
  Args.audio_quality := None;
  Args.audio_bitrate := Some 128;
  Args.video_codec := L "av1";
  Args.video_quality := None;
  Args.video_bitrate := None;
  Args.encoder_speed := 3;
  Args.two_pass := false;
  Args.title := None;
  Args.video_language := None;
  Args.audio_language := None;
  Args.subtitles_language := None;
  Args.start_chapter := None;
  Args.end_chapter := None;
  Args.no_chapters := false;
  Args.denoise := false;
  Args.post_process := false;
  Args.deinterlace := false;
  Args.ivtc := false;
  Args.crop := None;
  Args.scale := None;
  Args.display_aspect := None;
  Args.pixel_aspect := None;
  Args.display_size := None;
  Args.hardsub := false;
  Args.no_subtitles := false;
  Args.no_nice := false;
  Args.no_attachments := false
|}.

(** *** AAC encoders *)

(** The encoders [get_encode_aac_command] looks for, in its order. *)
Definition aac_encoders : list pystr :=
  [L "fdkaac"; L "neroAacEnc"; L "faac"].

(** *** What an extraction starts with *)

(** A computation that, after the events [pre], starts the program
    [tool] as its first process, whatever becomes of it. *)
Definition starts_tool {A} (tool : pystr) (pre : list event) (c : M A)
  : Prop :=
  forall s, exists args post,
    trace (snd (c s))
    = trace s ++ pre ++ Launch (launched s) (tool :: args) :: post.

(** *** The script *)

(** [exit_status = main()]: the value of the call, whether [main] ran to
    its end or returned early; an exception passes through. *)
Definition call_main (w : world) (a : Args.t) : M Z :=
  fun s =>
    match main w a s with
    | (Returned z, s') => (Done z, s')
    | r => r
    end.

(** Lines 834-838: [main] is called, a status other than 0 is reported,
    and [sys.exit] makes the status that of the process. *)
Definition script (w : world) (a : Args.t) : M Z :=
  (exit_status <- call_main w a ;;
   (if negb (exit_status =? 0) then print [L "Exiting with failure ..."]
    else ret tt) ;;
   ret exit_status)%monad.

(** The exit status and the events of a run of the script. *)
Definition script_run (w : world) (a : Args.t) : Z * list event :=
  let (o, s) := script w a initial in (exit_code o, trace s).

(** *** The limit of the conversions *)

(** The longest run of digits in a text. *)
Fixpoint digit_runs (cur best : nat) (s : pystr) : nat :=
  match s with
  | [] => Nat.max cur best
  | c :: s' =>
      if Py.is_digit c then digit_runs (S cur) best s'
      else digit_runs 0 (Nat.max cur best) s'
  end.

Definition longest_digit_run (s : pystr) : nat := digit_runs 0 0 s.

(** * Properties *)

(** ** The pipe transcoder *)

Section TranscodeFacts.
Variable w : world.
Variables dec_cmd enc_cmd : list pystr.

(** What [transcode] does from a state [s], when both processes can be
    started: the decoder is number [launched s], the encoder the next. *)
Lemma transcode_run (s : state) :
  spawns w (launched s) = true ->
  spawns w (S (launched s)) = true ->
  let d := launched s in
  let e := S d in
  let started :=
    trace s ++ [Launch d dec_cmd; Launch e enc_cmd; CloseStdout d; Wait d] in
  transcode w dec_cmd enc_cmd s =
    if negb (exit_status w d =? 0) then
      (Raised decoding_error, {| trace := started; launched := S e |})
    else if negb (exit_status w e =? 0) then
      (Raised encoding_error,
       {| trace := started ++ [Wait e]; launched := S e |})
    else (Done tt, {| trace := started ++ [Wait e]; launched := S e |}).
Proof.
  intros Hd He d e started.
  unfold transcode, bind, Subprocess.Popen, Subprocess.wait, emit, ret, raise,
    bind.
  cbn.
  rewrite Hd. cbn. rewrite He. cbn.
  subst started d e.
  repeat rewrite <- app_assoc. cbn.
  destruct (exit_status w (launched s) =? 0); cbn; [| reflexivity].
  destruct (exit_status w (S (launched s)) =? 0); cbn;
    repeat rewrite <- app_assoc; reflexivity.
Qed.
End TranscodeFacts.

(** C2, as stated, fails: when the decoder exits with status 1 the encoder
    is never waited for, although it was started. *)
Lemma transcode_leaves_encoder_unwaited :
  let r := transcode decoder_fails [L "dec"] [L "enc"] initial in
  fst r = Raised decoding_error
  /\ In (Launch 1 [L "enc"]) (trace (snd r))
  /\ ~ In (Wait 1) (trace (snd r)).
Proof.
  vm_compute. repeat split.
  - right. left. reflexivity.
  - intros H. repeat (destruct H as [H | H]; [discriminate H |]). exact H.
Qed.

(** C2, amended: [transcode] waits for the decoder first; a non-zero
    decoder status raises the decoding error at once, without a wait for
    the encoder; otherwise the encoder is waited for and a non-zero status
    raises the encoding error.  It succeeds exactly when both statuses are
    zero. *)
Theorem transcode_statuses (w : world) (dec_cmd enc_cmd : list pystr)
    (s : state) :
  spawns w (launched s) = true ->
  spawns w (S (launched s)) = true ->
  let d := launched s in
  let e := S d in
  let r := transcode w dec_cmd enc_cmd s in
  (fst r = Done tt <-> exit_status w d = 0 /\ exit_status w e = 0)
  /\ (exit_status w d <> 0 ->
      fst r = Raised decoding_error
      /\ trace (snd r) =
           trace s ++ [Launch d dec_cmd; Launch e enc_cmd; CloseStdout d; Wait d])
  /\ (exit_status w d = 0 ->
      trace (snd r) =
        trace s ++ [Launch d dec_cmd; Launch e enc_cmd; CloseStdout d; Wait d;
                    Wait e]
      /\ (exit_status w e <> 0 -> fst r = Raised encoding_error)).
Proof.
  intros Hd He d e r. subst r.
  rewrite (transcode_run w dec_cmd enc_cmd s Hd He). cbv zeta.
  fold d. fold e.
  destruct (Z.eqb_spec (exit_status w d) 0) as [Ed | Ed];
    destruct (Z.eqb_spec (exit_status w e) 0) as [Ee | Ee]; cbn;
    repeat rewrite <- app_assoc; cbn.
  all: repeat split; auto; intros;
    repeat match goal with
           | H : _ /\ _ |- _ => destruct H
           end;
    try congruence; try discriminate.
Qed.

Lemma transcode_statuses_witness :
  let w := decoder_fails in
  let r := transcode w [L "dec"] [L "enc"] initial in
  (fst r = Done tt <-> exit_status w 0%nat = 0 /\ exit_status w 1%nat = 0)
  /\ (exit_status w 0%nat <> 0 ->
      fst r = Raised decoding_error
      /\ trace (snd r) =
           [Launch 0 [L "dec"]; Launch 1 [L "enc"]; CloseStdout 0; Wait 0])
  /\ (exit_status w 0%nat = 0 ->
      trace (snd r) =
        [Launch 0 [L "dec"]; Launch 1 [L "enc"]; CloseStdout 0; Wait 0; Wait 1]
      /\ (exit_status w 1%nat <> 0 -> fst r = Raised encoding_error)).
Proof.
  exact (transcode_statuses decoder_fails [L "dec"] [L "enc"] initial
           eq_refl eq_refl).
Defined.

(** ** The encoder builders *)

Section EncoderFacts.
Variable w : world.
Variables (out_path : pystr) (dimensions : Z * Z).
Variables (framerate sar : Fraction.t) (quality bitrate : option num).
Variable speed : option Z.

Lemma pass_assertions_both (p : Z) (sp : pystr) :
  pass_assertions (Some p) (Some sp) = Raise AssertionError.
Proof. reflexivity. Qed.

Lemma pass_assertions_single : pass_assertions None None = Ok tt.
Proof. reflexivity. Qed.

(** The pass arguments the bodies of the builders compute, once the
    assertions are out of the way: pass 1 writes to the null device and
    names the statistics file, pass 2 writes the output and names the
    same file. *)
Lemma vpx_pass_args_two_pass (sp : pystr) :
  vpx_pass_args out_path (Some 1) (Some sp) =
    Ok [L "--output=/dev/null"; L "--passes=2"; L "--pass=1";
        L "--fpf=" ++ sp; L "--auto-alt-ref=1"]
  /\ vpx_pass_args out_path (Some 2) (Some sp) =
    Ok [L "--output=" ++ out_path; L "--passes=2"; L "--pass=2";
        L "--fpf=" ++ sp; L "--auto-alt-ref=1"].
Proof. split; reflexivity. Qed.

Lemma encode_av1_body_two_pass (sp : pystr) :
  quality = None -> bitrate = None ->
  let common :=
    [L "SvtAv1EncApp"; L "-i"; L "stdin"; L "-w"; str (fst dimensions);
     L "-h"; str (snd dimensions);
     L "--fps-num"; str (Fraction.numerator framerate);
     L "--fps-denom"; str (Fraction.denominator framerate);
     L "--preset"; @str _ Str_opt_int speed] in
  encode_av1_body w out_path dimensions framerate quality bitrate speed
    (Some 1) (Some sp) =
    Ok (common ++ [L "-b"; L "/dev/null"; L "--irefresh-type"; L "2";
                   L "--pass"; L "1"; L "--stat-file"; sp])
  /\ encode_av1_body w out_path dimensions framerate quality bitrate speed
    (Some 2) (Some sp) =
    Ok (common ++ [L "-b"; out_path; L "--irefresh-type"; L "2";
                   L "--pass"; L "2"; L "--stat-file"; sp]).
Proof. intros -> ->. split; reflexivity. Qed.

(** With both a quality and a bitrate, [get_encode_vp8_command] keeps the
    three flags. *)
Lemma vp8_qual_args_combined (q b : num) :
  vp8_qual_args w (Some q) (Some b) =
    (lvl <- scaled_level (Float.of_Z 63) (Float.of_ratio 63 10) q ;;
     Ok [L "--end-usage=cq"; L "--cq-level=" ++ lvl;
         L "--target-bitrate=" ++ @str _ (Str_num w) b])%result.
Proof.
  unfold vp8_qual_args.
  destruct (scaled_level _ _ q); reflexivity.
Qed.

(** [get_encode_vp9_command] keeps only the last assignment. *)
Lemma vp9_qual_args_combined (q b : num) :
  vp9_qual_args w (Some q) (Some b) =
    (lvl <- scaled_level (Float.of_Z 63) (Float.of_ratio 63 10) q ;;
     Ok [L "--target-bitrate=" ++ @str _ (Str_num w) b])%result.
Proof.
  unfold vp9_qual_args.
  destruct (scaled_level _ _ q); reflexivity.
Qed.
End EncoderFacts.

(** C1: a pass number together with a statistics path, the way [main] calls
    the builders for two-pass encoding, trips the first assertion of every
    video builder. *)
Theorem two_pass_call_raises (w : world) (out_path : pystr)
    (dimensions : Z * Z) (framerate sar : Fraction.t)
    (quality bitrate : option num) (speed : option Z) (cur_pass : Z)
    (stat_path : pystr) :
  get_encode_av1_command w out_path dimensions framerate quality bitrate speed
    (Some cur_pass) (Some stat_path) = Raise AssertionError
  /\ get_encode_h264_command w out_path dimensions framerate sar quality
       bitrate speed (Some cur_pass) (Some stat_path) = Raise AssertionError
  /\ get_encode_vp9_command w out_path dimensions framerate quality bitrate
       speed (Some cur_pass) (Some stat_path) = Raise AssertionError
  /\ get_encode_vp8_command w out_path dimensions framerate quality bitrate
       speed (Some cur_pass) (Some stat_path) = Raise AssertionError.
Proof. repeat split; reflexivity. Qed.

(** C5: at quality 5.0 and bitrate 1000 the command of
    [get_encode_vp9_command] carries the bitrate flag alone: neither the
    constrained-quality end-usage flag nor a cq-level flag is left. *)
Theorem vp9_combined_mode_lost (w : world) :
  get_encode_vp9_command w (L "video.ivf") (1920, 1080)
    {| Fraction.numerator := 24000; Fraction.denominator := 1001 |}
    (Some (Flt (Float.of_Z 5))) (Some (Int 1000)) (Some 1) None None
  = Ok [L "vpxenc"; L "--codec=vp9"; L "--threads=" ++ str (cpu_count w);
        L "--output=video.ivf"; L "--passes=1"; L "--ivf"; L "--width=1920";
        L "--height=1080"; L "--fps=24000/1001"; L "--target-bitrate=1000";
        L "--good"; L "-"].
Proof. reflexivity. Qed.

(** The sibling builder, at the same input, reflects all three. *)
Lemma vp8_combined_mode_kept (w : world) :
  get_encode_vp8_command w (L "video.ivf") (1920, 1080)
    {| Fraction.numerator := 24000; Fraction.denominator := 1001 |}
    (Some (Flt (Float.of_Z 5))) (Some (Int 1000)) (Some 1) None None
  = Ok [L "vpxenc"; L "--codec=vp8"; L "--threads=" ++ str (cpu_count w);
        L "--output=video.ivf"; L "--passes=1"; L "--ivf"; L "--width=1920";
        L "--height=1080"; L "--fps=24000/1001"; L "--end-usage=cq";
        L "--cq-level=32"; L "--target-bitrate=1000"; L "--good"; L "-"].
Proof. reflexivity. Qed.

(** ** Decimal numerals *)

Lemma string_of_uint_digits (d : Decimal.uint) :
  Forall (fun c => Py.is_digit c = true)
         (list_ascii_of_string (NilEmpty.string_of_uint d)).
Proof.
  induction d; cbn; constructor; auto.
Qed.

Lemma nilzero_string_of_uint_digits (d : Decimal.uint) :
  Forall (fun c => Py.is_digit c = true)
         (list_ascii_of_string (NilZero.string_of_uint d)).
Proof.
  destruct d; try apply string_of_uint_digits.
  cbn. constructor; auto.
Qed.

Lemma nilzero_string_of_uint_nonempty (d : Decimal.uint) :
  list_ascii_of_string (NilZero.string_of_uint d) <> [].
Proof. destruct d; cbn; discriminate. Qed.

Lemma str_int_chars (z : Z) : Forall digit_or_minus (Py.str_int z).
Proof.
  unfold Py.str_int, NilZero.string_of_int.
  destruct (Z.to_int z) as [d | d]; cbn.
  - eapply Forall_impl; [| apply nilzero_string_of_uint_digits].
    intros c H. left. exact H.
  - constructor; [right; reflexivity |].
    eapply Forall_impl; [| apply nilzero_string_of_uint_digits].
    intros c H. left. exact H.
Qed.

Lemma str_int_nonneg_digits (z : Z) :
  0 <= z -> Forall (fun c => Py.is_digit c = true) (Py.str_int z).
Proof.
  intros Hz. unfold Py.str_int, NilZero.string_of_int.
  destruct z as [| p | p]; cbn; try lia.
  - constructor; auto.
  - apply nilzero_string_of_uint_digits.
Qed.

Lemma str_int_nonempty (z : Z) : Py.str_int z <> [].
Proof.
  unfold Py.str_int, NilZero.string_of_int.
  destruct (Z.to_int z); cbn; try discriminate.
  apply nilzero_string_of_uint_nonempty.
Qed.

(** ** The filter chain of the decode command *)

Lemma comma_free_app (a b : pystr) :
  comma_free a -> comma_free b -> comma_free (a ++ b).
Proof. intros Ha Hb. apply Forall_app; split; assumption. Qed.

Lemma digit_not_comma (c : ascii) : digit_or_minus c -> c <> comma.
Proof.
  intros [H | H] E; subst c; [discriminate H | discriminate E].
Qed.

Lemma str_int_comma_free (z : Z) : comma_free (Py.str_int z).
Proof.
  eapply Forall_impl; [| apply str_int_chars].
  intros c. apply digit_not_comma.
Qed.

Lemma join_comma_free (sep : pystr) (parts : list pystr) :
  comma_free sep -> Forall comma_free parts -> comma_free (Py.join sep parts).
Proof.
  intros Hsep Hparts.
  induction Hparts as [| p rest Hp Hrest IH]; cbn.
  - constructor.
  - destruct rest as [| q rest']; [exact Hp |].
    apply comma_free_app; [exact Hp |].
    apply comma_free_app; [exact Hsep | exact IH].
Qed.

Lemma join_ints_comma_free (sep : pystr) (xs : list Z) :
  comma_free sep -> comma_free (AVExtractor.join_ints sep xs).
Proof.
  intros Hsep. apply join_comma_free; [exact Hsep |].
  apply Forall_forall. intros s Hs.
  apply in_map_iff in Hs. destruct Hs as [z [<- _]].
  apply str_int_comma_free.
Qed.

Lemma split_on_nonempty (sep : ascii) (s : pystr) : split_on sep s <> [].
Proof.
  destruct s as [| c s]; cbn; [discriminate |].
  destruct (Ascii.eqb c sep); [discriminate |].
  destruct (split_on sep s); discriminate.
Qed.

Lemma split_on_comma_free (s : pystr) :
  comma_free s -> split_on comma s = [s].
Proof.
  induction 1 as [| c s Hc Hs IH]; cbn; [reflexivity |].
  destruct (Ascii.eqb_spec c comma) as [E | _]; [contradiction |].
  rewrite IH. reflexivity.
Qed.

Lemma split_on_stage (st rest : pystr) :
  comma_free st -> split_on comma (st ++ comma :: rest) = st :: split_on comma rest.
Proof.
  induction 1 as [| c s Hc Hs IH]; cbn.
  - reflexivity.
  - destruct (Ascii.eqb_spec c comma) as [E | _]; [contradiction |].
    rewrite IH. reflexivity.
Qed.

(** Splitting undoes joining with commas. *)
Lemma stages_join (sts : list pystr) :
  sts <> [] -> Forall comma_free sts -> stages (Py.join [comma] sts) = sts.
Proof.
  intros Hne Hall. unfold stages. fold comma.
  induction Hall as [| st rest Hst Hrest IH]; [contradiction |].
  destruct rest as [| st' rest'].
  - cbn. apply split_on_comma_free. exact Hst.
  - change (Py.join [comma] (st :: st' :: rest'))
      with (st ++ [comma] ++ Py.join [comma] (st' :: rest')).
    change (st ++ [comma] ++ Py.join [comma] (st' :: rest'))
      with (st ++ comma :: Py.join [comma] (st' :: rest')).
    rewrite (split_on_stage st _ Hst).
    rewrite IH by discriminate. reflexivity.
Qed.

Section DecodeFilters.
Variables denoise pp : bool.
Variables scale crop : option (list Z).
Variables deint ivtc : bool.

(** The stages as the code writes them: the telecine stage without a
    crop is followed by a stage with no name. *)
Let written : list pystr :=
  [L "format=i420"]
  ++ (if ivtc then
        match crop with
        | None => [L "filmdint=fast=0"; []]
        | Some c =>
            [L "filmdint=fast=0/crop=" ++ AVExtractor.join_ints (L ":") c]
        end
      else [])
  ++ (if deint then [L "yadif=1"] else [])
  ++ match crop with
     | Some c =>
         if ivtc then [] else [L "crop=" ++ AVExtractor.join_ints (L ":") c]
     | None => []
     end
  ++ match scale with
     | Some sc => [L "scale=" ++ AVExtractor.join_ints (L ":") sc]
     | None => []
     end
  ++ (if pp then [L "pp=ha/va/dr"] else [])
  ++ (if denoise then [L "hqdn3d"] else [])
  ++ [L "harddup"].

Lemma literal_comma_free (s : string) :
  forallb (fun c => negb (Ascii.eqb c comma)) (L s) = true ->
  comma_free (L s).
Proof.
  intros H. apply Forall_forall. intros c Hc E. subst c.
  rewrite forallb_forall in H. specialize (H _ Hc).
  rewrite Ascii.eqb_refl in H. discriminate H.
Qed.

Lemma colon_comma_free : comma_free (L ":").
Proof. apply literal_comma_free. reflexivity. Qed.

Lemma written_comma_free : Forall comma_free written.
Proof.
  unfold written.
  repeat (apply Forall_app; split);
    repeat match goal with
           | |- Forall _ (if ?b then _ else _) => destruct b
           | |- Forall _ (match ?o with Some _ => _ | None => _ end) =>
               destruct o
           | |- Forall _ [] => constructor
           | |- Forall _ (_ :: _) => constructor
           | |- comma_free (L _ ++ _) => apply comma_free_app
           | |- comma_free (AVExtractor.join_ints _ _) =>
               apply join_ints_comma_free; apply colon_comma_free
           | |- comma_free (L _) => apply literal_comma_free; reflexivity
           | |- comma_free [] => constructor
           end.
Qed.

Lemma filters_written :
  AVExtractor.filters denoise pp scale crop deint ivtc
  = Py.join [comma] written.
Proof.
  unfold AVExtractor.filters, written.
  destruct ivtc, deint, pp, denoise, crop as [c |], scale as [sc |];
    cbn; repeat rewrite <- app_assoc; cbn; reflexivity.
Qed.

Lemma stages_filters :
  stages (AVExtractor.filters denoise pp scale crop deint ivtc) = written.
Proof.
  rewrite filters_written. apply stages_join.
  - unfold written. discriminate.
  - apply written_comma_free.
Qed.

Lemma named_written :
  filter (fun st => negb (is_empty st)) written
  = requested_stages denoise pp scale crop deint ivtc.
Proof.
  unfold written, requested_stages.
  destruct ivtc, deint, pp, denoise, crop as [c |], scale as [sc |];
    reflexivity.
Qed.

Lemma written_first_last :
  hd [] written = L "format=i420" /\ last written [] = L "harddup".
Proof.
  unfold written.
  destruct ivtc, deint, pp, denoise, crop as [c |], scale as [sc |];
    split; reflexivity.
Qed.

Lemma no_crop_stage_with_ivtc :
  ivtc = true ->
  forall st, In st written -> Py.is_prefix (L "crop=") st = false.
Proof.
  intros E st. unfold written. rewrite E.
  destruct deint, pp, denoise, crop as [c |], scale as [sc |];
    cbn; intros H;
    repeat (destruct H as [H | H]; [subst st; reflexivity |]);
    contradiction.
Qed.
End DecodeFilters.

(** What the old statement of the chain says: the stages that name a
    filter are the requested ones. *)
Lemma named_stages_requested (denoise pp : bool) (scale crop : option (list Z))
    (deint ivtc : bool) :
  named_stages (AVExtractor.filters denoise pp scale crop deint ivtc)
  = requested_stages denoise pp scale crop deint ivtc.
Proof. unfold named_stages. rewrite stages_filters. apply named_written. Qed.

(** The one place where the written chain differs from the requested one. *)
Example telecine_without_crop_chain :
  AVExtractor.filters false false None None false true
  = L "format=i420,filmdint=fast=0,,harddup".
Proof. reflexivity. Qed.

(** C8: [get_decode_video_command] passes to [-vf] a chain whose
    comma-separated stages are exactly the requested stages in the fixed
    order (pixel format first, duplication last, no crop stage of its own
    with inverse telecine, whose stage carries the crop), with one
    exception: with inverse telecine and no crop the chain has an empty
    stage right after the telecine stage, from the comma that ends the
    text appended for it.  The rate after [-ofps] is 24000/1001 with
    inverse telecine whatever rate was forced, and the forced rate as
    given otherwise.  The call with inverse telecine alone shows the
    empty stage. *)
Theorem decode_filter_chain :
  (forall (self : AVExtractor.t) (denoise pp : bool)
          (scale crop : option (list Z)) (deint ivtc : bool)
          (force_rate : option (list Z)) (hardsub : bool),
     let requested := requested_stages denoise pp scale crop deint ivtc in
     exists chain,
       AVExtractor.get_decode_video_command self denoise pp scale crop deint
         ivtc force_rate hardsub
       = [L "mencoder"; L "-quiet"; L "-really-quiet"; L "-sws"; L "9";
          L "-vf"; chain]
         ++ (if ivtc then [L "-ofps"; L "24000/1001"]
             else match force_rate with
                  | Some r => [L "-ofps"; Py.join (L "/") (map Py.str_int r)]
                  | None => []
                  end)
         ++ [L "-ovc"; L "raw"; L "-of"; L "rawvideo"; L "-o"; L "-"]
         ++ AVExtractor.mplayer_input_args self ++ [L "-nosound"]
         ++ AVExtractor.hardsub_opt hardsub
       /\ stages chain
          = (if ivtc
             then match crop with
                  | None => firstn 2 requested ++ [] :: skipn 2 requested
                  | Some _ => requested
                  end
             else requested)
       /\ hd [] (stages chain) = L "format=i420"
       /\ last (stages chain) [] = L "harddup"
       /\ (if ivtc
           then forall st, In st (stages chain) ->
                           Py.is_prefix (L "crop=") st = false
           else True))
  /\ AVExtractor.get_decode_video_command avi_extractor false false None None
       false true None false
     = [L "mencoder"; L "-quiet"; L "-really-quiet"; L "-sws"; L "9"; L "-vf";
        L "format=i420,filmdint=fast=0,,harddup"; L "-ofps"; L "24000/1001";
        L "-ovc"; L "raw"; L "-of"; L "rawvideo"; L "-o"; L "-"; L "in.avi";
        L "-nosound"; L "-nosub"]
  /\ stages (L "format=i420,filmdint=fast=0,,harddup")
     = [L "format=i420"; L "filmdint=fast=0"; []; L "harddup"]
  /\ requested_stages false false None None false true
     = [L "format=i420"; L "filmdint=fast=0"; L "harddup"].
Proof.
  split; [| repeat split; reflexivity].
  intros self denoise pp scale crop deint ivtc force_rate hardsub requested.
  exists (AVExtractor.filters denoise pp scale crop deint ivtc).
  split.
  { unfold AVExtractor.get_decode_video_command, AVExtractor.ofps.
    destruct ivtc; reflexivity. }
  rewrite stages_filters. subst requested.
  split.
  { unfold requested_stages.
    destruct ivtc, deint, pp, denoise, crop as [c |], scale as [sc |];
      reflexivity. }
  split; [apply written_first_last |].
  split; [apply written_first_last |].
  destruct ivtc; [| exact I].
  apply (no_crop_stage_with_ivtc denoise pp scale crop deint true eq_refl).
Qed.

(** ** Runs of [main] *)

Lemma pystr_eqb_eq (a b : pystr) : pystr_eqb a b = true <-> a = b.
Proof.
  unfold pystr_eqb. destruct (list_eq_dec ascii_dec a b); split; intros H;
    try reflexivity; try assumption; try discriminate; contradiction.
Qed.

Lemma pystr_eqb_refl (a : pystr) : pystr_eqb a a = true.
Proof. apply pystr_eqb_eq. reflexivity. Qed.

Section Tame.
Context {A B : Type}.

Lemma tame_ret (a : A) : tame (ret a).
Proof.
  intros s. cbn. split; [exists []; rewrite app_nil_r; reflexivity |].
  split; [lia | exact I].
Qed.

Lemma tame_raise (e : exn) : tame (@raise A e).
Proof.
  intros s. cbn. split; [exists []; rewrite app_nil_r; reflexivity |].
  split; [lia | exact I].
Qed.

Lemma tame_return_1 : tame (@return_ A 1).
Proof.
  intros s. cbn. split; [exists []; rewrite app_nil_r; reflexivity |].
  split; [lia | reflexivity].
Qed.

Lemma tame_lift (r : result A) : tame (lift r).
Proof. destruct r; [apply tame_ret | apply tame_raise]. Qed.

Lemma tame_bind (c : M A) (k : A -> M B) :
  tame c -> (forall a, tame (k a)) -> tame (bind c k).
Proof.
  intros Hc Hk s. unfold bind.
  destruct (Hc s) as [[t Ht] [Hl Hr]].
  destruct (c s) as [[a | e | z] s'] eqn:E; cbn in *.
  - destruct (Hk a s') as [[t' Ht'] [Hl' Hr']].
    split; [exists (t ++ t'); rewrite Ht', Ht, app_assoc; reflexivity |].
    split; [lia | exact Hr'].
  - split; [exists t; exact Ht |]. split; [exact Hl | exact I].
  - split; [exists t; exact Ht |]. split; [exact Hl | exact Hr].
Qed.

Lemma never_done_bind_l (c : M A) (k : A -> M B) :
  never_done c -> never_done (bind c k).
Proof.
  intros Hc s. unfold bind. specialize (Hc s).
  destruct (c s) as [[a | e | z] s']; cbn in *; [contradiction | exact I | exact Hc].
Qed.

Lemma never_done_bind_r (c : M A) (k : A -> M B) :
  tame c -> (forall a, never_done (k a)) -> never_done (bind c k).
Proof.
  intros Hc Hk s. unfold bind.
  destruct (Hc s) as [_ [_ Hr]].
  destruct (c s) as [[a | e | z] s']; cbn in *; [apply Hk | exact I | exact Hr].
Qed.

Lemma never_done_raise (e : exn) : never_done (@raise A e).
Proof. intros s. exact I. Qed.

(** An event that is in the trace stays there. *)
Lemma tame_keeps (c : M A) (s : state) (e : event) :
  tame c -> In e (trace s) -> In e (trace (snd (c s))).
Proof.
  intros Hc He. destruct (Hc s) as [[t Ht] _]. rewrite Ht.
  apply in_or_app. left. exact He.
Qed.

End Tame.

Lemma bind_keeps {A B} (c : M A) (k : A -> M B) (s : state) (e : event) :
  (forall a, tame (k a)) ->
  In e (trace (snd (c s))) -> In e (trace (snd (bind c k s))).
Proof.
  intros Hk He. unfold bind.
  destruct (c s) as [[a | x | z] s']; cbn in *; try exact He.
  apply tame_keeps; [apply Hk | exact He].
Qed.

Lemma tame_emit (e : event) : tame (emit e).
Proof.
  intros s. cbn. split; [exists [e]; reflexivity |]. split; [lia | exact I].
Qed.

Lemma tame_print_end (args : list pystr) (end_ : pystr) :
  tame (print_end args end_).
Proof. apply tame_emit. Qed.

Lemma tame_print (args : list pystr) : tame (print args).
Proof. apply tame_emit. Qed.

Lemma tame_Popen (w : world) (cmd : list pystr) : tame (Subprocess.Popen w cmd).
Proof.
  intros s. unfold Subprocess.Popen.
  destruct (spawns w (launched s)); cbn;
    (split; [eexists; reflexivity |]); (split; [lia | exact I]).
Qed.

Create HintDb tame.
#[export] Hint Resolve tame_ret tame_raise tame_return_1 tame_lift tame_emit
  tame_print_end tame_print tame_Popen : tame.

(** Tameness follows the structure of a computation. *)
Ltac tame_step :=
  match goal with
  | |- tame (bind _ _) => apply tame_bind; [| intros ?]
  | |- tame (if ?b then _ else _) => destruct b
  | |- tame (match ?x with _ => _ end) => destruct x
  | |- tame _ => solve [auto with tame]
  end.

Ltac tame := repeat tame_step.

Section TameProcesses.
Variable w : world.

Lemma tame_wait (pid : nat) : tame (Subprocess.wait w pid).
Proof. unfold Subprocess.wait. tame. Qed.

Lemma tame_check_call (cmd : list pystr) : tame (Subprocess.check_call w cmd).
Proof. unfold Subprocess.check_call. pose proof tame_wait. tame. Qed.

Lemma tame_check_output (cmd : list pystr) :
  tame (Subprocess.check_output w cmd).
Proof. unfold Subprocess.check_output. pose proof tame_wait. tame. Qed.

Lemma tame_transcode (dec_cmd enc_cmd : list pystr) :
  tame (transcode w dec_cmd enc_cmd).
Proof. unfold transcode. pose proof tame_wait. tame. Qed.
End TameProcesses.

#[export] Hint Resolve tame_wait tame_check_call tame_check_output
  tame_transcode : tame.

Section TameStages.
Variable w : world.

Lemma tame_init path disc_type disc_title chap_start chap_end maid msid :
  tame (AVExtractor.__init__ w path disc_type disc_title chap_start chap_end
          maid msid).
Proof. unfold AVExtractor.__init__. tame. Qed.

Lemma tame_extract_chapters self filename :
  tame (AVExtractor.extract_chapters w self filename).
Proof. unfold AVExtractor.extract_chapters. tame. Qed.

Lemma tame_extract_attachments self directory :
  tame (AVExtractor.extract_attachments w self directory).
Proof. unfold AVExtractor.extract_attachments. tame. Qed.

Lemma tame_extract_subtitles self filename :
  tame (AVExtractor.extract_subtitles w self filename).
Proof. unfold AVExtractor.extract_subtitles. tame. Qed.

Lemma tame_extract_audio self filename :
  tame (AVExtractor.extract_audio w self filename).
Proof. unfold AVExtractor.extract_audio. tame. Qed.

Lemma tame_mux_matroska_mkv out_path title chapters attachments vid_file
    vid_aspect vid_pixaspect vid_displaysize aud_file sub_file vid_lang
    aud_lang sub_lang :
  tame (mux_matroska_mkv w out_path title chapters attachments vid_file
          vid_aspect vid_pixaspect vid_displaysize aud_file sub_file vid_lang
          aud_lang sub_lang).
Proof. unfold mux_matroska_mkv. tame. Qed.

Lemma tame_mux_mp4 out_path chapters vid_file vid_pixaspect aud_file vid_lang
    aud_lang :
  tame (mux_mp4 w out_path chapters vid_file vid_pixaspect aud_file vid_lang
          aud_lang).
Proof. unfold mux_mp4. tame. Qed.

Lemma tame_transcode_video label stats two_pass dec_cmd build :
  tame (transcode_video w label stats two_pass dec_cmd build).
Proof. unfold transcode_video. tame. Qed.

Hint Resolve tame_init tame_extract_chapters tame_extract_attachments
  tame_extract_subtitles tame_extract_audio tame_mux_matroska_mkv tame_mux_mp4
  tame_transcode_video : tame.

Lemma tame_check_bluray a : tame (check_bluray a).
Proof. unfold check_bluray. tame. Qed.

Lemma tame_determine_container a : tame (determine_container a).
Proof. unfold determine_container. tame. Qed.

Lemma tame_make_extractor a : tame (make_extractor w a).
Proof. unfold make_extractor. tame. Qed.

Lemma tame_chapters_stage a extractor out_container :
  tame (chapters_stage w a extractor out_container).
Proof. unfold chapters_stage. tame. Qed.

Lemma tame_attachments_stage a extractor out_container :
  tame (attachments_stage w a extractor out_container).
Proof. unfold attachments_stage. tame. Qed.

Lemma tame_subtitles_stage a extractor out_container :
  tame (subtitles_stage w a extractor out_container).
Proof. unfold subtitles_stage. tame. Qed.

Lemma tame_audio_encoder a : tame (audio_encoder w a).
Proof. unfold audio_encoder. tame. Qed.

Hint Resolve tame_audio_encoder : tame.

Lemma tame_audio_stage a extractor : tame (audio_stage w a extractor).
Proof. unfold audio_stage. tame. Qed.

Lemma tame_video_stage a extractor : tame (video_stage w a extractor).
Proof. unfold video_stage. tame. Qed.

Lemma tame_mux_stage a output out_container chapters_path attachments_path
    subtitles_path video_path audio_path :
  tame (mux_stage w a output out_container chapters_path attachments_path
          subtitles_path video_path audio_path).
Proof. unfold mux_stage. tame. Qed.

Hint Resolve tame_check_bluray tame_determine_container tame_make_extractor
  tame_chapters_stage tame_attachments_stage tame_subtitles_stage
  tame_audio_stage tame_video_stage tame_mux_stage : tame.

Lemma tame_process a extractor output out_container :
  tame (process w a extractor output out_container).
Proof. unfold process. tame. Qed.

Lemma tame_with_work_dir {A} (body : M A) :
  tame body -> tame (with_work_dir w body).
Proof.
  intros Hb s. unfold with_work_dir.
  assert (Hc : tame (bind (emit (Mkdir (work_dir w))) (fun _ => body)))
    by (apply tame_bind; [apply tame_emit | intros _; exact Hb]).
  destruct (Hc s) as [[t Ht] [Hl Hr]].
  destruct (bind (emit (Mkdir (work_dir w))) (fun _ => body) s) as [o s'].
  cbn in *. split; [| split; [exact Hl | exact Hr]].
  exists (t ++ [Rmtree (work_dir w)]). rewrite Ht, app_assoc. reflexivity.
Qed.

Lemma never_done_with_work_dir {A} (body : M A) :
  tame body -> never_done body -> never_done (with_work_dir w body).
Proof.
  intros Ht Hb s. unfold with_work_dir.
  assert (Hc : never_done (bind (emit (Mkdir (work_dir w))) (fun _ => body)))
    by (apply never_done_bind_r; [apply tame_emit | intros _; exact Hb]).
  specialize (Hc s).
  destruct (bind (emit (Mkdir (work_dir w))) (fun _ => body) s) as [o s'].
  exact Hc.
Qed.

Lemma tame_main a : tame (main w a).
Proof.
  unfold main. pose proof tame_process. pose proof (@tame_with_work_dir unit).
  tame.
Qed.
End TameStages.

(** *** The output container *)

Lemma choice_is_not_dotted (c : pystr) :
  Args.one_of c ["mkv"; "webm"; "mp4"]%string = true ->
  pystr_eqb c (L ".mkv") = false
  /\ pystr_eqb c (L ".webm") = false
  /\ pystr_eqb c (L ".mp4") = false.
Proof.
  unfold Args.one_of. cbn [existsb]. rewrite !orb_true_iff.
  intros [H | [H | [H | H]]]; try discriminate H;
    apply pystr_eqb_eq in H; subst c; repeat split; reflexivity.
Qed.

Lemma output_container_ignores_option (container : option pystr)
    (output : pystr) :
  match container with
  | None => true
  | Some c => Args.one_of c ["mkv"; "webm"; "mp4"]%string
  end = true ->
  output_container container output = output_container None output.
Proof.
  intros H. unfold output_container.
  destruct (OsPath.splitext output) as [prefix suffix].
  destruct container as [c |]; [| reflexivity].
  destruct (choice_is_not_dotted c H) as [E1 [E2 E3]].
  cbn [opt_eqb]. rewrite E1, E2, E3. reflexivity.
Qed.

Lemma parsed_container (a : Args.t) :
  Args.parsed a = true ->
  match Args.container a with
  | None => true
  | Some c => Args.one_of c ["mkv"; "webm"; "mp4"]%string
  end = true.
Proof.
  unfold Args.parsed. rewrite !andb_true_iff. tauto.
Qed.

Lemma run_without_container (w : world) (a : Args.t) :
  output_container (Args.container a) (Args.output a) = None ->
  fst (run_script w a) = 1
  /\ forall pid cmd, ~ In (Launch pid cmd) (snd (run_script w a)).
Proof.
  intros H. unfold run_script, main, bind, check_bluray, determine_container.
  rewrite H.
  destruct (Args.bluray a); [destruct (Args.size a), (Args.rate a) |]; cbn;
    (split; [reflexivity |]); intros pid cmd [E | E];
    try discriminate E; try contradiction;
    destruct E as [E | E]; try discriminate E; contradiction.
Qed.



(** *** Audio copy *)

Section AudioCopy.
Variable w : world.
Variable a : Args.t.
Hypothesis copy : Args.audio_codec a = L "copy".

Lemma audio_encoder_copy (s : state) :
  audio_encoder w a s = (Raised AssertionError, s).
Proof. unfold audio_encoder. rewrite copy. reflexivity. Qed.

Lemma never_done_audio_stage (extractor : AVExtractor.t) :
  never_done (audio_stage w a extractor).
Proof.
  unfold audio_stage. apply never_done_bind_l.
  intros s. rewrite audio_encoder_copy. exact I.
Qed.

Lemma never_done_process extractor output out_container :
  never_done (process w a extractor output out_container).
Proof.
  unfold process.
  apply never_done_bind_r; [auto with tame | intros _].
  apply never_done_bind_r; [apply tame_chapters_stage | intros chapters_path].
  apply never_done_bind_r;
    [apply tame_attachments_stage | intros attachments_path].
  apply never_done_bind_r; [apply tame_subtitles_stage | intros subtitles_path].
  apply never_done_bind_l. apply never_done_audio_stage.
Qed.

Lemma never_done_main : never_done (main w a).
Proof.
  unfold main.
  apply never_done_bind_r; [apply tame_check_bluray | intros _].
  apply never_done_bind_r; [apply tame_determine_container | intros [o c]].
  apply never_done_bind_r; [destruct (negb _); auto with tame | intros _].
  apply never_done_bind_r; [auto with tame | intros _].
  apply never_done_bind_r; [apply tame_make_extractor | intros extractor].
  apply never_done_bind_l. apply never_done_with_work_dir.
  - apply tame_process.
  - apply never_done_process.
Qed.

Lemma copy_run_fails : fst (run_script w a) = 1.
Proof.
  unfold run_script. pose proof (never_done_main initial) as H.
  destruct (main w a initial) as [[z | e | z] s]; cbn in *;
    [contradiction | reflexivity | exact H].
Qed.
End AudioCopy.

Lemma Popen_launches (w : world) (cmd : list pystr) (s : state) :
  In (Launch (launched s) cmd) (trace (snd (Subprocess.Popen w cmd s))).
Proof.
  unfold Subprocess.Popen. destruct (spawns w (launched s)); cbn;
    apply in_or_app; right; left; reflexivity.
Qed.

(** The construction of the extractor starts the probe, whatever follows. *)
Lemma init_launches_probe (w : world) path disc_type disc_title chap_start
    chap_end maid msid (s : state) :
  In (Launch (launched s)
        (AVExtractor.probe_command
           (AVExtractor.input_args path disc_type disc_title maid msid)))
     (trace (snd (AVExtractor.__init__ w path disc_type disc_title chap_start
                    chap_end maid msid s))).
Proof.
  unfold AVExtractor.__init__.
  apply bind_keeps; [intros out; tame |].
  unfold Subprocess.check_output.
  apply bind_keeps; [intros pid; pose proof (tame_wait w); tame |].
  apply Popen_launches.
Qed.

(** When [mplayer] can be started, the construction of the extractor
    waits for the probe. *)
Lemma init_waits_probe (w : world) path disc_type disc_title chap_start
    chap_end maid msid (s : state) :
  spawns w (launched s) = true ->
  In (Wait (launched s))
     (trace (snd (AVExtractor.__init__ w path disc_type disc_title chap_start
                    chap_end maid msid s))).
Proof.
  intros Hs. unfold AVExtractor.__init__.
  apply bind_keeps; [intros out; tame |].
  unfold Subprocess.check_output.
  unfold bind at 1. unfold Subprocess.Popen. rewrite Hs.
  apply bind_keeps; [intros rc; destruct (rc =? 0); tame |].
  unfold Subprocess.wait, bind, emit, ret. cbn.
  apply in_or_app. right. left. reflexivity.
Qed.

(** Past the two checks of the command line, what the construction of the
    extractor does as the first user of processes stays in the trace of
    the run. *)
Lemma main_keeps_probe (w : world) (a : Args.t) (e : event) :
  (Args.bluray a = true -> Args.size a <> None /\ Args.rate a <> None) ->
  output_container (Args.container a) (Args.output a) <> None ->
  (forall s, launched s = 0%nat ->
             In e (trace (snd (make_extractor w a s)))) ->
  In e (snd (run_script w a)).
Proof.
  intros Hb Hc He. unfold run_script.
  destruct (main w a initial) as [o s'] eqn:E. cbn [snd].
  change s' with (snd (o, s')). rewrite <- E. clear E o s'.
  unfold main.
  assert (Eb : forall s, check_bluray a s = (Done tt, s)).
  { intros s. unfold check_bluray.
    destruct (Args.bluray a); [| reflexivity].
    destruct (Hb eq_refl) as [Hs Hr].
    destruct (Args.size a); [| contradiction].
    destruct (Args.rate a); [reflexivity | contradiction]. }
  destruct (output_container (Args.container a) (Args.output a))
    as [[output out_container] |] eqn:Eo; [| contradiction].
  unfold bind at 1. rewrite Eb.
  unfold bind at 1. unfold determine_container. rewrite Eo. cbn [ret].
  set (k := fun extractor : AVExtractor.t => _).
  assert (Hk : forall x, tame (k x)).
  { intros x. subst k. pose proof (tame_process w).
    pose proof (@tame_with_work_dir w unit). cbv beta. tame. }
  assert (Hgo : forall s, launched s = 0%nat ->
            In e (trace (snd (bind (make_extractor w a) k s)))).
  { intros s Hs. apply bind_keeps; [exact Hk |]. apply He. exact Hs. }
  destruct (negb (Args.no_nice a)); cbn; apply Hgo; reflexivity.
Qed.

(** Past the two checks of the command line, [main] calls for the probe
    as its first process. *)
Lemma main_launches_probe (w : world) (a : Args.t) :
  (Args.bluray a = true -> Args.size a <> None /\ Args.rate a <> None) ->
  output_container (Args.container a) (Args.output a) <> None ->
  In (Launch 0 (probe_of a)) (snd (run_script w a)).
Proof.
  intros Hb Hc. apply main_keeps_probe; [exact Hb | exact Hc |].
  intros s Hs. unfold make_extractor, probe_of. rewrite <- Hs.
  apply init_launches_probe.
Qed.

(** If [mplayer] can be started, the probe has run and was waited for. *)
Lemma main_waits_probe (w : world) (a : Args.t) :
  (Args.bluray a = true -> Args.size a <> None /\ Args.rate a <> None) ->
  output_container (Args.container a) (Args.output a) <> None ->
  spawns w 0 = true ->
  In (Wait 0) (snd (run_script w a)).
Proof.
  intros Hb Hc Hs. apply main_keeps_probe; [exact Hb | exact Hc |].
  intros s E. unfold make_extractor. rewrite <- E.
  apply init_waits_probe. rewrite E. exact Hs.
Qed.

(** C7, as stated, fails: the run of
    [qtranscode -a copy -C 2 -o out.mkv in.avi] ends with status 1 only
    after [mplayer] was started on the input and waited for. *)
Lemma audio_copy_fails_after_probe :
  run_script avi_world copy_with_range
  = (1,
     [Nice 10;
      Print (L "==> Processing in.avi ..." ++ [nl]);
      Launch 0 [L "mplayer"; L "-nocorrect-pts"; L "-vc"; L ","; L "-vo";
                L "null"; L "-ac"; L "ffmp3,"; L "-ao"; L "null"; L "-endpos";
                L "1"; L "in.avi"];
      Wait 0;
      Mkdir (L "/tmp/qtranscode-0");
      Print (L "==> Created work directory: /tmp/qtranscode-0 ..." ++ [nl]);
      Rmtree (L "/tmp/qtranscode-0")]).
Proof. vm_compute. reflexivity. Qed.

(** C7, amended: a run that asks for audio codec [copy] together with a
    chapter range ends with status 1.  When the command line passes the
    Blu-ray and container checks it does so after the constructor of the
    extractor has called for the probe of the source (the event [Launch]
    records the call, whether or not the program could be started); and
    when [mplayer] can be started, the probe process has been started and
    waited for by then. *)
Theorem audio_copy_with_range (w : world) (a : Args.t) :
  Args.audio_codec a = L "copy" ->
  Args.start_chapter a <> None \/ Args.end_chapter a <> None ->
  fst (run_script w a) = 1
  /\ ((Args.bluray a = true -> Args.size a <> None /\ Args.rate a <> None) ->
      output_container (Args.container a) (Args.output a) <> None ->
      In (Launch 0 (probe_of a)) (snd (run_script w a))
      /\ (spawns w 0 = true -> In (Wait 0) (snd (run_script w a)))).
Proof.
  intros Hcopy _. split.
  - apply copy_run_fails. exact Hcopy.
  - intros Hb Hc. split.
    + apply main_launches_probe; assumption.
    + apply main_waits_probe; assumption.
Qed.

Lemma audio_copy_with_range_witness :
  fst (run_script avi_world copy_with_range) = 1
  /\ spawns avi_world 0 = true
  /\ In (Launch 0 (probe_of copy_with_range))
        (snd (run_script avi_world copy_with_range))
  /\ In (Wait 0) (snd (run_script avi_world copy_with_range)).
Proof.
  destruct (audio_copy_with_range avi_world copy_with_range eq_refl
              (or_introl (fun H => eq_ind (Some 2)
                            (fun o => match o with Some _ => True
                                               | None => False end)
                            I None H)))
    as [H1 H2].
  split; [exact H1 |]. split; [reflexivity |].
  destruct H2 as [H2 H3].
  - intros H. discriminate H.
  - intros H. discriminate H.
  - split; [exact H2 | apply H3; reflexivity].
Defined.

(** ** Fractions *)

Lemma make_spec (n d : Z) :
  d <> 0 ->
  exists f, Fraction.make n d = Ok f
            /\ lowest_terms f
            /\ Fraction.numerator f * d = n * Fraction.denominator f.
Proof.
  intros Hd. unfold Fraction.make.
  destruct (Z.eqb_spec d 0) as [E | _]; [contradiction |].
  set (g := Z.gcd n d).
  assert (Hg : 0 < g).
  { pose proof (Z.gcd_nonneg n d).
    assert (g <> 0) by (intros E; apply Z.gcd_eq_0_r in E; contradiction).
    subst g. lia. }
  destruct (Z.gcd_divide_l n d) as [n' Hn].
  destruct (Z.gcd_divide_r n d) as [d' Hd'].
  fold g in Hn, Hd'.
  assert (En : n / g = n') by (rewrite Hn; apply Z.div_mul; lia).
  assert (Ed : d / g = d') by (rewrite Hd'; apply Z.div_mul; lia).
  assert (Hco : Z.gcd n' d' = 1).
  { rewrite <- En, <- Ed. apply Z.gcd_div_gcd; [lia | reflexivity]. }
  eexists. split; [reflexivity |].
  unfold lowest_terms. cbn [Fraction.numerator Fraction.denominator].
  fold g.
  destruct (Z.ltb_spec d 0) as [Hneg | Hpos].
  - assert (En' : n / - g = - n').
    { rewrite Hn. replace (n' * g) with (- n' * - g) by ring.
      apply Z.div_mul. lia. }
    assert (Ed' : d / - g = - d').
    { rewrite Hd'. replace (d' * g) with (- d' * - g) by ring.
      apply Z.div_mul. lia. }
    rewrite En', Ed'. repeat split.
    + nia.
    + rewrite Z.gcd_opp_l, Z.gcd_opp_r. exact Hco.
    + nia.
  - rewrite En, Ed. repeat split.
    + nia.
    + exact Hco.
    + nia.
Qed.

Lemma to_Q_cross (f g : Fraction.t) (k : Z) :
  0 < Fraction.denominator f -> 0 < Fraction.denominator g ->
  Fraction.numerator f * Fraction.denominator g
  = k * Fraction.numerator g * Fraction.denominator f ->
  Fraction.to_Q f == inject_Z k * Fraction.to_Q g.
Proof.
  intros Hf Hg H. unfold Fraction.to_Q.
  destruct f as [fn fd], g as [gn gd]. cbn in *.
  destruct fd as [| fp | fp]; try lia.
  destruct gd as [| gp | gp]; try lia.
  unfold Qeq, Qdiv, Qmult, Qinv, inject_Z. cbn.
  rewrite !Z.mul_1_r. lia.
Qed.

Lemma mul_int_spec (f : Fraction.t) (k : Z) :
  lowest_terms f ->
  exists r, Fraction.mul_int f k = Ok r
            /\ lowest_terms r
            /\ Fraction.to_Q r == inject_Z k * Fraction.to_Q f.
Proof.
  intros [Hd Hg]. unfold Fraction.mul_int, Fraction.mul, Fraction.of_int.
  cbn [Fraction.numerator Fraction.denominator].
  destruct (make_spec (Fraction.numerator f * k) (Fraction.denominator f * 1))
    as [r [Er [Hr Hc]]]; [lia |].
  exists r. split; [exact Er |]. split; [exact Hr |].
  apply to_Q_cross; [apply Hr | exact Hd |]. lia.
Qed.

(** ** The rate handed to the video encoder *)

Lemma ntsc_film_rate :
  Fraction.make 24000 1001
  = Ok {| Fraction.numerator := 24000; Fraction.denominator := 1001 |}.
Proof. reflexivity. Qed.

(** The rate [main] computes is the base rate (24000/1001 with inverse
    telecine, else the forced rate, else the probed one), doubled when
    deinterlacing is requested and unchanged otherwise; where the base
    rate cannot be computed, neither can it. *)
Lemma final_rate_of_base (a : Args.t) (extractor : AVExtractor.t) :
  (forall f, AVExtractor.video_framerate extractor = Some f -> lowest_terms f) ->
  match base_rate a extractor with
  | Ok base =>
      (if Args.ivtc a
       then base = {| Fraction.numerator := 24000;
                      Fraction.denominator := 1001 |}
       else match Args.rate a with
            | Some (n, d) =>
                lowest_terms base
                /\ Fraction.numerator base * d = n * Fraction.denominator base
            | None => AVExtractor.video_framerate extractor = Some base
            end)
      /\ exists rate,
           final_rate a extractor = Ok rate
           /\ lowest_terms rate
           /\ (if Args.deinterlace a
               then Fraction.to_Q rate == 2 * Fraction.to_Q base
               else rate = base)
  | Raise e => final_rate a extractor = Raise e
  end.
Proof.
  intros Hprobe. unfold final_rate.
  destruct (base_rate a extractor) as [base | e] eqn:Eb; [| reflexivity].
  assert (Hbase :
    (if Args.ivtc a
     then base = {| Fraction.numerator := 24000; Fraction.denominator := 1001 |}
     else match Args.rate a with
          | Some (n, d) =>
              lowest_terms base
              /\ Fraction.numerator base * d = n * Fraction.denominator base
          | None => AVExtractor.video_framerate extractor = Some base
          end)
    /\ lowest_terms base).
  { unfold base_rate in Eb. destruct (Args.ivtc a).
    - rewrite ntsc_film_rate in Eb. injection Eb as <-.
      split; [reflexivity |]. split; [cbn; lia | reflexivity].
    - destruct (Args.rate a) as [[n d] |].
      + cbn [fst snd] in Eb.
        destruct (Z.eq_dec d 0) as [-> | Hd]; [discriminate Eb |].
        destruct (make_spec n d Hd) as [f [Ef [Hl Hc]]].
        rewrite Ef in Eb. injection Eb as <-. auto.
      + destruct (AVExtractor.video_framerate extractor) as [f |] eqn:Ef;
          [| discriminate Eb].
        injection Eb as <-. split; [reflexivity | apply Hprobe; reflexivity]. }
  destruct Hbase as [Hshape Hlow]. split; [exact Hshape |].
  cbn [rbind]. destruct (Args.deinterlace a).
  - destruct (mul_int_spec base 2 Hlow) as [r [Er [Hr Hq]]].
    exists r. split; [exact Er |]. split; [exact Hr | exact Hq].
  - exists base. split; [reflexivity |]. split; [exact Hlow | reflexivity].
Qed.

(** Past the three computations it starts with, [video_stage] is the
    chain of codec tests. *)
Lemma video_stage_computed (w : world) (a : Args.t)
    (extractor : AVExtractor.t) (dims : Z * Z) (sar rate : Fraction.t)
    (s : state) :
  final_dimensions a extractor = Ok dims ->
  sample_aspect a dims = Ok sar ->
  final_rate a extractor = Ok rate ->
  video_stage w a extractor s
  = (let dec_cmd :=
       AVExtractor.get_decode_video_command extractor (Args.denoise a)
         (Args.post_process a) (option_map pair_list (Args.scale a))
         (option_map quad_list (Args.crop a)) (Args.deinterlace a)
         (Args.ivtc a) (option_map pair_list (Args.rate a))
         (Args.hardsub a) in
     let quality := option_map Flt (Args.video_quality a) in
     let bitrate := option_map Flt (Args.video_bitrate a) in
     let speed := Some (Args.encoder_speed a) in
     let ivf := OsPath.join (work_dir w) (L "video.ivf") in
     let h264 := OsPath.join (work_dir w) (L "video.264") in
     if pystr_eqb (Args.video_codec a) (L "av1") then
       bind (transcode_video w (L "AV1") (L "av1_stats") (Args.two_pass a)
               dec_cmd
               (get_encode_av1_command w ivf dims rate quality bitrate speed))
            (fun _ => ret ivf)
     else if pystr_eqb (Args.video_codec a) (L "h264") then
       bind (transcode_video w (L "H264") (L "x264_stats") (Args.two_pass a)
               dec_cmd
               (get_encode_h264_command w h264 dims rate sar quality bitrate
                  speed))
            (fun _ => ret h264)
     else if pystr_eqb (Args.video_codec a) (L "vp9") then
       bind (transcode_video w (L "VP9") (L "vp9_stats") (Args.two_pass a)
               dec_cmd
               (get_encode_vp9_command w ivf dims rate quality bitrate speed))
            (fun _ => ret ivf)
     else if pystr_eqb (Args.video_codec a) (L "vp8") then
       bind (transcode_video w (L "VP8") (L "vp8_stats") (Args.two_pass a)
               dec_cmd
               (get_encode_vp8_command w ivf dims rate quality bitrate speed))
            (fun _ => ret ivf)
     else raise AssertionError) s.
Proof.
  intros Hd Hs Hr. unfold video_stage.
  unfold bind at 1. rewrite Hd. cbn [lift ret].
  unfold bind at 1. rewrite Hs. cbn [lift ret].
  unfold bind at 1. rewrite Hr. cbn [lift ret].
  reflexivity.
Qed.



(** ** Binary64 conversions *)

Section FloatFacts.


Lemma digits2_pos_bounds (p : positive) :
  2 ^ (Zpos (digits2_pos p) - 1) <= Zpos p < 2 ^ Zpos (digits2_pos p).
Proof.
  induction p as [p IH | p IH |]; cbn [digits2_pos].
  - rewrite Pos2Z.inj_succ.
    replace (Z.succ (Zpos (digits2_pos p)) - 1)
      with (Z.succ (Zpos (digits2_pos p) - 1)) by lia.
    rewrite !Z.pow_succ_r by lia. lia.
  - rewrite Pos2Z.inj_succ.
    replace (Z.succ (Zpos (digits2_pos p)) - 1)
      with (Z.succ (Zpos (digits2_pos p) - 1)) by lia.
    rewrite !Z.pow_succ_r by lia. lia.
  - cbn. lia.
Qed.

Lemma digits2_pos_le (p : positive) (k : Z) :
  0 <= k -> Zpos p < 2 ^ k -> Zpos (digits2_pos p) <= k.
Proof.
  intros Hk Hp. destruct (digits2_pos_bounds p) as [Hlo _].
  destruct (Z_le_gt_dec (Zpos (digits2_pos p)) k) as [H | H]; [exact H |].
  assert (2 ^ k <= 2 ^ (Zpos (digits2_pos p) - 1))
    by (apply Z.pow_le_mono_r; lia).
  lia.
Qed.

Lemma digits2_pos_shift (m k : positive) :
  digits2_pos (Pos.iter xO m k) = (digits2_pos m + k)%positive.
Proof.
  induction k as [| k IH] using Pos.peano_ind.
  - cbn. lia.
  - rewrite Pos.iter_succ. cbn [digits2_pos]. rewrite IH. lia.
Qed.

Lemma shift_value (m k : positive) :
  Zpos (Pos.iter xO m k) = Zpos m * 2 ^ Zpos k.
Proof.
  induction k as [| k IH] using Pos.peano_ind.
  - cbn. lia.
  - rewrite Pos.iter_succ, Pos2Z.inj_succ, Z.pow_succ_r by lia.
    rewrite Pos2Z.inj_xO, IH. ring.
Qed.

Lemma iter_pos_iter {A} (f : A -> A) (p : positive) (x : A) :
  iter_pos f p x = Pos.iter f x p.
Proof.
  revert x. induction p as [p IH | p IH |]; intros x; cbn.
  - rewrite !IH. rewrite <- Pos.iter_swap. rewrite <- Pos.iter_swap.
    reflexivity.
  - rewrite !IH. reflexivity.
  - reflexivity.
Qed.

(** Shifting out the zeros that a left shift put in is exact. *)
Lemma shr_shifted (m k : positive) :
  iter_pos shr_1 k
    {| shr_m := Zpos (Pos.iter xO m k); shr_r := false; shr_s := false |}
  = {| shr_m := Zpos m; shr_r := false; shr_s := false |}.
Proof.
  rewrite iter_pos_iter.
  induction k as [| k IH] using Pos.peano_ind.
  - reflexivity.
  - rewrite Pos.iter_succ, <- Pos.iter_swap.
    rewrite Pos.iter_succ. cbn [shr_1 orb]. exact IH.
Qed.

Lemma bounded_inv (m : positive) (e : Z) :
  bounded Float.prec Float.emax m e = true ->
  fexp Float.prec Float.emax (Zpos (digits2_pos m) + e) = e /\ e <= 971.
Proof.
  unfold bounded, canonical_mantissa. rewrite andb_true_iff.
  intros [H1 H2]. apply Z.eqb_eq in H1. apply Z.leb_le in H2.
  split; [exact H1 | exact H2].
Qed.

Lemma bounded_digits (m : positive) (e : Z) :
  bounded Float.prec Float.emax m e = true -> Zpos (digits2_pos m) <= 53.
Proof.
  intros H. destruct (bounded_inv m e H) as [Hf _].
  unfold fexp, emin, Float.prec, Float.emax in Hf. lia.
Qed.

(** Rounding a canonical mantissa changes nothing. *)
Lemma binary_round_aux_canonical (s : bool) (m : positive) (e : Z) :
  bounded Float.prec Float.emax m e = true ->
  binary_round_aux Float.prec Float.emax s (Zpos m) e loc_Exact = S754_finite s m e.
Proof.
  intros H. destruct (bounded_inv m e H) as [Hf He].
  unfold binary_round_aux, shr_fexp. cbn [Zdigits2 shr_record_of_loc].
  rewrite Hf, Z.sub_diag. cbn [shr shr_m loc_of_shr_record round_nearest_even].
  cbn [Zdigits2 shr_record_of_loc]. rewrite Hf, Z.sub_diag.
  cbn [shr shr_m].
  replace (e <=? Float.emax - Float.prec) with true; [reflexivity |].
  symmetry. apply Z.leb_le. unfold Float.emax, Float.prec. lia.
Qed.

(** An integer that is a float converts to that float. *)
Lemma binary_round_exact (s : bool) (m : positive) (e : Z) (p : positive) :
  bounded Float.prec Float.emax m e = true -> 0 <= e ->
  Zpos p = Zpos m * 2 ^ e ->
  binary_round Float.prec Float.emax s p 0 = S754_finite s m e.
Proof.
  intros H He Hp. destruct (bounded_inv m e H) as [Hf He'].
  destruct e as [| k | k]; try lia.
  - assert (p = m) by lia. subst p.
    unfold binary_round. rewrite Z.add_0_r in Hf |- *. rewrite Hf.
    cbn [shl_align Z.sub Z.add Z.opp].
    apply binary_round_aux_canonical. exact H.
  - assert (p = Pos.iter xO m k)
      by (apply Pos2Z.inj; rewrite shift_value; exact Hp).
    subst p. unfold binary_round.
    rewrite digits2_pos_shift, Pos2Z.inj_add, Z.add_0_r, Hf.
    cbn [shl_align Z.sub Z.add Z.opp].
    unfold binary_round_aux, shr_fexp. cbn [Zdigits2 shr_record_of_loc].
    rewrite digits2_pos_shift, Pos2Z.inj_add, Z.add_0_r, Hf, Z.sub_0_r.
    cbn [shr]. rewrite shr_shifted.
    cbn [shr_m loc_of_shr_record round_nearest_even Z.add].
    cbn [Zdigits2 shr_record_of_loc]. rewrite Hf, Z.sub_diag. cbn [shr shr_m].
    replace (Zpos k <=? Float.emax - Float.prec) with true; [reflexivity |].
    symmetry. apply Z.leb_le. unfold Float.emax, Float.prec. lia.
Qed.

(** An integer below [2^53] converts to a finite float. *)
Lemma binary_round_small (s : bool) (p : positive) :
  Zpos p < 2 ^ 53 ->
  exists m e, binary_round Float.prec Float.emax s p 0 = S754_finite s m e.
Proof.
  intros Hp. pose proof (digits2_pos_le p 53 ltac:(lia) Hp) as Hd.
  unfold binary_round. rewrite Z.add_0_r.
  assert (Hf : fexp Float.prec Float.emax (Zpos (digits2_pos p))
               = Zpos (digits2_pos p) - 53)
    by (unfold fexp, emin, Float.prec, Float.emax; lia).
  rewrite Hf. unfold shl_align. rewrite Z.sub_0_r.
  destruct (Zpos (digits2_pos p) - 53) as [| k | k] eqn:Ek; try lia.
  - exists p, 0. apply binary_round_aux_canonical.
    unfold bounded, canonical_mantissa. rewrite Z.add_0_r, Hf.
    reflexivity.
  - exists (Pos.iter xO p k), (Zneg k). apply binary_round_aux_canonical.
    unfold bounded, canonical_mantissa.
    rewrite digits2_pos_shift, Pos2Z.inj_add.
    apply andb_true_iff. split.
    + apply Z.eqb_eq. unfold fexp, emin, Float.prec, Float.emax. lia.
    + apply Z.leb_le. unfold Float.prec, Float.emax. lia.
Qed.

Lemma of_Z_small (c : Z) :
  - 2 ^ 53 < c < 2 ^ 53 -> exists cf, Float.int_to_float c = Ok cf.
Proof.
  intros Hc. unfold Float.int_to_float, Float.of_Z, binary_normalize.
  destruct c as [| p | p].
  - eexists. reflexivity.
  - destruct (binary_round_small false p) as [m [e E]]; [lia |].
    rewrite E. eexists. reflexivity.
  - destruct (binary_round_small true p) as [m [e E]]; [lia |].
    rewrite E. eexists. reflexivity.
Qed.

(** The ceiling of a finite float converts back to a float. *)
Lemma ceil_converts (s : bool) (m : positive) (e : Z) :
  bounded Float.prec Float.emax m e = true ->
  exists c cf,
    Float.ceil (S754_finite s m e) = Ok c /\ Float.int_to_float c = Ok cf.
Proof.
  intros H. pose proof (bounded_digits m e H) as Hd.
  destruct (digits2_pos_bounds m) as [_ Hm].
  assert (Hm53 : Zpos m < 2 ^ 53).
  { eapply Z.lt_le_trans; [exact Hm |]. apply Z.pow_le_mono_r; lia. }
  unfold Float.ceil.
  destruct (Z.leb_spec 0 e) as [He | He].
  - eexists. eexists. split; [reflexivity |].
    unfold Float.int_to_float, Float.of_Z, binary_normalize.
    assert (Hpow : 0 < 2 ^ e) by (apply Z.pow_pos_nonneg; lia).
    destruct s.
    + destruct (Zneg m * 2 ^ e) as [| p | p] eqn:Ep; try nia.
      rewrite (binary_round_exact true m e p H He) by nia. reflexivity.
    + destruct (Zpos m * 2 ^ e) as [| p | p] eqn:Ep; try nia.
      rewrite (binary_round_exact false m e p H He) by nia. reflexivity.
  - eexists.
    assert (Hpow : 2 <= 2 ^ (- e)).
    { change 2 with (2 ^ 1) at 1. apply Z.pow_le_mono_r; lia. }
    assert (Hc : - 2 ^ 53
                 < - (- (if s then Zneg m else Zpos m) / 2 ^ (- e)) < 2 ^ 53).
    { assert (E53 : 2 ^ 53 = 9007199254740992) by reflexivity.
      rewrite E53 in *.
      destruct s.
      - change (- Zneg m) with (Zpos m).
        assert (0 <= Zpos m / 2 ^ (- e)) by (apply Z.div_pos; lia).
        assert (Zpos m / 2 ^ (- e) < 9007199254740992)
          by (apply Z.div_lt_upper_bound; nia).
        lia.
      - change (- Zpos m) with (Zneg m).
        assert (Zneg m / 2 ^ (- e) < 0)
          by (apply Z.div_lt_upper_bound; lia).
        assert (- 4503599627370496 <= Zneg m / 2 ^ (- e))
          by (apply Z.div_le_lower_bound; nia).
        lia. }
    destruct (of_Z_small _ Hc) as [cf Ecf].
    exists cf. split; [reflexivity | exact Ecf].
Qed.

End FloatFacts.

(** ** Frame-rate normalization *)

Lemma to_Q_Qmake (f : Fraction.t) (n : Z) (d : positive) :
  lowest_terms f ->
  Fraction.numerator f * Zpos d = n * Fraction.denominator f ->
  Fraction.to_Q f == Qmake n d.
Proof.
  intros [Hd _] H. unfold Fraction.to_Q.
  destruct f as [fn fd]. cbn in *.
  destruct fd as [| fp | fp]; try lia.
  unfold Qeq, Qdiv, Qmult, Qinv, inject_Z. cbn.
  rewrite Z.mul_1_r. exact H.
Qed.

Lemma to_Fraction_finite (s : bool) (m : positive) (e : Z) :
  exists f,
    Float.to_Fraction (S754_finite s m e) = Ok f
    /\ lowest_terms f
    /\ Fraction.to_Q f == float_value (S754_finite s m e).
Proof.
  unfold Float.to_Fraction, float_value.
  set (n := if s then Zneg m else Zpos m).
  destruct (Z.leb_spec 0 e) as [He | He].
  - destruct (make_spec (n * 2 ^ e) 1) as [f [Ef [Hl Hc]]]; [lia |].
    exists f. split; [exact Ef |]. split; [exact Hl |].
    apply (to_Q_Qmake f (n * 2 ^ e) 1 Hl). lia.
  - assert (Hpow : 0 < 2 ^ (- e)) by (apply Z.pow_pos_nonneg; lia).
    destruct (make_spec n (2 ^ (- e))) as [f [Ef [Hl Hc]]]; [lia |].
    exists f. split; [exact Ef |]. split; [exact Hl |].
    apply (to_Q_Qmake f n _ Hl). rewrite Z2Pos.id by lia. exact Hc.
Qed.

(** C4, as stated, fails: the probed text [0.000] is read as the float
    zero, and the division by it in the tolerance test raises. *)
Lemma framerate_zero_raises :
  float_ (L "0.000") = Ok (S754_zero false)
  /\ AVExtractor.normalize_framerate (S754_zero false)
     = Raise ZeroDivisionError.
Proof. split; reflexivity. Qed.

(** On a finite non-zero value the normalization never raises. *)
Lemma normalize_framerate_finite (s : bool) (m : positive) (e : Z) :
  let v := S754_finite s m e in
  valid_binary Float.prec Float.emax v = true ->
  exists c rate,
    Float.ceil v = Ok c
    /\ AVExtractor.normalize_framerate v = Ok rate
    /\ lowest_terms rate
    /\ Fraction.to_Q rate
       == (if within_tolerance v then Qmake (c * 1000) 1001
           else float_value v).
Proof.
  intros v Hv. cbn [valid_binary] in Hv.
  destruct (ceil_converts s m e Hv) as [c [cf [Ec Ecf]]].
  fold v in Ec.
  exists c.
  unfold AVExtractor.normalize_framerate, within_tolerance.
  rewrite Ec. cbn [rbind]. rewrite Ecf. cbn [rbind].
  set (k := Float.of_ratio 1001 1000).
  assert (Hk : Float.is_zero k = false) by (vm_compute; reflexivity).
  unfold Float.div at 1 3. rewrite Hk. cbn [rbind].
  unfold Float.div. cbn [v Float.is_zero rbind].
  fold v.
  destruct (Float.ltb _ _).
  - destruct (make_spec (c * 1000) 1001) as [f [Ef [Hl Hc]]]; [lia |].
    exists f. split; [reflexivity |]. split; [exact Ef |].
    split; [exact Hl |]. apply (to_Q_Qmake f _ _ Hl). exact Hc.
  - destruct (to_Fraction_finite s m e) as [f [Ef [Hl Hq]]].
    exists f. split; [reflexivity |]. split; [exact Ef |].
    split; [exact Hl | exact Hq].
Qed.

Example framerate_23_976 :
  (v <- float_ (L "23.976") ;; AVExtractor.normalize_framerate v)%result
  = Ok {| Fraction.numerator := 24000; Fraction.denominator := 1001 |}.
Proof. vm_compute. reflexivity. Qed.

Example framerate_25_0 :
  (v <- float_ (L "25.0") ;; AVExtractor.normalize_framerate v)%result
  = Ok {| Fraction.numerator := 25; Fraction.denominator := 1 |}.
Proof. vm_compute. reflexivity. Qed.

(** C4, amended: for every finite non-zero binary64 value the
    normalization returns a fraction in lowest terms, equal to
    [ceil(v) * 1000 / 1001] when the tolerance test of the script holds
    and to the exact value of [v] otherwise; the probed text [23.976]
    gives 24000/1001 and [25.0] gives 25/1. *)
Theorem framerate_normalization :
  (forall (s : bool) (m : positive) (e : Z),
     let v := S754_finite s m e in
     valid_binary Float.prec Float.emax v = true ->
     exists c rate,
       Float.ceil v = Ok c
       /\ AVExtractor.normalize_framerate v = Ok rate
       /\ lowest_terms rate
       /\ Fraction.to_Q rate
          == (if within_tolerance v then Qmake (c * 1000) 1001
              else float_value v))
  /\ (v <- float_ (L "23.976") ;; AVExtractor.normalize_framerate v)%result
     = Ok {| Fraction.numerator := 24000; Fraction.denominator := 1001 |}
  /\ (v <- float_ (L "25.0") ;; AVExtractor.normalize_framerate v)%result
     = Ok {| Fraction.numerator := 25; Fraction.denominator := 1 |}.
Proof.
  split; [exact normalize_framerate_finite |].
  split; [exact framerate_23_976 | exact framerate_25_0].
Qed.

(** The probed text [23.976]: the test holds and the ceiling is 24. *)
Lemma framerate_normalization_witness :
  let v := S754_finite false 6748644041614688 (-48) in
  float_ (L "23.976") = Ok v
  /\ within_tolerance v = true
  /\ exists c rate,
       Float.ceil v = Ok c
       /\ AVExtractor.normalize_framerate v = Ok rate
       /\ lowest_terms rate
       /\ Fraction.to_Q rate
          == (if within_tolerance v then Qmake (c * 1000) 1001
              else float_value v).
Proof.
  split; [reflexivity |]. split; [vm_compute; reflexivity |].
  exact (proj1 framerate_normalization false 6748644041614688%positive (-48)
           eq_refl).
Defined.

(** ** Padded numerals *)

Lemma str_int_nonneg (n : Z) :
  0 <= n ->
  Py.str_int n
  = list_ascii_of_string (NilEmpty.string_of_uint (N.to_uint (Z.to_N n))).
Proof.
  intros Hn. unfold Py.str_int. destruct n as [| p | p]; try lia.
  - reflexivity.
  - cbn. pose proof (DecimalPos.Unsigned.to_uint_nonnil p) as Hnil.
    destruct (Pos.to_uint p); try reflexivity. contradiction.
Qed.

Lemma to_uint_nonnil (n : N) : N.to_uint n <> Decimal.Nil.
Proof.
  destruct n; cbn; [discriminate | apply DecimalPos.Unsigned.to_uint_nonnil].
Qed.

Lemma string_of_zeros (k : nat) (s : pystr) :
  NilEmpty.uint_of_string (string_of_list_ascii (repeat "0"%char k ++ s))
  = option_map (Nat.iter k Decimal.D0)
      (NilEmpty.uint_of_string (string_of_list_ascii s)).
Proof.
  induction k as [| k IH]; cbn [repeat List.app Nat.iter].
  - destruct (NilEmpty.uint_of_string _); reflexivity.
  - cbn [string_of_list_ascii NilEmpty.uint_of_string]. rewrite IH.
    destruct (NilEmpty.uint_of_string (string_of_list_ascii s)); reflexivity.
Qed.

Lemma of_uint_zeros (k : nat) (u : Decimal.uint) :
  N.of_uint (Nat.iter k Decimal.D0 u) = N.of_uint u.
Proof. induction k as [| k IH]; [reflexivity | exact IH]. Qed.

Lemma zfill_nonneg (w : nat) (n : Z) :
  0 <= n ->
  padded w n
  = repeat "0"%char (w - List.length (Py.str_int n)) ++ Py.str_int n.
Proof.
  intros Hn. unfold padded, Py.zfill.
  pose proof (str_int_nonneg_digits n Hn) as Hd.
  pose proof (str_int_nonempty n) as Hne.
  destruct (Py.str_int n) as [| c rest]; [contradiction |].
  inversion Hd as [| c' rest' Hc Hrest]; subst.
  destruct (Ascii.eqb_spec c "-") as [-> | _]; [discriminate Hc |].
  destruct (Ascii.eqb_spec c "+") as [-> | _]; [discriminate Hc |].
  reflexivity.
Qed.

(** Reading a padded numeral gives the number back. *)
Lemma int_padded (w : nat) (n : Z) : 0 <= n -> Py.int (padded w n) = Some n.
Proof.
  intros Hn. rewrite (zfill_nonneg w n Hn).
  pose proof (str_int_nonempty n) as Hne.
  unfold Py.int.
  destruct (repeat "0"%char (w - List.length (Py.str_int n)) ++ Py.str_int n)
    as [| c rest] eqn:E.
  - apply app_eq_nil in E. destruct E as [_ E]. contradiction.
  - rewrite <- E. rewrite string_of_zeros.
    rewrite (str_int_nonneg n Hn), string_of_list_ascii_of_string.
    rewrite NilEmpty.usu. cbn [option_map].
    rewrite of_uint_zeros, DecimalN.Unsigned.of_to, Z2N.id by exact Hn.
    reflexivity.
Qed.

Lemma int__padded (w : nat) (n : Z) : 0 <= n -> int_ (padded w n) = Ok n.
Proof. intros Hn. unfold int_. rewrite int_padded by exact Hn. reflexivity. Qed.

Lemma padded_digits (w : nat) (n : Z) :
  0 <= n -> Forall (fun c => Py.is_digit c = true) (padded w n).
Proof.
  intros Hn. rewrite (zfill_nonneg w n Hn). apply Forall_app. split.
  - apply Forall_forall. intros c Hc. apply repeat_spec in Hc. subst c.
    reflexivity.
  - apply str_int_nonneg_digits. exact Hn.
Qed.

Lemma padded_nonempty (w : nat) (n : Z) : padded w n <> [].
Proof.
  unfold padded, Py.zfill. pose proof (str_int_nonempty n) as Hne.
  destruct (Py.str_int n) as [| c rest]; [contradiction |].
  destruct (_ || _)%bool; [discriminate |].
  intros E. apply app_eq_nil in E. destruct E as [_ E]. discriminate E.
Qed.

Lemma padded_chars (w : nat) (n : Z) : Forall digit_or_minus (padded w n).
Proof.
  unfold padded, Py.zfill. pose proof (str_int_chars n) as H.
  destruct (Py.str_int n) as [| c rest] eqn:E.
  - apply Forall_forall. intros c Hc. apply repeat_spec in Hc. subst c.
    left. reflexivity.
  - assert (Hz : Forall digit_or_minus
                   (repeat "0"%char (w - List.length (c :: rest)))).
    { apply Forall_forall. intros x Hx. apply repeat_spec in Hx. subst x.
      left. reflexivity. }
    inversion H as [| c' rest' Hc Hrest]; subst.
    destruct (_ || _)%bool.
    + constructor; [exact Hc |]. apply Forall_app. split; assumption.
    + apply Forall_app. split; [exact Hz | exact H].
Qed.

Lemma padded_negative (w : nat) (n : Z) :
  n < 0 -> exists rest, padded w n = "-"%char :: rest.
Proof.
  intros Hn. destruct n as [| p | p]; try lia.
  unfold padded, Py.zfill, Py.str_int. cbn.
  eexists. reflexivity.
Qed.

(** Padding is injective against the numerals of the indices. *)
Lemma padded_inj (w : nat) (s i : Z) :
  0 <= i -> padded w s = padded w i -> s = i.
Proof.
  intros Hi E. destruct (Z_lt_le_dec s 0) as [Hs | Hs].
  - destruct (padded_negative w s Hs) as [rest Er].
    pose proof (padded_digits w i Hi) as Hd. rewrite <- E, Er in Hd.
    inversion Hd as [| c r Hc _]. discriminate Hc.
  - pose proof (int_padded w s Hs) as H1.
    pose proof (int_padded w i Hi) as H2.
    rewrite E in H1. congruence.
Qed.

Lemma two_digit_shape (h : Z) :
  0 <= h < 100 ->
  exists a b, padded 2 h = [a; b]
              /\ Py.is_digit a = true /\ Py.is_digit b = true.
Proof.
  intros Hh.
  assert (Hall : forallb two_digit_ok (seq 0 100) = true)
    by (vm_compute; reflexivity).
  rewrite forallb_forall in Hall.
  specialize (Hall (Z.to_nat h)).
  assert (Hin : In (Z.to_nat h) (seq 0 100)) by (apply in_seq; lia).
  specialize (Hall Hin). unfold two_digit_ok in Hall.
  rewrite Z2Nat.id in Hall by lia.
  destruct (padded 2 h) as [| a [| b [| c r]]]; try discriminate Hall.
  apply andb_true_iff in Hall. destruct Hall as [Ha Hb].
  exists a, b. auto.
Qed.

Lemma three_digit_shape (ms : Z) :
  0 <= ms < 1000 ->
  exists a b c, padded 3 ms = [a; b; c]
                /\ Py.is_digit a = true /\ Py.is_digit b = true
                /\ Py.is_digit c = true.
Proof.
  intros Hh.
  assert (Hall : forallb three_digit_ok (seq 0 1000) = true)
    by (vm_compute; reflexivity).
  rewrite forallb_forall in Hall.
  specialize (Hall (Z.to_nat ms)).
  assert (Hin : In (Z.to_nat ms) (seq 0 1000)) by (apply in_seq; lia).
  specialize (Hall Hin). unfold three_digit_ok in Hall.
  rewrite Z2Nat.id in Hall by lia.
  destruct (padded 3 ms) as [| a [| b [| c [| d r]]]]; try discriminate Hall.
  apply andb_true_iff in Hall. destruct Hall as [Hab Hc].
  apply andb_true_iff in Hab. destruct Hab as [Ha Hb].
  exists a, b, c. auto.
Qed.

(** ** Matching *)

Section Greedy.
Context {R : Type}.
Variable a : Re.atom.
Variable k : option ascii -> pystr -> list pystr -> option R.

Lemma map_app_nil (opens : list pystr) :
  map (fun o : pystr => [] ++ o) opens = opens.
Proof. apply map_id. Qed.

Lemma map_rev_cons (c : ascii) (ds : pystr) (opens : list pystr) :
  map (fun o => List.rev ds ++ o) (map (cons c) opens)
  = map (fun o => List.rev (c :: ds) ++ o) opens.
Proof.
  rewrite map_map. apply map_ext. intros o. cbn [List.rev].
  rewrite <- app_assoc. reflexivity.
Qed.

(** When what follows the repetition cannot start with a character of the
    repetition, giving characters back never helps: the repetition takes
    the whole run. *)
Lemma greedy_whole_run (ds s : pystr) :
  Forall (fun c => Re.atom_ok a c = true) ds ->
  match s with [] => True | c :: _ => Re.atom_ok a c = false end ->
  (forall prev c s' o, Re.atom_ok a c = true -> k prev (c :: s') o = None) ->
  forall prev opens,
  exists prev',
    Re.greedy a k prev (ds ++ s) opens
    = k prev' s (map (fun o => List.rev ds ++ o) opens).
Proof.
  intros Hds Hs Hk. induction Hds as [| d ds Hd Hds IH]; intros prev opens.
  - exists prev. cbn [List.app map List.rev]. rewrite map_app_nil.
    destruct s as [| c s']; [reflexivity |].
    cbn [Re.greedy]. rewrite Hs. reflexivity.
  - cbn [List.app Re.greedy]. rewrite Hd.
    destruct (IH (Some d) (map (cons d) opens)) as [prev' E].
    exists prev'. rewrite E, map_rev_cons. clear E.
    destruct (k prev' s (map (fun o => List.rev (d :: ds) ++ o) opens));
      [reflexivity |].
    apply Hk. exact Hd.
Qed.

(** A repetition followed by something that accepts the rest. *)
Lemma greedy_accepts (ds s : pystr) (r : R) :
  Forall (fun c => Re.atom_ok a c = true) ds ->
  match s with [] => True | c :: _ => Re.atom_ok a c = false end ->
  forall prev opens,
    (forall prev',
       k prev' s (map (fun o => List.rev ds ++ o) opens) = Some r) ->
    Re.greedy a k prev (ds ++ s) opens = Some r.
Proof.
  intros Hds Hs. induction Hds as [| d ds Hd Hds IH]; intros prev opens Hr.
  - cbn [List.app map List.rev] in *. rewrite map_app_nil in Hr.
    destruct s as [| c s']; [apply Hr |].
    cbn [Re.greedy]. rewrite Hs. apply Hr.
  - cbn [List.app Re.greedy]. rewrite Hd.
    rewrite (IH (Some d) (map (cons d) opens)); [reflexivity |].
    intros prev'. rewrite map_rev_cons. apply Hr.
Qed.
End Greedy.

Lemma lit_refuses_digits (ml : bool) (c0 : ascii) (p : Re.regex) :
  Py.is_digit c0 = false -> refuses_digits ml (Re.One (Re.Chr c0) :: p).
Proof.
  intros H0 prev c s o caps Hc. cbn [Re.run Re.atom_ok].
  destruct (Ascii.eqb_spec c0 c) as [-> | _]; [congruence | reflexivity].
Qed.

Lemma eol_refuses_digits (ml : bool) (p : Re.regex) :
  refuses_digits ml (Re.Eol :: p).
Proof.
  intros prev c s o caps Hc. cbn [Re.run Re.at_eol].
  destruct (Ascii.eqb_spec c nl) as [-> | _]; [discriminate Hc | reflexivity].
Qed.

(** The group [(\d+)] on a run of digits. *)
Lemma run_digits_group (ml : bool) (p : Re.regex) (ds s : pystr)
    (caps : list pystr) (prev : option ascii) :
  ds <> [] -> Forall (fun c => Py.is_digit c = true) ds ->
  starts_without_digit s -> refuses_digits ml p ->
  exists prev',
    Re.run ml (Re.Open :: Re.Many1 Re.Digit :: Re.Close :: p) prev (ds ++ s)
      [] caps
    = Re.run ml p prev' s [] (ds :: caps).
Proof.
  intros Hne Hds Hs Hp.
  destruct ds as [| d ds]; [contradiction |].
  inversion Hds as [| d' ds' Hd Hds']; subst.
  cbn [Re.run List.app Re.atom_ok map]. rewrite Hd.
  edestruct (greedy_whole_run Re.Digit
               (fun prev s opens =>
                  Re.run ml (Re.Close :: p) prev s opens caps)
               ds s Hds') as [prev' E].
  - destruct s; [exact I | exact Hs].
  - intros prev0 c s' o Hc. cbn [Re.atom_ok] in Hc. cbn [Re.run].
    destruct o as [| o1 os]; [reflexivity |].
    apply Hp. exact Hc.
  - exists prev'. rewrite E.
    cbn [map Re.run]. rewrite List.rev_app_distr. cbn [List.rev List.app].
    rewrite List.rev_involutive. reflexivity.
Qed.

Lemma lit_app (x y : pystr) : Re.lit (x ++ y) = Re.lit x ++ Re.lit y.
Proof. apply map_app. Qed.

(** A literal, outside of any group. *)
Lemma run_lit (ml : bool) (x : pystr) (p : Re.regex) (s : pystr)
    (caps : list pystr) (prev : option ascii) :
  exists prev',
    Re.run ml (Re.lit x ++ p) prev s [] caps
    = match strip_prefix x s with
      | Some s' => Re.run ml p prev' s' [] caps
      | None => None
      end.
Proof.
  revert s prev. induction x as [| c x IH]; intros s prev.
  - exists prev. reflexivity.
  - destruct s as [| c' s']; [exists prev; reflexivity |].
    cbn [Re.lit map List.app Re.run Re.atom_ok strip_prefix].
    destruct (Ascii.eqb c c'); [| exists prev; reflexivity].
    destruct (IH s' (Some c')) as [prev' E]. exists prev'. exact E.
Qed.

Lemma strip_prefix_app (x s : pystr) : strip_prefix x (x ++ s) = Some s.
Proof.
  induction x as [| c x IH]; [reflexivity |].
  cbn. rewrite Ascii.eqb_refl. exact IH.
Qed.

(** Two numerals, each followed by a character that is in neither: the
    first is a prefix of the second text only if the numerals agree. *)
Lemma strip_prefix_numeral (e c : ascii) (x y t : pystr) :
  ~ In e x -> ~ In e y -> (c <> e -> ~ In c x) ->
  strip_prefix (x ++ [e]) (y ++ c :: t)
  = if list_eq_dec ascii_dec x y
    then if Ascii.eqb e c then Some t else None
    else None.
Proof.
  revert y. induction x as [| a x IH]; intros y Hx Hy Hc.
  - destruct y as [| b y].
    + cbn. destruct (Ascii.eqb e c); reflexivity.
    + cbn [List.app strip_prefix].
      destruct (Ascii.eqb_spec e b) as [-> | _].
      * exfalso. apply Hy. left. reflexivity.
      * destruct (list_eq_dec ascii_dec [] (b :: y)); [discriminate |].
        reflexivity.
  - destruct y as [| b y].
    + cbn [List.app strip_prefix].
      destruct (list_eq_dec ascii_dec (a :: x) []); [discriminate |].
      destruct (Ascii.eqb_spec a c) as [-> | _]; [| reflexivity].
      exfalso. destruct (ascii_dec c e) as [-> | Hne].
      * apply Hx. left. reflexivity.
      * apply (Hc Hne). left. reflexivity.
    + cbn [List.app strip_prefix].
      destruct (Ascii.eqb_spec a b) as [-> | Hab].
      * rewrite IH.
        -- destruct (list_eq_dec ascii_dec x y) as [-> | Hxy].
           ++ destruct (list_eq_dec ascii_dec (b :: y) (b :: y));
                [reflexivity | contradiction].
           ++ destruct (list_eq_dec ascii_dec (b :: x) (b :: y)) as [E | _];
                [| reflexivity].
              injection E as E. contradiction.
        -- intros H. apply Hx. right. exact H.
        -- intros H. apply Hy. right. exact H.
        -- intros Hne H. apply (Hc Hne). right. exact H.
      * destruct (list_eq_dec ascii_dec (a :: x) (b :: y)) as [E | _];
          [| reflexivity].
        injection E as E _. contradiction.
Qed.

(** ** The patterns of the chapter slicer on rendered lines *)

Arguments padded : simpl never.

Lemma run_timestamp (ml : bool) (prev : option ascii) (h m s ms : Z)
    (tail : pystr) (caps : list pystr) :
  0 <= h < 100 -> 0 <= m < 100 -> 0 <= s < 100 -> 0 <= ms < 1000 ->
  Re.run ml AVExtractor.timestamp_re prev
    (padded 2 h ++ L ":" ++ padded 2 m ++ L ":" ++ padded 2 s ++ L "."
     ++ padded 3 ms ++ tail) [] caps
  = if Re.at_eol ml tail
    then Some (List.rev (padded 3 ms :: padded 2 s :: padded 2 m
                         :: padded 2 h :: caps))
    else None.
Proof.
  intros Hh Hm Hs Hms.
  destruct (two_digit_shape h Hh) as [h1 [h2 [Eh [Hh1 Hh2]]]].
  destruct (two_digit_shape m Hm) as [m1 [m2 [Em [Hm1 Hm2]]]].
  destruct (two_digit_shape s Hs) as [s1 [s2 [Es [Hs1 Hs2]]]].
  destruct (three_digit_shape ms Hms) as [x1 [x2 [x3 [Ex [Hx1 [Hx2 Hx3]]]]]].
  rewrite Eh, Em, Es, Ex.
  cbn. rewrite Hh1, Hh2. cbn. rewrite Hm1, Hm2. cbn. rewrite Hs1, Hs2. cbn.
  rewrite Hx1, Hx2, Hx3. cbn.
  reflexivity.
Qed.

Lemma starts_without_digit_lit (c : ascii) (s : pystr) :
  Py.is_digit c = false -> starts_without_digit (c :: s).
Proof. intros H. exact H. Qed.

Section IndexGroup.
Variable i : Z.
Hypothesis index_nonneg : 0 <= i.

(** The common head [^CHAPTER(\d+)] of the three patterns. *)
Lemma run_chapter_head (ml : bool) (p : Re.regex) (s : pystr) :
  starts_without_digit s -> refuses_digits ml p ->
  exists prev',
    Re.run ml ([Re.Bol] ++ Re.lit (L "CHAPTER")
               ++ [Re.Open; Re.Many1 Re.Digit; Re.Close] ++ p)
      None (L "CHAPTER" ++ padded 2 i ++ s) [] []
    = Re.run ml p prev' s [] [padded 2 i].
Proof.
  intros Hs Hp. cbn [List.app Re.run Re.at_bol].
  destruct (run_lit ml (L "CHAPTER")
              (Re.Open :: Re.Many1 Re.Digit :: Re.Close :: p)
              (L "CHAPTER" ++ padded 2 i ++ s) [] None) as [prev1 E1].
  rewrite E1, strip_prefix_app.
  apply run_digits_group.
  - apply padded_nonempty.
  - apply padded_digits. exact index_nonneg.
  - exact Hs.
  - exact Hp.
Qed.

Lemma time_re_timestamp (h m s ms : Z) :
  0 <= h < 100 -> 0 <= m < 100 -> 0 <= s < 100 -> 0 <= ms < 1000 ->
  Re.match_ AVExtractor.CHAPTERS_TIME_RE (render_record (Timestamp i h m s ms))
  = Some [padded 2 i; padded 2 h; padded 2 m; padded 2 s; padded 3 ms].
Proof.
  intros Hh Hm Hs Hms.
  unfold Re.match_, AVExtractor.CHAPTERS_TIME_RE, render_record.
  edestruct (run_chapter_head false) as [prev' E]; [| | rewrite E].
  - apply (starts_without_digit_lit "="). reflexivity.
  - apply (lit_refuses_digits false "="). reflexivity.
  - cbn [Re.lit L list_ascii_of_string map List.app Re.run Re.atom_ok].
    rewrite Ascii.eqb_refl. cbn [map].
    pose proof (run_timestamp false (Some "="%char) h m s ms [] [padded 2 i]
                  Hh Hm Hs Hms) as R.
    rewrite !app_nil_r in R. exact R.
Qed.

Lemma time_re_name (rest : pystr) :
  Re.match_ AVExtractor.CHAPTERS_TIME_RE
    (L "CHAPTER" ++ padded 2 i ++ L "NAME=" ++ rest) = None.
Proof.
  unfold Re.match_, AVExtractor.CHAPTERS_TIME_RE.
  edestruct (run_chapter_head false) as [prev' E]; [| | rewrite E].
  - apply (starts_without_digit_lit "N"). reflexivity.
  - apply (lit_refuses_digits false "="). reflexivity.
  - reflexivity.
Qed.

Lemma title_1_re_timestamp (rest : pystr) :
  Re.match_ AVExtractor.CHAPTERS_TITLE_1_RE
    (L "CHAPTER" ++ padded 2 i ++ L "=" ++ rest) = None.
Proof.
  unfold Re.match_, AVExtractor.CHAPTERS_TITLE_1_RE.
  edestruct (run_chapter_head false) as [prev' E]; [| | rewrite E].
  - apply (starts_without_digit_lit "="). reflexivity.
  - apply (lit_refuses_digits false "N"). reflexivity.
  - reflexivity.
Qed.

Lemma title_2_re_timestamp (rest : pystr) :
  Re.match_ AVExtractor.CHAPTERS_TITLE_2_RE
    (L "CHAPTER" ++ padded 2 i ++ L "=" ++ rest) = None.
Proof.
  unfold Re.match_, AVExtractor.CHAPTERS_TITLE_2_RE.
  edestruct (run_chapter_head false) as [prev' E]; [| | rewrite E].
  - apply (starts_without_digit_lit "="). reflexivity.
  - apply (lit_refuses_digits false "N"). reflexivity.
  - reflexivity.
Qed.
End IndexGroup.

Lemma digit_line_safe (c : ascii) :
  digit_or_minus c -> Py.is_linebreak c = false.
Proof.
  intros [H | ->]; [| reflexivity].
  destruct c as [[] [] [] [] [] [] [] []]; try reflexivity; discriminate H.
Qed.

Lemma line_safe_app (a b : pystr) :
  line_safe a -> line_safe b -> line_safe (a ++ b).
Proof. intros Ha Hb. apply Forall_app. split; assumption. Qed.

Lemma line_safe_padded (w : nat) (n : Z) : line_safe (padded w n).
Proof.
  eapply Forall_impl; [| apply padded_chars].
  intros c. apply digit_line_safe.
Qed.

Lemma line_safe_literal (s : string) :
  forallb (fun c => negb (Py.is_linebreak c)) (L s) = true -> line_safe (L s).
Proof.
  intros H. apply Forall_forall. intros c Hc.
  rewrite forallb_forall in H. specialize (H c Hc).
  destruct (Py.is_linebreak c); [discriminate H | reflexivity].
Qed.

Lemma line_safe_title (t : pystr) :
  forallb (fun c => negb (Py.is_linebreak c)) t = true -> line_safe t.
Proof.
  intros H. apply Forall_forall. intros c Hc.
  rewrite forallb_forall in H. specialize (H c Hc).
  destruct (Py.is_linebreak c); [discriminate H | reflexivity].
Qed.

Lemma line_safe_dot (t : pystr) :
  line_safe t -> Forall (fun c => Re.atom_ok Re.Dot c = true) t.
Proof.
  intros H. eapply Forall_impl; [| exact H].
  intros c Hc. unfold Re.atom_ok.
  destruct (Ascii.eqb_spec c nl) as [-> | _]; [discriminate Hc | reflexivity].
Qed.

Lemma rendered_line_safe (r : chapter_record) :
  well_formed r -> line_safe (render_record r).
Proof.
  destruct r as [i h m s ms | i n | i t]; cbn [well_formed render_record];
    intros H;
    repeat first
      [ apply line_safe_app
      | apply line_safe_padded
      | apply line_safe_literal; reflexivity
      | apply line_safe_title; tauto ].
Qed.

(** The group [(.{0,})$] takes the rest of a line. *)
Lemma run_rest_of_line (prev : option ascii) (t : pystr) (caps : list pystr) :
  line_safe t ->
  Re.run false [Re.Open; Re.Many0 Re.Dot; Re.Close; Re.Eol] prev t [] caps
  = Some (List.rev (t :: caps)).
Proof.
  intros Ht. cbn [Re.run].
  rewrite <- (app_nil_r t) at 1.
  apply greedy_accepts.
  - apply line_safe_dot. exact Ht.
  - exact I.
  - intros prev'. cbn. rewrite app_nil_r, List.rev_involutive. reflexivity.
Qed.

Lemma span_digits (rest : pystr) :
  exists ds s,
    rest = ds ++ s
    /\ Forall (fun c => Py.is_digit c = true) ds
    /\ starts_without_digit s.
Proof.
  induction rest as [| c rest IH].
  - exists [], []. repeat split. constructor.
  - destruct (Py.is_digit c) eqn:Hc.
    + destruct IH as [ds [s [E [Hds Hs]]]].
      exists (c :: ds), s. subst rest. repeat split; [| exact Hs].
      constructor; assumption.
    + exists [], (c :: rest). repeat split; [constructor | exact Hc].
Qed.

Lemma forallb_digits_app (ds s : pystr) :
  Forall (fun c => Py.is_digit c = true) ds ->
  forallb Py.is_digit (ds ++ s) = forallb Py.is_digit s.
Proof.
  induction 1 as [| d ds Hd Hds IH]; [reflexivity |].
  cbn. rewrite Hd. exact IH.
Qed.

(** The group [(\d+)$] on the rest of a line. *)
Lemma run_number_eol (prev : option ascii) (rest : pystr) (caps : list pystr) :
  line_safe rest ->
  Re.run false [Re.Open; Re.Many1 Re.Digit; Re.Close; Re.Eol] prev rest [] caps
  = if negb (is_empty rest) && forallb Py.is_digit rest
    then Some (List.rev (rest :: caps))
    else None.
Proof.
  intros Hsafe.
  destruct (span_digits rest) as [ds [s [E [Hds Hs]]]]. subst rest.
  destruct ds as [| d ds].
  - cbn [List.app]. destruct s as [| c s'].
    + reflexivity.
    + cbn in Hs. cbn. rewrite Hs. reflexivity.
  - destruct (run_digits_group false [Re.Eol] (d :: ds) s caps prev)
      as [prev' R]; [discriminate | exact Hds | exact Hs | |].
    { apply eol_refuses_digits. }
    rewrite R. cbn [is_empty negb andb].
    rewrite (forallb_digits_app (d :: ds) s Hds).
    destruct s as [| c s'].
    + cbn. rewrite app_nil_r. reflexivity.
    + cbn in Hs. cbn [forallb]. rewrite Hs. cbn [andb].
      cbn [Re.run Re.at_eol].
      apply Forall_app in Hsafe. destruct Hsafe as [_ Hsafe].
      inversion Hsafe as [| c' s'' Hc _]; subst.
      destruct (Ascii.eqb_spec c nl) as [-> | _]; [discriminate Hc |].
      reflexivity.
Qed.

Section NameLines.
Variable i : Z.
Hypothesis index_nonneg : 0 <= i.

Lemma title_1_re_name (t : pystr) :
  line_safe t ->
  Re.match_ AVExtractor.CHAPTERS_TITLE_1_RE
    (L "CHAPTER" ++ padded 2 i ++ L "NAME=" ++ t)
  = match strip_prefix (L "Chapter ") t with
    | Some rest =>
        if negb (is_empty rest) && forallb Py.is_digit rest
        then Some [padded 2 i; rest]
        else None
    | None => None
    end.
Proof.
  intros Ht.
  unfold Re.match_, AVExtractor.CHAPTERS_TITLE_1_RE.
  edestruct (run_chapter_head i index_nonneg false) as [prev' E];
    [| | rewrite E].
  - apply (starts_without_digit_lit "N"). reflexivity.
  - apply (lit_refuses_digits false "N"). reflexivity.
  - change (L "NAME=Chapter ") with (L "NAME=" ++ L "Chapter ").
    rewrite lit_app, <- app_assoc.
    destruct (run_lit false (L "NAME=")
                (Re.lit (L "Chapter ")
                 ++ [Re.Open; Re.Many1 Re.Digit; Re.Close; Re.Eol])
                (L "NAME=" ++ t) [padded 2 i] prev') as [prev1 E1].
    rewrite E1, strip_prefix_app.
    destruct (run_lit false (L "Chapter ")
                [Re.Open; Re.Many1 Re.Digit; Re.Close; Re.Eol]
                t [padded 2 i] prev1) as [prev2 E2].
    rewrite E2.
    destruct (strip_prefix (L "Chapter ") t) as [rest |] eqn:Es;
      [| reflexivity].
    rewrite run_number_eol.
    + destruct (_ && _); reflexivity.
    + clear - Ht Es. revert t Ht Es.
      generalize (L "Chapter "). intros x. induction x as [| c x IH];
        intros t Ht Es.
      * cbn in Es. injection Es as <-. exact Ht.
      * destruct t as [| c' t']; [discriminate Es |].
        cbn in Es. destruct (Ascii.eqb c c'); [| discriminate Es].
        inversion Ht; subst. apply (IH t'); assumption.
Qed.

Lemma title_1_re_label (n : Z) :
  0 <= n ->
  Re.match_ AVExtractor.CHAPTERS_TITLE_1_RE (render_record (Label i n))
  = Some [padded 2 i; padded 2 n].
Proof.
  intros Hn. unfold render_record.
  change (L "NAME=Chapter " ++ padded 2 n)
    with (L "NAME=" ++ (L "Chapter " ++ padded 2 n)).
  rewrite title_1_re_name.
  - rewrite strip_prefix_app.
    pose proof (padded_nonempty 2 n) as Hne.
    pose proof (padded_digits 2 n Hn) as Hd.
    destruct (padded 2 n) as [| c rest]; [contradiction |].
    cbn [is_empty negb andb].
    replace (forallb Py.is_digit (c :: rest)) with true; [reflexivity |].
    symmetry. apply forallb_forall. rewrite Forall_forall in Hd. exact Hd.
  - apply line_safe_app; [apply line_safe_literal; reflexivity |].
    apply line_safe_padded.
Qed.

Lemma title_1_re_title (t : pystr) :
  line_safe t -> is_label_title t = false ->
  Re.match_ AVExtractor.CHAPTERS_TITLE_1_RE (render_record (Title i t)) = None.
Proof.
  intros Ht Hl. unfold render_record. rewrite title_1_re_name by exact Ht.
  unfold is_label_title in Hl.
  destruct (strip_prefix (L "Chapter ") t); [| reflexivity].
  rewrite Hl. reflexivity.
Qed.

Lemma title_2_re_name (t : pystr) :
  line_safe t ->
  Re.match_ AVExtractor.CHAPTERS_TITLE_2_RE
    (L "CHAPTER" ++ padded 2 i ++ L "NAME=" ++ t)
  = Some [padded 2 i; t].
Proof.
  intros Ht.
  unfold Re.match_, AVExtractor.CHAPTERS_TITLE_2_RE.
  edestruct (run_chapter_head i index_nonneg false) as [prev' E];
    [| | rewrite E].
  - apply (starts_without_digit_lit "N"). reflexivity.
  - apply (lit_refuses_digits false "N"). reflexivity.
  - destruct (run_lit false (L "NAME=")
                [Re.Open; Re.Many0 Re.Dot; Re.Close; Re.Eol]
                (L "NAME=" ++ t) [padded 2 i] prev') as [prev1 E1].
    rewrite E1, strip_prefix_app.
    apply run_rest_of_line. exact Ht.
Qed.
End NameLines.

(** ** Durations *)

Lemma total_us_normalize (x : Z) :
  Datetime.total_us (Datetime.normalize x) = x.
Proof.
  unfold Datetime.total_us, Datetime.normalize, Datetime.us_per_day.
  cbn [Datetime.days Datetime.seconds Datetime.microseconds].
  change (86400 * 1000000) with 86400000000.
  pose proof (Z.div_mod x 86400000000 ltac:(lia)) as H1.
  pose proof (Z.div_mod (x mod 86400000000) 1000000 ltac:(lia)) as H2.
  assert (H3 : x mod 1000000 = (x mod 86400000000) mod 1000000).
  { symmetry. apply Z.mod_mod_divide. exists 86400. reflexivity. }
  lia.
Qed.

(** The difference of two timestamps that are less than a day apart, the
    way [chapter_line] reads it off a [timedelta]. *)
Lemma sub_fields (t toff : Z) :
  0 <= t - toff < day_ms ->
  let d := t - toff in
  let new_time :=
    Datetime.sub (Datetime.normalize (t * 1000))
                 (Datetime.normalize (toff * 1000)) in
  Datetime.seconds new_time / 3600 = d / 3600000
  /\ Datetime.seconds new_time / 60 mod 60 = d / 60000 mod 60
  /\ Datetime.seconds new_time mod 60 = d / 1000 mod 60
  /\ Datetime.microseconds new_time / 1000 = d mod 1000.
Proof.
  intros Hd. unfold day_ms in Hd. cbv zeta. set (d := t - toff) in *.
  unfold Datetime.sub. rewrite !total_us_normalize.
  replace (t * 1000 - toff * 1000) with (d * 1000) by (subst d; ring).
  unfold Datetime.normalize, Datetime.us_per_day.
  cbn [Datetime.seconds Datetime.microseconds].
  change (86400 * 1000000) with 86400000000.
  rewrite (Z.mod_small (d * 1000)) by (subst d; lia).
  change 1000000 with (1000 * 1000).
  rewrite Z.div_mul_cancel_r by lia.
  rewrite Z.mul_mod_distr_r by lia.
  rewrite Z.div_mul by lia.
  rewrite !Z.div_div by lia.
  repeat split; reflexivity.
Qed.

Lemma make_normalize (h m s ms : Z) :
  Datetime.make h m s ms = Datetime.normalize (millis h m s ms * 1000).
Proof. unfold Datetime.make, millis. f_equal. ring. Qed.

(** ** One line of the chapter text *)

Lemma in_range_within (start end_ : option Z) (i : Z) :
  AVExtractor.in_range start end_ i = within start end_ i.
Proof. reflexivity. Qed.

Section ChapterLine.
Variables start end_ : option Z.
Variables ioff toff : Z.

Let offset_time := Datetime.normalize (toff * 1000).

Lemma chapter_line_timestamp (i h m s ms : Z) :
  well_formed (Timestamp i h m s ms) ->
  (within start end_ i = true -> 0 <= millis h m s ms - toff < day_ms) ->
  AVExtractor.chapter_line start end_ ioff offset_time
    (render_record (Timestamp i h m s ms))
  = Ok (if within start end_ i
        then render_record (rebase ioff toff (Timestamp i h m s ms)) ++ [nl]
        else []).
Proof.
  intros [Hi [Hh [Hm [Hs Hms]]]] Hday.
  unfold AVExtractor.chapter_line, AVExtractor.match_in_range.
  rewrite (time_re_timestamp i Hi h m s ms Hh Hm Hs Hms).
  cbn [Re.group Nat.sub nth rbind].
  rewrite (int__padded 2 i Hi). cbn [rbind].
  rewrite in_range_within.
  destruct (within start end_ i) eqn:Ew; cbn [Re.group Nat.sub nth rbind].
  - rewrite (int__padded 2 i Hi), (int__padded 2 h), (int__padded 2 m),
      (int__padded 2 s), (int__padded 3 ms) by lia.
    cbn [rbind]. f_equal.
    rewrite make_normalize.
    destruct (sub_fields (millis h m s ms) toff (Hday eq_refl))
      as [E1 [E2 [E3 E4]]].
    fold offset_time in E1, E2, E3, E4.
    rewrite E1, E2, E3, E4.
    unfold rebase, render_record, padded, str, Str_int.
    repeat rewrite <- app_assoc. reflexivity.
  - unfold render_record.
    rewrite (title_1_re_timestamp i Hi), (title_2_re_timestamp i Hi).
    reflexivity.
Qed.

Lemma chapter_line_label (i n : Z) :
  well_formed (Label i n) ->
  AVExtractor.chapter_line start end_ ioff offset_time
    (render_record (Label i n))
  = Ok (if within start end_ i
        then render_record (rebase ioff toff (Label i n)) ++ [nl]
        else []).
Proof.
  intros [Hi Hn].
  unfold AVExtractor.chapter_line, AVExtractor.match_in_range.
  rewrite (title_1_re_label i Hi n Hn).
  unfold render_record.
  change (L "NAME=Chapter " ++ padded 2 n)
    with (L "NAME=" ++ (L "Chapter " ++ padded 2 n)).
  rewrite (time_re_name i Hi).
  rewrite (title_2_re_name i Hi)
    by (apply line_safe_app;
        [apply line_safe_literal; reflexivity | apply line_safe_padded]).
  cbn [Re.group Nat.sub nth rbind].
  rewrite (int__padded 2 i Hi). cbn [rbind].
  rewrite in_range_within.
  destruct (within start end_ i) eqn:Ew; cbn [Re.group Nat.sub nth rbind].
  - rewrite (int__padded 2 i Hi), (int__padded 2 n Hn).
    cbn [rbind]. f_equal.
    unfold rebase, render_record, padded, str, Str_int.
    repeat rewrite <- app_assoc. reflexivity.
  - reflexivity.
Qed.

Lemma chapter_line_title (i : Z) (t : pystr) :
  well_formed (Title i t) ->
  AVExtractor.chapter_line start end_ ioff offset_time
    (render_record (Title i t))
  = Ok (if within start end_ i
        then render_record (rebase ioff toff (Title i t)) ++ [nl]
        else []).
Proof.
  intros [Hi [Hsafe Hl]]. apply line_safe_title in Hsafe.
  unfold AVExtractor.chapter_line, AVExtractor.match_in_range.
  rewrite (title_1_re_title i Hi t Hsafe Hl).
  unfold render_record.
  rewrite (time_re_name i Hi).
  rewrite (title_2_re_name i Hi t Hsafe).
  cbn [Re.group Nat.sub nth rbind].
  rewrite (int__padded 2 i Hi). cbn [rbind].
  rewrite in_range_within.
  destruct (within start end_ i) eqn:Ew; cbn [Re.group Nat.sub nth rbind].
  - rewrite (int__padded 2 i Hi).
    cbn [rbind]. f_equal.
    unfold rebase, render_record, padded, str, Str_int.
    repeat rewrite <- app_assoc. reflexivity.
  - reflexivity.
Qed.

Lemma chapter_line_record (r : chapter_record) :
  well_formed r ->
  (forall i h m s ms, r = Timestamp i h m s ms -> within start end_ i = true ->
                      0 <= millis h m s ms - toff < day_ms) ->
  AVExtractor.chapter_line start end_ ioff offset_time (render_record r)
  = Ok (if within start end_ (index_of r)
        then render_record (rebase ioff toff r) ++ [nl]
        else []).
Proof.
  intros Hwf Hday. destruct r as [i h m s ms | i n | i t].
  - apply chapter_line_timestamp; [exact Hwf |].
    intros Hw. apply (Hday i h m s ms eq_refl Hw).
  - apply chapter_line_label. exact Hwf.
  - apply chapter_line_title. exact Hwf.
Qed.

(** The loop over the lines. *)
Lemma chapter_lines_records (rs : list chapter_record) (acc : pystr) :
  Forall well_formed rs ->
  (forall i h m s ms, In (Timestamp i h m s ms) rs ->
                      within start end_ i = true ->
                      0 <= millis h m s ms - toff < day_ms) ->
  AVExtractor.chapter_lines start end_ ioff offset_time
    (map render_record rs) acc
  = Ok (acc
        ++ render (map (rebase ioff toff)
                     (filter (fun r => within start end_ (index_of r)) rs))).
Proof.
  intros Hwf. revert acc.
  induction Hwf as [| r rs Hr Hrs IH]; intros acc Hday.
  - cbn. rewrite app_nil_r. reflexivity.
  - cbn [map AVExtractor.chapter_lines].
    rewrite (chapter_line_record r Hr).
    + cbn [rbind]. rewrite IH.
      * f_equal. cbn [filter].
        destruct (within start end_ (index_of r)).
        -- cbn [map]. unfold render, unlines. cbn [map List.concat].
           repeat rewrite <- app_assoc. reflexivity.
        -- rewrite app_nil_r. reflexivity.
      * intros i h m s ms Hin. apply Hday. right. exact Hin.
    + intros i h m s ms E. apply Hday. left. exact E.
Qed.
End ChapterLine.

(** ** The lines of a rendered text *)

Lemma splitlines_line (l rest : pystr) :
  line_safe l -> Py.splitlines (l ++ nl :: rest) = l :: Py.splitlines rest.
Proof.
  induction 1 as [| c l Hc Hl IH].
  - reflexivity.
  - cbn [List.app Py.splitlines]. rewrite Hc, IH. reflexivity.
Qed.

Lemma splitlines_unlines (ls : list pystr) :
  Forall line_safe ls -> Py.splitlines (unlines ls) = ls.
Proof.
  induction 1 as [| l ls Hl Hls IH]; [reflexivity |].
  unfold unlines. cbn [map List.concat]. rewrite <- app_assoc.
  cbn [List.app]. rewrite splitlines_line by exact Hl.
  f_equal. exact IH.
Qed.

Lemma render_cons (r : chapter_record) (rs : list chapter_record) :
  render (r :: rs) = render_record r ++ nl :: render rs.
Proof.
  unfold render, unlines. cbn [map List.concat]. rewrite <- app_assoc.
  reflexivity.
Qed.

(** ** The search for the start entry *)

Section SearchLines.
Variable p : Re.regex.

Lemma search_inside_line (l rest : pystr) (c : ascii) :
  c <> nl -> line_safe l ->
  Re.search_from true (Re.Bol :: p) (Some c) (l ++ nl :: rest)
  = Re.search_from true (Re.Bol :: p) (Some nl) rest.
Proof.
  intros Hc Hl. revert c Hc. induction Hl as [| d l Hd Hl IH]; intros c Hc.
  - cbn [List.app Re.search_from Re.run Re.at_bol andb].
    destruct (Ascii.eqb_spec c nl) as [E | _]; [contradiction |].
    reflexivity.
  - cbn [List.app Re.search_from Re.run Re.at_bol andb].
    destruct (Ascii.eqb_spec c nl) as [E | _]; [contradiction |].
    apply IH. intros ->. discriminate Hd.
Qed.

Lemma search_next_line (l rest : pystr) (prev : option ascii) :
  l <> [] -> line_safe l ->
  Re.run true (Re.Bol :: p) prev (l ++ nl :: rest) [] [] = None ->
  Re.search_from true (Re.Bol :: p) prev (l ++ nl :: rest)
  = Re.search_from true (Re.Bol :: p) (Some nl) rest.
Proof.
  intros Hne Hl Hrun. destruct l as [| c l]; [contradiction |].
  inversion Hl as [| c' l' Hc Hl']; subst.
  cbn [List.app Re.search_from]. cbn [List.app] in Hrun. rewrite Hrun.
  apply search_inside_line; [| exact Hl'].
  intros ->. discriminate Hc.
Qed.

Lemma search_this_line (s : pystr) (prev : option ascii) (m : list pystr) :
  Re.run true (Re.Bol :: p) prev s [] [] = Some m ->
  Re.search_from true (Re.Bol :: p) prev s = Some m.
Proof.
  intros H. destruct s; cbn [Re.search_from]; rewrite H; reflexivity.
Qed.
End SearchLines.

Lemma numeral_char (c : ascii) :
  digit_or_minus c -> c <> "="%char /\ c <> "N"%char.
Proof.
  intros [H | ->]; split; intros E; subst; discriminate.
Qed.

Lemma padded_free_of (w : nat) (n : Z) :
  ~ In "="%char (padded w n) /\ ~ In "N"%char (padded w n).
Proof.
  pose proof (padded_chars w n) as H. rewrite Forall_forall in H.
  split; intros Hin; apply H in Hin; apply numeral_char in Hin; tauto.
Qed.

Section StartEntry.
Variable start : Z.

(** The pattern of line 145. *)
Let start_re : Re.regex :=
  Re.lit (L "CHAPTER") ++ Re.lit (Py.zfill 2 (str start)) ++ Re.lit (L "=")
  ++ AVExtractor.timestamp_re.

Lemma run_start_prefix (prev : option ascii) (i : Z) (c : ascii) (t : pystr) :
  Re.at_bol true prev = true ->
  (c <> "="%char -> c = "N"%char) ->
  exists prev',
    Re.run true (Re.Bol :: start_re) prev
      (L "CHAPTER" ++ padded 2 i ++ c :: t) [] []
    = if list_eq_dec ascii_dec (padded 2 start) (padded 2 i)
      then if Ascii.eqb "=" c
           then Re.run true AVExtractor.timestamp_re prev' t [] []
           else None
      else None.
Proof.
  intros Hb Hc. cbn [Re.run]. rewrite Hb. unfold start_re.
  destruct (run_lit true (L "CHAPTER")
              (Re.lit (Py.zfill 2 (str start)) ++ Re.lit (L "=")
               ++ AVExtractor.timestamp_re)
              (L "CHAPTER" ++ padded 2 i ++ c :: t) [] prev) as [prev1 E1].
  rewrite E1, strip_prefix_app. clear E1.
  rewrite app_assoc, <- lit_app.
  change (Py.zfill 2 (str start) ++ L "=") with (padded 2 start ++ ["="%char]).
  destruct (run_lit true (padded 2 start ++ ["="%char])
              AVExtractor.timestamp_re (padded 2 i ++ c :: t) [] prev1)
    as [prev2 E2].
  rewrite E2. clear E2.
  destruct (padded_free_of 2 start) as [Hs1 Hs2].
  destruct (padded_free_of 2 i) as [Hi1 Hi2].
  rewrite strip_prefix_numeral; [| exact Hs1 | exact Hi1 |].
  - exists prev2.
    destruct (list_eq_dec ascii_dec _ _); [| reflexivity].
    destruct (Ascii.eqb "=" c); reflexivity.
  - intros Hne. rewrite (Hc Hne). exact Hs2.
Qed.

Lemma run_start_record (prev : option ascii) (r : chapter_record)
    (rest : pystr) :
  Re.at_bol true prev = true -> well_formed r ->
  Re.run true (Re.Bol :: start_re) prev (render_record r ++ nl :: rest) [] []
  = match r with
    | Timestamp i h m s ms =>
        if i =? start
        then Some [padded 2 h; padded 2 m; padded 2 s; padded 3 ms]
        else None
    | _ => None
    end.
Proof.
  intros Hb Hwf. destruct r as [i h m s ms | i n | i t];
    cbn [render_record well_formed] in *.
  - destruct Hwf as [Hi [Hh [Hm [Hs Hms]]]].
    repeat rewrite <- app_assoc.
    change (L "=" ++ padded 2 h ++ L ":" ++ padded 2 m ++ L ":" ++ padded 2 s
            ++ L "." ++ padded 3 ms ++ nl :: rest)
      with ("="%char :: padded 2 h ++ L ":" ++ padded 2 m ++ L ":"
            ++ padded 2 s ++ L "." ++ padded 3 ms ++ nl :: rest).
    destruct (run_start_prefix prev i "="
                (padded 2 h ++ L ":" ++ padded 2 m ++ L ":" ++ padded 2 s
                 ++ L "." ++ padded 3 ms ++ nl :: rest) Hb) as [prev' E];
      [intros H; contradiction |].
    rewrite E. clear E.
    destruct (Z.eqb_spec i start) as [-> | Hne].
    + destruct (list_eq_dec ascii_dec _ _) as [_ | F]; [| contradiction].
      cbn [Ascii.eqb Bool.eqb].
      rewrite (run_timestamp true prev' h m s ms (nl :: rest) [] Hh Hm Hs Hms).
      reflexivity.
    + destruct (list_eq_dec ascii_dec _ _) as [F | _]; [| reflexivity].
      apply padded_inj in F; [| exact Hi]. congruence.
  - repeat rewrite <- app_assoc.
    change (L "NAME=Chapter " ++ padded 2 n ++ nl :: rest)
      with ("N"%char :: L "AME=Chapter " ++ padded 2 n ++ nl :: rest).
    destruct (run_start_prefix prev i "N"
                (L "AME=Chapter " ++ padded 2 n ++ nl :: rest) Hb)
      as [prev' E]; [intros _; reflexivity |].
    rewrite E. destruct (list_eq_dec ascii_dec _ _); reflexivity.
  - repeat rewrite <- app_assoc.
    change (L "NAME=" ++ t ++ nl :: rest)
      with ("N"%char :: L "AME=" ++ t ++ nl :: rest).
    destruct (run_start_prefix prev i "N" (L "AME=" ++ t ++ nl :: rest) Hb)
      as [prev' E]; [intros _; reflexivity |].
    rewrite E. destruct (list_eq_dec ascii_dec _ _); reflexivity.
Qed.

Lemma rendered_nonempty (r : chapter_record) : render_record r <> [].
Proof. destruct r; discriminate. Qed.

(** The search finds the first timestamp record of the start index. *)
Lemma search_start (rs : list chapter_record) (prev : option ascii) :
  Re.at_bol true prev = true -> Forall well_formed rs ->
  match Re.search_from true (Re.Bol :: start_re) prev (render rs) with
  | Some mat =>
      exists h m s ms,
        mat = [padded 2 h; padded 2 m; padded 2 s; padded 3 ms]
        /\ 0 <= h /\ 0 <= m /\ 0 <= s /\ 0 <= ms
        /\ start_time start rs = Some (millis h m s ms)
  | None => start_time start rs = None
  end.
Proof.
  intros Hb Hwf. revert prev Hb.
  induction Hwf as [| r rs Hr Hrs IH]; intros prev Hb.
  - unfold render, unlines. cbn [map List.concat Re.search_from Re.run].
    rewrite Hb. unfold start_re.
    destruct (run_lit true (L "CHAPTER")
                (Re.lit (Py.zfill 2 (str start)) ++ Re.lit (L "=")
                 ++ AVExtractor.timestamp_re) [] [] prev) as [prev1 E1].
    rewrite E1. reflexivity.
  - rewrite render_cons.
    pose proof (run_start_record prev r (render rs) Hb Hr) as Hrun.
    destruct r as [i h m s ms | i n | i t].
    + destruct (Z.eqb_spec i start) as [-> | Hne].
      * rewrite (search_this_line _ _ _ _ Hrun).
        exists h, m, s, ms. cbn [start_time]. rewrite Z.eqb_refl.
        cbn [well_formed] in Hr. repeat split; try reflexivity; lia.
      * rewrite search_next_line;
          [| apply rendered_nonempty | apply rendered_line_safe; exact Hr
           | exact Hrun].
        cbn [start_time].
        destruct (Z.eqb_spec i start) as [E | _]; [contradiction |].
        apply IH. reflexivity.
    + rewrite search_next_line;
        [| apply rendered_nonempty | apply rendered_line_safe; exact Hr
         | exact Hrun].
      cbn [start_time]. apply IH. reflexivity.
    + rewrite search_next_line;
        [| apply rendered_nonempty | apply rendered_line_safe; exact Hr
         | exact Hrun].
      cbn [start_time]. apply IH. reflexivity.
Qed.
End StartEntry.

Lemma offsets_render (start : option Z) (rs : list chapter_record) :
  Forall well_formed rs ->
  AVExtractor.offsets start (render rs)
  = match time_offset start rs with
    | Some toff => Ok (index_offset start, Datetime.normalize (toff * 1000))
    | None => Raise (Exception (L "Start chapter could not be found!"))
    end.
Proof.
  intros Hwf. destruct start as [start |]; [| reflexivity].
  unfold AVExtractor.offsets, Re.search, time_offset, index_offset.
  pose proof (search_start start rs None eq_refl Hwf) as H.
  cbn [List.app] in *.
  destruct (Re.search_from _ _ _ _) as [mat |].
  - destruct H as [h [m [s [ms [-> [Hh [Hm [Hs [Hms E]]]]]]]]].
    rewrite E. cbn [Re.group Nat.sub nth].
    rewrite !int__padded by assumption. cbn [rbind].
    rewrite make_normalize. reflexivity.
  - rewrite H. reflexivity.
Qed.

(** The slicer on a rendered chapter file. *)
Lemma new_chapters_render (start end_ : option Z) (rs : list chapter_record)
    (toff : Z) :
  Forall well_formed rs ->
  time_offset start rs = Some toff ->
  within_a_day start end_ toff rs ->
  AVExtractor.new_chapters start end_ (render rs)
  = Ok (render (slice start end_ toff rs)).
Proof.
  intros Hwf Hoff Hday. unfold AVExtractor.new_chapters.
  rewrite (offsets_render start rs Hwf), Hoff. cbn [rbind fst snd].
  unfold render at 1. rewrite splitlines_unlines.
  - rewrite (chapter_lines_records start end_ (index_offset start) toff rs []
               Hwf Hday).
    reflexivity.
  - apply Forall_forall. intros l Hl. apply in_map_iff in Hl.
    destruct Hl as [r [<- Hr]]. apply rendered_line_safe.
    rewrite Forall_forall in Hwf. apply Hwf. exact Hr.
Qed.

Lemma new_chapters_start_missing (start : Z) (end_ : option Z)
    (rs : list chapter_record) :
  Forall well_formed rs ->
  start_time start rs = None ->
  AVExtractor.new_chapters (Some start) end_ (render rs)
  = Raise (Exception (L "Start chapter could not be found!")).
Proof.
  intros Hwf Hnone. unfold AVExtractor.new_chapters.
  rewrite (offsets_render (Some start) rs Hwf). cbn [time_offset].
  rewrite Hnone. reflexivity.
Qed.

(** ** The slicer on chapter texts as they are written *)

Lemma uint_of_digits (ds : pystr) :
  Forall (fun c => Py.is_digit c = true) ds ->
  exists u, NilEmpty.uint_of_string (string_of_list_ascii ds) = Some u.
Proof.
  induction 1 as [| c ds Hc Hds IH].
  - exists Decimal.Nil. reflexivity.
  - destruct IH as [u Eu]. cbn [string_of_list_ascii NilEmpty.uint_of_string].
    rewrite Eu.
    destruct c as [[] [] [] [] [] [] [] []]; try discriminate Hc;
      eexists; reflexivity.
Qed.

Lemma is_numeral_digits (ds : pystr) :
  is_numeral ds = true ->
  ds <> [] /\ Forall (fun c => Py.is_digit c = true) ds.
Proof.
  unfold is_numeral. rewrite !andb_true_iff. intros [[Hne Hd] _]. split.
  - destruct ds; [discriminate Hne | discriminate].
  - apply Forall_forall. rewrite forallb_forall in Hd. exact Hd.
Qed.

Lemma numeral_test (ds : pystr) :
  is_numeral ds = true ->
  negb (is_empty ds) && forallb Py.is_digit ds = true.
Proof.
  unfold is_numeral. rewrite !andb_true_iff. intros [[Hne Hd] _].
  split; assumption.
Qed.

(** [int] reads a numeral as its number. *)
Lemma int__numeral (ds : pystr) :
  is_numeral ds = true -> int_ ds = Ok (number ds).
Proof.
  intros H. destruct (is_numeral_digits ds H) as [Hne Hd].
  unfold int_, number, Py.int. destruct ds as [| c ds]; [contradiction |].
  destruct (uint_of_digits (c :: ds) Hd) as [u Eu]. rewrite Eu. reflexivity.
Qed.

Lemma number_nonneg (ds : pystr) : 0 <= number ds.
Proof.
  unfold number, Py.int. destruct ds as [| c ds]; [lia |].
  destruct (NilEmpty.uint_of_string _); cbn [option_map]; lia.
Qed.

Lemma numeral_chars (ds : pystr) :
  is_numeral ds = true -> Forall digit_or_minus ds.
Proof.
  intros H. destruct (is_numeral_digits ds H) as [_ Hd].
  eapply Forall_impl; [| exact Hd]. intros c Hc. left. exact Hc.
Qed.

Lemma numeral_free_of (ds : pystr) :
  is_numeral ds = true -> ~ In "="%char ds /\ ~ In "N"%char ds.
Proof.
  intros H. pose proof (numeral_chars ds H) as Hc.
  rewrite Forall_forall in Hc.
  split; intros Hin; apply Hc in Hin; apply numeral_char in Hin; tauto.
Qed.

Lemma line_safe_numeral (ds : pystr) : is_numeral ds = true -> line_safe ds.
Proof.
  intros H. eapply Forall_impl; [| apply (numeral_chars ds H)].
  intros c. apply digit_line_safe.
Qed.

Lemma read_well_formed (l : written_line) :
  well_written l -> well_formed (read_line l).
Proof.
  destruct l as [i h m s ms | i n | i t];
    cbn [well_written read_line well_formed]; intros H.
  - split; [apply number_nonneg | tauto].
  - split; apply number_nonneg.
  - split; [apply number_nonneg | tauto].
Qed.

Lemma written_line_safe (l : written_line) :
  well_written l -> line_safe (write_line l).
Proof.
  destruct l as [i h m s ms | i n | i t]; cbn [well_written write_line];
    intros H;
    repeat first
      [ apply line_safe_app
      | apply line_safe_padded
      | apply line_safe_numeral; tauto
      | apply line_safe_literal; reflexivity
      | apply line_safe_title; tauto ].
Qed.

Lemma written_nonempty (l : written_line) : write_line l <> [].
Proof. destruct l; discriminate. Qed.

Lemma write_cons (l : written_line) (ls : list written_line) :
  write (l :: ls) = write_line l ++ nl :: write ls.
Proof.
  unfold write, unlines. cbn [map List.concat]. rewrite <- app_assoc.
  reflexivity.
Qed.

Section WrittenIndex.
Variable i : pystr.
Hypothesis index_numeral : is_numeral i = true.

(** The common head [^CHAPTER(\d+)] of the three patterns. *)
Lemma run_written_head (ml : bool) (p : Re.regex) (s : pystr) :
  starts_without_digit s -> refuses_digits ml p ->
  exists prev',
    Re.run ml ([Re.Bol] ++ Re.lit (L "CHAPTER")
               ++ [Re.Open; Re.Many1 Re.Digit; Re.Close] ++ p)
      None (L "CHAPTER" ++ i ++ s) [] []
    = Re.run ml p prev' s [] [i].
Proof.
  intros Hs Hp. cbn [List.app Re.run Re.at_bol].
  destruct (run_lit ml (L "CHAPTER")
              (Re.Open :: Re.Many1 Re.Digit :: Re.Close :: p)
              (L "CHAPTER" ++ i ++ s) [] None) as [prev1 E1].
  rewrite E1, strip_prefix_app.
  destruct (is_numeral_digits i index_numeral) as [Hne Hd].
  apply run_digits_group; assumption.
Qed.

Lemma time_re_time_line (h m s ms : Z) :
  0 <= h < 100 -> 0 <= m < 100 -> 0 <= s < 100 -> 0 <= ms < 1000 ->
  Re.match_ AVExtractor.CHAPTERS_TIME_RE (write_line (TimeLine i h m s ms))
  = Some [i; padded 2 h; padded 2 m; padded 2 s; padded 3 ms].
Proof.
  intros Hh Hm Hs Hms.
  unfold Re.match_, AVExtractor.CHAPTERS_TIME_RE, write_line.
  edestruct (run_written_head false) as [prev' E]; [| | rewrite E].
  - apply (starts_without_digit_lit "="). reflexivity.
  - apply (lit_refuses_digits false "="). reflexivity.
  - cbn [Re.lit L list_ascii_of_string map List.app Re.run Re.atom_ok].
    rewrite Ascii.eqb_refl. cbn [map].
    pose proof (run_timestamp false (Some "="%char) h m s ms [] [i]
                  Hh Hm Hs Hms) as R.
    rewrite !app_nil_r in R. exact R.
Qed.

Lemma time_re_name_line (rest : pystr) :
  Re.match_ AVExtractor.CHAPTERS_TIME_RE
    (L "CHAPTER" ++ i ++ L "NAME=" ++ rest) = None.
Proof.
  unfold Re.match_, AVExtractor.CHAPTERS_TIME_RE.
  edestruct (run_written_head false) as [prev' E]; [| | rewrite E].
  - apply (starts_without_digit_lit "N"). reflexivity.
  - apply (lit_refuses_digits false "="). reflexivity.
  - reflexivity.
Qed.

Lemma title_1_re_time_line (rest : pystr) :
  Re.match_ AVExtractor.CHAPTERS_TITLE_1_RE
    (L "CHAPTER" ++ i ++ L "=" ++ rest) = None.
Proof.
  unfold Re.match_, AVExtractor.CHAPTERS_TITLE_1_RE.
  edestruct (run_written_head false) as [prev' E]; [| | rewrite E].
  - apply (starts_without_digit_lit "="). reflexivity.
  - apply (lit_refuses_digits false "N"). reflexivity.
  - reflexivity.
Qed.

Lemma title_2_re_time_line (rest : pystr) :
  Re.match_ AVExtractor.CHAPTERS_TITLE_2_RE
    (L "CHAPTER" ++ i ++ L "=" ++ rest) = None.
Proof.
  unfold Re.match_, AVExtractor.CHAPTERS_TITLE_2_RE.
  edestruct (run_written_head false) as [prev' E]; [| | rewrite E].
  - apply (starts_without_digit_lit "="). reflexivity.
  - apply (lit_refuses_digits false "N"). reflexivity.
  - reflexivity.
Qed.

Lemma title_1_re_name_line (t : pystr) :
  line_safe t ->
  Re.match_ AVExtractor.CHAPTERS_TITLE_1_RE
    (L "CHAPTER" ++ i ++ L "NAME=" ++ t)
  = match strip_prefix (L "Chapter ") t with
    | Some rest =>
        if negb (is_empty rest) && forallb Py.is_digit rest
        then Some [i; rest]
        else None
    | None => None
    end.
Proof.
  intros Ht.
  unfold Re.match_, AVExtractor.CHAPTERS_TITLE_1_RE.
  edestruct (run_written_head false) as [prev' E]; [| | rewrite E].
  - apply (starts_without_digit_lit "N"). reflexivity.
  - apply (lit_refuses_digits false "N"). reflexivity.
  - change (L "NAME=Chapter ") with (L "NAME=" ++ L "Chapter ").
    rewrite lit_app, <- app_assoc.
    destruct (run_lit false (L "NAME=")
                (Re.lit (L "Chapter ")
                 ++ [Re.Open; Re.Many1 Re.Digit; Re.Close; Re.Eol])
                (L "NAME=" ++ t) [i] prev') as [prev1 E1].
    rewrite E1, strip_prefix_app.
    destruct (run_lit false (L "Chapter ")
                [Re.Open; Re.Many1 Re.Digit; Re.Close; Re.Eol]
                t [i] prev1) as [prev2 E2].
    rewrite E2.
    destruct (strip_prefix (L "Chapter ") t) as [rest |] eqn:Es;
      [| reflexivity].
    rewrite run_number_eol.
    + destruct (_ && _); reflexivity.
    + clear - Ht Es. revert t Ht Es.
      generalize (L "Chapter "). intros x. induction x as [| c x IH];
        intros t Ht Es.
      * cbn in Es. injection Es as <-. exact Ht.
      * destruct t as [| c' t']; [discriminate Es |].
        cbn in Es. destruct (Ascii.eqb c c'); [| discriminate Es].
        inversion Ht; subst. apply (IH t'); assumption.
Qed.

Lemma title_2_re_name_line (t : pystr) :
  line_safe t ->
  Re.match_ AVExtractor.CHAPTERS_TITLE_2_RE
    (L "CHAPTER" ++ i ++ L "NAME=" ++ t)
  = Some [i; t].
Proof.
  intros Ht.
  unfold Re.match_, AVExtractor.CHAPTERS_TITLE_2_RE.
  edestruct (run_written_head false) as [prev' E]; [| | rewrite E].
  - apply (starts_without_digit_lit "N"). reflexivity.
  - apply (lit_refuses_digits false "N"). reflexivity.
  - destruct (run_lit false (L "NAME=")
                [Re.Open; Re.Many0 Re.Dot; Re.Close; Re.Eol]
                (L "NAME=" ++ t) [i] prev') as [prev1 E1].
    rewrite E1, strip_prefix_app.
    apply run_rest_of_line. exact Ht.
Qed.
End WrittenIndex.

Section WrittenLine.
Variables start end_ : option Z.
Variables ioff toff : Z.

Let offset_time := Datetime.normalize (toff * 1000).

Lemma chapter_line_time_line (i : pystr) (h m s ms : Z) :
  well_written (TimeLine i h m s ms) ->
  (within start end_ (number i) = true ->
   0 <= millis h m s ms - toff < day_ms) ->
  AVExtractor.chapter_line start end_ ioff offset_time
    (write_line (TimeLine i h m s ms))
  = Ok (if within start end_ (number i)
        then render_record (rebase ioff toff (Timestamp (number i) h m s ms))
             ++ [nl]
        else []).
Proof.
  intros [Hi [Hh [Hm [Hs Hms]]]] Hday.
  unfold AVExtractor.chapter_line, AVExtractor.match_in_range.
  rewrite (time_re_time_line i Hi h m s ms Hh Hm Hs Hms).
  cbn [Re.group Nat.sub nth rbind].
  rewrite (int__numeral i Hi). cbn [rbind].
  rewrite in_range_within.
  destruct (within start end_ (number i)) eqn:Ew;
    cbn [Re.group Nat.sub nth rbind].
  - rewrite (int__numeral i Hi), (int__padded 2 h), (int__padded 2 m),
      (int__padded 2 s), (int__padded 3 ms) by lia.
    cbn [rbind]. f_equal.
    rewrite make_normalize.
    destruct (sub_fields (millis h m s ms) toff (Hday eq_refl))
      as [E1 [E2 [E3 E4]]].
    fold offset_time in E1, E2, E3, E4.
    rewrite E1, E2, E3, E4.
    unfold rebase, render_record, padded, str, Str_int.
    repeat rewrite <- app_assoc. reflexivity.
  - unfold write_line.
    rewrite (title_1_re_time_line i Hi), (title_2_re_time_line i Hi).
    reflexivity.
Qed.

Lemma chapter_line_label_line (i n : pystr) :
  well_written (LabelLine i n) ->
  AVExtractor.chapter_line start end_ ioff offset_time
    (write_line (LabelLine i n))
  = Ok (if within start end_ (number i)
        then render_record (rebase ioff toff (Label (number i) (number n)))
             ++ [nl]
        else []).
Proof.
  intros [Hi Hn].
  assert (Hsafe : line_safe (L "Chapter " ++ n))
    by (apply line_safe_app;
        [apply line_safe_literal; reflexivity
        | apply line_safe_numeral; exact Hn]).
  unfold AVExtractor.chapter_line, AVExtractor.match_in_range, write_line.
  change (L "NAME=Chapter " ++ n) with (L "NAME=" ++ (L "Chapter " ++ n)).
  rewrite (time_re_name_line i Hi).
  rewrite (title_1_re_name_line i Hi _ Hsafe).
  rewrite strip_prefix_app, (numeral_test n Hn).
  rewrite (title_2_re_name_line i Hi _ Hsafe).
  cbn [Re.group Nat.sub nth rbind].
  rewrite (int__numeral i Hi). cbn [rbind].
  rewrite in_range_within.
  destruct (within start end_ (number i)) eqn:Ew;
    cbn [Re.group Nat.sub nth rbind].
  - rewrite (int__numeral i Hi), (int__numeral n Hn).
    cbn [rbind]. f_equal.
    unfold rebase, render_record, padded, str, Str_int.
    repeat rewrite <- app_assoc. reflexivity.
  - reflexivity.
Qed.

Lemma chapter_line_title_line (i t : pystr) :
  well_written (TitleLine i t) ->
  AVExtractor.chapter_line start end_ ioff offset_time
    (write_line (TitleLine i t))
  = Ok (if within start end_ (number i)
        then render_record (rebase ioff toff (Title (number i) t)) ++ [nl]
        else []).
Proof.
  intros [Hi [Hsafe Hl]]. apply line_safe_title in Hsafe.
  unfold AVExtractor.chapter_line, AVExtractor.match_in_range, write_line.
  rewrite (time_re_name_line i Hi).
  rewrite (title_1_re_name_line i Hi t Hsafe).
  replace (match strip_prefix (L "Chapter ") t with
           | Some rest =>
               if negb (is_empty rest) && forallb Py.is_digit rest
               then Some [i; rest]
               else None
           | None => None
           end) with (@None (list pystr)).
  2: { unfold is_label_title in Hl.
       destruct (strip_prefix (L "Chapter ") t); [| reflexivity].
       rewrite Hl. reflexivity. }
  rewrite (title_2_re_name_line i Hi t Hsafe).
  cbn [Re.group Nat.sub nth rbind].
  rewrite (int__numeral i Hi). cbn [rbind].
  rewrite in_range_within.
  destruct (within start end_ (number i)) eqn:Ew;
    cbn [Re.group Nat.sub nth rbind].
  - rewrite (int__numeral i Hi).
    cbn [rbind]. f_equal.
    unfold rebase, render_record, padded, str, Str_int.
    repeat rewrite <- app_assoc. reflexivity.
  - reflexivity.
Qed.

Lemma chapter_line_written (l : written_line) :
  well_written l ->
  (forall i h m s ms, read_line l = Timestamp i h m s ms ->
                      within start end_ i = true ->
                      0 <= millis h m s ms - toff < day_ms) ->
  AVExtractor.chapter_line start end_ ioff offset_time (write_line l)
  = Ok (if within start end_ (index_of (read_line l))
        then render_record (rebase ioff toff (read_line l)) ++ [nl]
        else []).
Proof.
  intros Hwf Hday. destruct l as [i h m s ms | i n | i t].
  - apply chapter_line_time_line; [exact Hwf |].
    intros Hw. apply (Hday (number i) h m s ms eq_refl Hw).
  - apply chapter_line_label_line. exact Hwf.
  - apply chapter_line_title_line. exact Hwf.
Qed.

(** The loop over the lines. *)
Lemma chapter_lines_written (ls : list written_line) (acc : pystr) :
  Forall well_written ls ->
  (forall i h m s ms, In (Timestamp i h m s ms) (map read_line ls) ->
                      within start end_ i = true ->
                      0 <= millis h m s ms - toff < day_ms) ->
  AVExtractor.chapter_lines start end_ ioff offset_time
    (map write_line ls) acc
  = Ok (acc
        ++ render (map (rebase ioff toff)
                     (filter (fun r => within start end_ (index_of r))
                        (map read_line ls)))).
Proof.
  intros Hwf. revert acc.
  induction Hwf as [| l ls Hl Hls IH]; intros acc Hday.
  - cbn. rewrite app_nil_r. reflexivity.
  - cbn [map AVExtractor.chapter_lines].
    rewrite (chapter_line_written l Hl).
    + cbn [rbind]. rewrite IH.
      * f_equal. cbn [filter].
        destruct (within start end_ (index_of (read_line l))).
        -- cbn [map]. unfold render, unlines. cbn [map List.concat].
           repeat rewrite <- app_assoc. reflexivity.
        -- rewrite app_nil_r. reflexivity.
      * intros i h m s ms Hin. apply Hday. right. exact Hin.
    + intros i h m s ms E. apply Hday. left. exact E.
Qed.
End WrittenLine.

Section WrittenStart.
Variable start : Z.

(** The pattern of line 145. *)
Let start_re : Re.regex :=
  Re.lit (L "CHAPTER") ++ Re.lit (Py.zfill 2 (str start)) ++ Re.lit (L "=")
  ++ AVExtractor.timestamp_re.

Lemma run_start_prefix_written (prev : option ascii) (i : pystr) (c : ascii)
    (t : pystr) :
  is_numeral i = true ->
  Re.at_bol true prev = true ->
  (c <> "="%char -> c = "N"%char) ->
  exists prev',
    Re.run true (Re.Bol :: start_re) prev (L "CHAPTER" ++ i ++ c :: t) [] []
    = if list_eq_dec ascii_dec (padded 2 start) i
      then if Ascii.eqb "=" c
           then Re.run true AVExtractor.timestamp_re prev' t [] []
           else None
      else None.
Proof.
  intros Hi Hb Hc. cbn [Re.run]. rewrite Hb. unfold start_re.
  destruct (run_lit true (L "CHAPTER")
              (Re.lit (Py.zfill 2 (str start)) ++ Re.lit (L "=")
               ++ AVExtractor.timestamp_re)
              (L "CHAPTER" ++ i ++ c :: t) [] prev) as [prev1 E1].
  rewrite E1, strip_prefix_app. clear E1.
  rewrite app_assoc, <- lit_app.
  change (Py.zfill 2 (str start) ++ L "=") with (padded 2 start ++ ["="%char]).
  destruct (run_lit true (padded 2 start ++ ["="%char])
              AVExtractor.timestamp_re (i ++ c :: t) [] prev1)
    as [prev2 E2].
  rewrite E2. clear E2.
  destruct (padded_free_of 2 start) as [Hs1 Hs2].
  destruct (numeral_free_of i Hi) as [Hi1 Hi2].
  rewrite strip_prefix_numeral; [| exact Hs1 | exact Hi1 |].
  - exists prev2.
    destruct (list_eq_dec ascii_dec _ _); [| reflexivity].
    destruct (Ascii.eqb "=" c); reflexivity.
  - intros Hne. rewrite (Hc Hne). exact Hs2.
Qed.

Lemma pystr_eqb_sym (a b : pystr) : pystr_eqb a b = pystr_eqb b a.
Proof.
  unfold pystr_eqb.
  destruct (list_eq_dec ascii_dec a b), (list_eq_dec ascii_dec b a);
    congruence.
Qed.

Lemma run_start_line (prev : option ascii) (l : written_line)
    (rest : pystr) :
  Re.at_bol true prev = true -> well_written l ->
  Re.run true (Re.Bol :: start_re) prev (write_line l ++ nl :: rest) [] []
  = match l with
    | TimeLine i h m s ms =>
        if pystr_eqb i (padded 2 start)
        then Some [padded 2 h; padded 2 m; padded 2 s; padded 3 ms]
        else None
    | _ => None
    end.
Proof.
  intros Hb Hwf. destruct l as [i h m s ms | i n | i t];
    cbn [write_line well_written] in *.
  - destruct Hwf as [Hi [Hh [Hm [Hs Hms]]]].
    repeat rewrite <- app_assoc.
    change (L "=" ++ padded 2 h ++ L ":" ++ padded 2 m ++ L ":" ++ padded 2 s
            ++ L "." ++ padded 3 ms ++ nl :: rest)
      with ("="%char :: padded 2 h ++ L ":" ++ padded 2 m ++ L ":"
            ++ padded 2 s ++ L "." ++ padded 3 ms ++ nl :: rest).
    destruct (run_start_prefix_written prev i "="
                (padded 2 h ++ L ":" ++ padded 2 m ++ L ":" ++ padded 2 s
                 ++ L "." ++ padded 3 ms ++ nl :: rest) Hi Hb) as [prev' E];
      [intros H; contradiction |].
    rewrite E. clear E.
    rewrite pystr_eqb_sym. unfold pystr_eqb.
    destruct (list_eq_dec ascii_dec _ _) as [_ | _]; [| reflexivity].
    cbn [Ascii.eqb Bool.eqb].
    rewrite (run_timestamp true prev' h m s ms (nl :: rest) [] Hh Hm Hs Hms).
    reflexivity.
  - destruct Hwf as [Hi Hn].
    repeat rewrite <- app_assoc.
    change (L "NAME=Chapter " ++ n ++ nl :: rest)
      with ("N"%char :: L "AME=Chapter " ++ n ++ nl :: rest).
    destruct (run_start_prefix_written prev i "N"
                (L "AME=Chapter " ++ n ++ nl :: rest) Hi Hb)
      as [prev' E]; [intros _; reflexivity |].
    rewrite E. destruct (list_eq_dec ascii_dec _ _); reflexivity.
  - destruct Hwf as [Hi _].
    repeat rewrite <- app_assoc.
    change (L "NAME=" ++ t ++ nl :: rest)
      with ("N"%char :: L "AME=" ++ t ++ nl :: rest).
    destruct (run_start_prefix_written prev i "N"
                (L "AME=" ++ t ++ nl :: rest) Hi Hb)
      as [prev' E]; [intros _; reflexivity |].
    rewrite E. destruct (list_eq_dec ascii_dec _ _); reflexivity.
Qed.

(** The search finds the first time line whose index is written as the
    pattern has it. *)
Lemma search_start_written (ls : list written_line) (prev : option ascii) :
  Re.at_bol true prev = true -> Forall well_written ls ->
  match Re.search_from true (Re.Bol :: start_re) prev (write ls) with
  | Some mat =>
      exists h m s ms,
        mat = [padded 2 h; padded 2 m; padded 2 s; padded 3 ms]
        /\ 0 <= h /\ 0 <= m /\ 0 <= s /\ 0 <= ms
        /\ written_start_time start ls = Some (millis h m s ms)
  | None => written_start_time start ls = None
  end.
Proof.
  intros Hb Hwf. revert prev Hb.
  induction Hwf as [| l ls Hl Hls IH]; intros prev Hb.
  - unfold write, unlines. cbn [map List.concat Re.search_from Re.run].
    rewrite Hb. unfold start_re.
    destruct (run_lit true (L "CHAPTER")
                (Re.lit (Py.zfill 2 (str start)) ++ Re.lit (L "=")
                 ++ AVExtractor.timestamp_re) [] [] prev) as [prev1 E1].
    rewrite E1. reflexivity.
  - rewrite write_cons.
    pose proof (run_start_line prev l (write ls) Hb Hl) as Hrun.
    destruct l as [i h m s ms | i n | i t].
    + cbn [written_start_time].
      destruct (pystr_eqb i (padded 2 start)).
      * rewrite (search_this_line _ _ _ _ Hrun).
        exists h, m, s, ms.
        cbn [well_written] in Hl. repeat split; try reflexivity; lia.
      * rewrite search_next_line;
          [| apply written_nonempty | apply written_line_safe; exact Hl
           | exact Hrun].
        apply IH. reflexivity.
    + rewrite search_next_line;
        [| apply written_nonempty | apply written_line_safe; exact Hl
         | exact Hrun].
      cbn [written_start_time]. apply IH. reflexivity.
    + rewrite search_next_line;
        [| apply written_nonempty | apply written_line_safe; exact Hl
         | exact Hrun].
      cbn [written_start_time]. apply IH. reflexivity.
Qed.
End WrittenStart.

Lemma offsets_written (start : option Z) (ls : list written_line) :
  Forall well_written ls ->
  AVExtractor.offsets start (write ls)
  = match written_time_offset start ls with
    | Some toff => Ok (index_offset start, Datetime.normalize (toff * 1000))
    | None => Raise (Exception (L "Start chapter could not be found!"))
    end.
Proof.
  intros Hwf. destruct start as [start |]; [| reflexivity].
  unfold AVExtractor.offsets, Re.search, written_time_offset, index_offset.
  pose proof (search_start_written start ls None eq_refl Hwf) as H.
  cbn [List.app] in *.
  destruct (Re.search_from _ _ _ _) as [mat |].
  - destruct H as [h [m [s [ms [-> [Hh [Hm [Hs [Hms E]]]]]]]]].
    rewrite E. cbn [Re.group Nat.sub nth].
    rewrite !int__padded by assumption. cbn [rbind].
    rewrite make_normalize. reflexivity.
  - rewrite H. reflexivity.
Qed.

(** The slicer on a chapter text as it is written. *)
Lemma new_chapters_written (start end_ : option Z) (ls : list written_line)
    (toff : Z) :
  Forall well_written ls ->
  written_time_offset start ls = Some toff ->
  within_a_day start end_ toff (map read_line ls) ->
  AVExtractor.new_chapters start end_ (write ls)
  = Ok (render (slice start end_ toff (map read_line ls))).
Proof.
  intros Hwf Hoff Hday. unfold AVExtractor.new_chapters.
  rewrite (offsets_written start ls Hwf), Hoff. cbn [rbind fst snd].
  unfold write at 1. rewrite splitlines_unlines.
  - rewrite (chapter_lines_written start end_ (index_offset start) toff ls []
               Hwf Hday).
    reflexivity.
  - apply Forall_forall. intros x Hx. apply in_map_iff in Hx.
    destruct Hx as [l [<- Hl]]. apply written_line_safe.
    rewrite Forall_forall in Hwf. apply Hwf. exact Hl.
Qed.

Lemma new_chapters_written_start_missing (start : Z) (end_ : option Z)
    (ls : list written_line) :
  Forall well_written ls ->
  written_time_offset (Some start) ls = None ->
  AVExtractor.new_chapters (Some start) end_ (write ls)
  = Raise (Exception (L "Start chapter could not be found!")).
Proof.
  intros Hwf Hnone. unfold AVExtractor.new_chapters.
  rewrite (offsets_written (Some start) ls Hwf), Hnone. reflexivity.
Qed.

(** ** Slicing *)

Lemma clock_fields (h m s ms : Z) :
  0 <= h -> 0 <= m < 60 -> 0 <= s < 60 -> 0 <= ms < 1000 ->
  let d := millis h m s ms in
  d / 3600000 = h /\ d / 60000 mod 60 = m /\ d / 1000 mod 60 = s
  /\ d mod 1000 = ms.
Proof.
  intros Hh Hm Hs Hms. cbv zeta. unfold millis.
  repeat split; Z.div_mod_to_equations; lia.
Qed.

Lemma rebase_nothing (r : chapter_record) :
  well_formed r -> clock_time r -> rebase 0 0 r = r.
Proof.
  destruct r as [i h m s ms | i n | i t]; cbn [well_formed clock_time rebase].
  - intros [Hi [Hh [Hm [Hs Hms]]]] [Hh' [Hm' Hs']].
    rewrite !Z.sub_0_r.
    destruct (clock_fields h m s ms) as [E1 [E2 [E3 E4]]]; try lia.
    rewrite E1, E2, E3, E4. reflexivity.
  - intros _ _. rewrite !Z.sub_0_r. reflexivity.
  - intros _ _. rewrite !Z.sub_0_r. reflexivity.
Qed.

Lemma slice_nothing (rs : list chapter_record) :
  Forall well_formed rs -> Forall clock_time rs -> slice None None 0 rs = rs.
Proof.
  intros Hwf Hck. unfold slice. cbn [index_offset].
  induction Hwf as [| r rs Hr Hrs IH]; [reflexivity |].
  inversion Hck as [| r' rs' Hc Hcs]; subst.
  cbn [filter within andb map]. rewrite rebase_nothing by assumption.
  f_equal. apply IH. exact Hcs.
Qed.

Lemma clock_within_a_day (rs : list chapter_record) :
  Forall well_formed rs -> Forall clock_time rs ->
  within_a_day None None 0 rs.
Proof.
  intros Hwf Hck i h m s ms Hin _.
  rewrite Forall_forall in Hwf, Hck.
  specialize (Hwf _ Hin). specialize (Hck _ Hin).
  cbn [well_formed clock_time] in Hwf, Hck.
  unfold millis, day_ms. lia.
Qed.

Lemma six_chapters_well_formed : Forall well_formed six_chapters.
Proof.
  unfold six_chapters.
  repeat (constructor; [cbn; repeat split; try reflexivity; lia |]).
  constructor.
Defined.

Lemma six_chapters_clock_time : Forall clock_time six_chapters.
Proof.
  unfold six_chapters.
  repeat (constructor; [cbn; repeat split; try exact I; lia |]).
  constructor.
Defined.

Lemma six_chapters_within_a_day :
  within_a_day (Some 3) (Some 5) 1200500 six_chapters.
Proof.
  intros i h m s ms Hin Hw. unfold six_chapters in Hin. cbn [In] in Hin.
  repeat (destruct Hin as [Hin | Hin];
          [try discriminate Hin; injection Hin as <- <- <- <- <-;
           try discriminate Hw; unfold millis, day_ms; lia |]).
  contradiction.
Defined.

(** A range that starts past the last chapter: nothing lies in it, and
    the slicer raises, as the specification prescribes for a start entry
    that is missing. *)
Lemma slicing_from_missing_start :
  filter (fun r => within (Some 7) None (index_of r)) six_chapters = []
  /\ AVExtractor.new_chapters (Some 7) None (render six_chapters)
     = Raise (Exception (L "Start chapter could not be found!")).
Proof. split; vm_compute; reflexivity. Qed.


(** The start entry is looked for with its index written as
    [str(start).zfill(2)]: an entry of index 3 that is written [003] is
    not found, though slicing without a range reads it as chapter 3. *)
Example wide_start_index_not_found :
  AVExtractor.new_chapters (Some 3) None wide_start_index
  = Raise (Exception (L "Start chapter could not be found!"))
  /\ AVExtractor.new_chapters None None wide_start_index
     = Ok (unlines [L "CHAPTER03=00:20:00.000"; L "CHAPTER03NAME=Chapter 03"]).
Proof. split; vm_compute; reflexivity. Qed.

Lemma six_chapters_written_well_written :
  Forall well_written six_chapters_written.
Proof.
  unfold six_chapters_written.
  repeat (constructor; [cbn; repeat split; try reflexivity; lia |]).
  constructor.
Defined.

Lemma six_chapters_written_within_a_day :
  within_a_day (Some 3) (Some 5) 1200500 (map read_line six_chapters_written).
Proof.
  intros i h m s ms Hin Hw. cbv in Hin.
  repeat (destruct Hin as [Hin | Hin];
          [try discriminate Hin; injection Hin as <- <- <- <- <-;
           try discriminate Hw; unfold millis, day_ms; lia |]).
  contradiction.
Defined.




(** Nor is a timestamp of 24 hours or more given back: it is written
    modulo a day. *)
Example midnight_rewritten :
  AVExtractor.new_chapters None None (unlines [L "CHAPTER01=24:00:00.000"])
  = Ok (unlines [L "CHAPTER01=00:00:00.000"]).
Proof. vm_compute. reflexivity. Qed.

(** Two runs of digits that are each followed by another character. *)
Lemma digit_prefix_unique (x y : pystr) (c d : ascii) (r r' : pystr) :
  Forall (fun a => Py.is_digit a = true) x ->
  Forall (fun a => Py.is_digit a = true) y ->
  Py.is_digit c = false -> Py.is_digit d = false ->
  x ++ c :: r = y ++ d :: r' -> x = y /\ c :: r = d :: r'.
Proof.
  intros Hx. revert y. induction Hx as [| a x Ha Hx IH]; intros y Hy Hc Hd E.
  - destruct y as [| b y]; [split; [reflexivity | exact E] |].
    cbn in E. injection E as -> _. inversion Hy; subst. congruence.
  - destruct y as [| b y].
    + cbn in E. injection E as -> _. congruence.
    + cbn in E. injection E as -> E. inversion Hy; subst.
      destruct (IH y) as [-> E']; try assumption. split; [reflexivity | exact E'].
Qed.

Lemma shortest_form_eq (ds : pystr) :
  shortest_form ds = true <-> padded 2 (number ds) = ds.
Proof.
  unfold shortest_form. rewrite pystr_eqb_eq. split; intros H; symmetry; exact H.
Qed.

(** The lines that the slicer gives back as they are. *)
Lemma slicer_form_line (l : written_line) :
  well_written l ->
  render_record (read_line l) = write_line l <-> slicer_form l = true.
Proof.
  destruct l as [i h m s ms | i n | i t];
    cbn [well_written read_line render_record write_line slicer_form].
  - intros [Hi _]. rewrite shortest_form_eq. split.
    + intros E. apply app_inv_head in E.
      destruct (digit_prefix_unique (padded 2 (number i)) i "=" "="
                  (padded 2 h ++ L ":" ++ padded 2 m ++ L ":" ++ padded 2 s
                   ++ L "." ++ padded 3 ms)
                  (padded 2 h ++ L ":" ++ padded 2 m ++ L ":" ++ padded 2 s
                   ++ L "." ++ padded 3 ms)) as [E' _];
        [apply padded_digits; apply number_nonneg
        | apply is_numeral_digits; exact Hi | reflexivity | reflexivity
        | exact E | exact E'].
    + intros E. rewrite E. reflexivity.
  - intros [Hi Hn]. rewrite andb_true_iff, !shortest_form_eq. split.
    + intros E. apply app_inv_head in E.
      destruct (digit_prefix_unique (padded 2 (number i)) i "N" "N"
                  (L "AME=Chapter " ++ padded 2 (number n))
                  (L "AME=Chapter " ++ n)) as [E1 E2];
        [apply padded_digits; apply number_nonneg
        | apply is_numeral_digits; exact Hi | reflexivity | reflexivity
        | exact E |].
      split; [exact E1 |].
      change ("N"%char :: L "AME=Chapter " ++ padded 2 (number n))
        with (L "NAME=Chapter " ++ padded 2 (number n)) in E2.
      change ("N"%char :: L "AME=Chapter " ++ n)
        with (L "NAME=Chapter " ++ n) in E2.
      apply app_inv_head in E2. exact E2.
    + intros [E1 E2]. rewrite E1, E2. reflexivity.
  - intros [Hi _]. rewrite shortest_form_eq. split.
    + intros E. apply app_inv_head in E.
      destruct (digit_prefix_unique (padded 2 (number i)) i "N" "N"
                  (L "AME=" ++ t) (L "AME=" ++ t)) as [E' _];
        [apply padded_digits; apply number_nonneg
        | apply is_numeral_digits; exact Hi | reflexivity | reflexivity
        | exact E | exact E'].
    + intros E. rewrite E. reflexivity.
Qed.

Lemma unlines_inj (ls ls' : list pystr) :
  Forall line_safe ls -> Forall line_safe ls' ->
  unlines ls = unlines ls' -> ls = ls'.
Proof.
  intros H H' E.
  rewrite <- (splitlines_unlines ls H), <- (splitlines_unlines ls' H'), E.
  reflexivity.
Qed.

Lemma rendered_as_written (ls : list written_line) :
  Forall well_written ls ->
  render (map read_line ls) = write ls
  <-> Forall (fun l => slicer_form l = true) ls.
Proof.
  intros Hwf. unfold render, write. rewrite map_map. split.
  - intros E. apply unlines_inj in E.
    + induction Hwf as [| l ls Hl Hls IH]; [constructor |].
      cbn [map] in E. injection E as E1 E2.
      constructor; [apply (slicer_form_line l Hl); exact E1 | exact (IH E2)].
    + apply Forall_forall. intros x Hx. apply in_map_iff in Hx.
      destruct Hx as [l [<- Hl]]. apply rendered_line_safe.
      apply read_well_formed. rewrite Forall_forall in Hwf. apply Hwf.
      exact Hl.
    + apply Forall_forall. intros x Hx. apply in_map_iff in Hx.
      destruct Hx as [l [<- Hl]]. apply written_line_safe.
      rewrite Forall_forall in Hwf. apply Hwf. exact Hl.
  - intros Hs. f_equal.
    induction Hwf as [| l ls Hl Hls IH]; [reflexivity |].
    inversion Hs as [| l' ls' Hsl Hss]; subst.
    cbn [map]. f_equal; [apply (slicer_form_line l Hl); exact Hsl | exact (IH Hss)].
Qed.

Lemma read_all_well_formed (ls : list written_line) :
  Forall well_written ls -> Forall well_formed (map read_line ls).
Proof.
  intros H. apply Forall_forall. intros r Hr. apply in_map_iff in Hr.
  destruct Hr as [l [<- Hl]]. apply read_well_formed.
  rewrite Forall_forall in H. apply H. exact Hl.
Qed.


Lemma six_chapters_padded_well_written :
  Forall well_written six_chapters_padded.
Proof.
  unfold six_chapters_padded.
  repeat (constructor; [cbn; repeat split; try reflexivity; lia |]).
  constructor.
Defined.

Lemma six_chapters_padded_clock_time :
  Forall clock_time (map read_line six_chapters_padded).
Proof.
  unfold six_chapters_padded. cbn [map read_line].
  repeat (constructor; [cbn; repeat split; try exact I; lia |]).
  constructor.
Defined.

Lemma six_chapters_padded_slicer_form :
  Forall (fun l => slicer_form l = true) six_chapters_padded.
Proof.
  unfold six_chapters_padded.
  repeat (constructor; [reflexivity |]).
  constructor.
Defined.


(** * Further properties *)

(** ** What a run emits *)

Section Emits.
Context {A B : Type}.
Variable P : event -> Prop.

Lemma emits_ret (a : A) : emits P (ret a).
Proof.
  intros s. exists []. cbn. rewrite app_nil_r. split; [reflexivity | constructor].
Qed.

Lemma emits_raise (e : exn) : emits P (@raise A e).
Proof.
  intros s. exists []. cbn. rewrite app_nil_r. split; [reflexivity | constructor].
Qed.

Lemma emits_return_ (z : Z) : emits P (@return_ A z).
Proof.
  intros s. exists []. cbn. rewrite app_nil_r. split; [reflexivity | constructor].
Qed.

Lemma emits_lift (r : result A) : emits P (lift r).
Proof. destruct r; [apply emits_ret | apply emits_raise]. Qed.

Lemma emits_bind (c : M A) (k : A -> M B) :
  emits P c -> (forall a, emits P (k a)) -> emits P (bind c k).
Proof.
  intros Hc Hk s. unfold bind.
  destruct (Hc s) as [t [Ht Hp]].
  destruct (c s) as [[a | e | z] s'] eqn:E; cbn in *.
  - destruct (Hk a s') as [t' [Ht' Hp']].
    exists (t ++ t'). rewrite Ht', Ht, app_assoc.
    split; [reflexivity | apply Forall_app; split; assumption].
  - exists t. split; assumption.
  - exists t. split; assumption.
Qed.
End Emits.

Lemma emits_emit (P : event -> Prop) (e : event) : P e -> emits P (emit e).
Proof.
  intros He s. exists [e]. cbn. split; [reflexivity |].
  constructor; [exact He | constructor].
Qed.

Lemma emits_print_end (P : event -> Prop) (args : list pystr) (end_ : pystr) :
  (forall t, P (Print t)) -> emits P (print_end args end_).
Proof. intros H. apply emits_emit. apply H. Qed.

Lemma emits_print (P : event -> Prop) (args : list pystr) :
  (forall t, P (Print t)) -> emits P (print args).
Proof. intros H. apply emits_emit. apply H. Qed.

Lemma emits_Popen (P : event -> Prop) (w : world) (cmd : list pystr) :
  (forall pid c, P (Launch pid c)) -> emits P (Subprocess.Popen w cmd).
Proof.
  intros H s. unfold Subprocess.Popen.
  exists [Launch (launched s) cmd].
  destruct (spawns w (launched s)); cbn;
    (split; [reflexivity | constructor; [apply H | constructor]]).
Qed.

Lemma emits_weaken {A} (P Q : event -> Prop) (c : M A) :
  (forall e, P e -> Q e) -> emits P c -> emits Q c.
Proof.
  intros H Hc s. destruct (Hc s) as [t [Ht Hp]]. exists t.
  split; [exact Ht |]. eapply Forall_impl; [exact H | exact Hp].
Qed.

Create HintDb emits.
#[export] Hint Resolve emits_ret emits_raise emits_return_ emits_lift
  emits_emit emits_print_end emits_print emits_Popen : emits.

(** What a computation emits follows its structure. *)
Ltac emits_step :=
  match goal with
  | |- emits _ (bind _ _) => apply emits_bind; [| intros ?]
  | |- emits _ (if ?b then _ else _) => destruct b
  | |- emits _ (match ?x with _ => _ end) => destruct x
  | |- emits _ _ => solve [auto with emits]
  end.

Ltac emits := repeat emits_step.

Section EmitsStages.
Variable w : world.
Variable P : event -> Prop.
Hypothesis P_launch : forall pid cmd, P (Launch pid cmd).
Hypothesis P_close : forall pid, P (CloseStdout pid).
Hypothesis P_wait : forall pid, P (Wait pid).
Hypothesis P_print : forall t, P (Print t).
Hypothesis P_write : forall path content, P (WriteFile path content).
Hypothesis P_mkdir : forall path, P (Mkdir path).
Hypothesis P_chdir : forall path, P (Chdir path).
Hypothesis P_rmtree : forall path, P (Rmtree path).

Lemma emits_wait (pid : nat) : emits P (Subprocess.wait w pid).
Proof. unfold Subprocess.wait. emits. Qed.

Hint Resolve emits_wait : emits.

Lemma emits_check_call (cmd : list pystr) :
  emits P (Subprocess.check_call w cmd).
Proof. unfold Subprocess.check_call. emits. Qed.

Lemma emits_check_output (cmd : list pystr) :
  emits P (Subprocess.check_output w cmd).
Proof. unfold Subprocess.check_output. emits. Qed.

Lemma emits_transcode (dec_cmd enc_cmd : list pystr) :
  emits P (transcode w dec_cmd enc_cmd).
Proof. unfold transcode. emits. Qed.

Hint Resolve emits_check_call emits_check_output emits_transcode : emits.

Lemma emits_init path disc_type disc_title chap_start chap_end maid msid :
  emits P (AVExtractor.__init__ w path disc_type disc_title chap_start chap_end
             maid msid).
Proof. unfold AVExtractor.__init__. emits. Qed.

Lemma emits_extract_chapters self filename :
  emits P (AVExtractor.extract_chapters w self filename).
Proof. unfold AVExtractor.extract_chapters. emits. Qed.

Lemma emits_extract_attachments self directory :
  emits P (AVExtractor.extract_attachments w self directory).
Proof. unfold AVExtractor.extract_attachments. emits. Qed.

Lemma emits_extract_subtitles self filename :
  emits P (AVExtractor.extract_subtitles w self filename).
Proof. unfold AVExtractor.extract_subtitles. emits. Qed.

Lemma emits_extract_audio self filename :
  emits P (AVExtractor.extract_audio w self filename).
Proof. unfold AVExtractor.extract_audio. emits. Qed.

Lemma emits_mux_matroska_mkv out_path title chapters attachments vid_file
    vid_aspect vid_pixaspect vid_displaysize aud_file sub_file vid_lang
    aud_lang sub_lang :
  emits P (mux_matroska_mkv w out_path title chapters attachments vid_file
             vid_aspect vid_pixaspect vid_displaysize aud_file sub_file
             vid_lang aud_lang sub_lang).
Proof. unfold mux_matroska_mkv. emits. Qed.

Lemma emits_mux_mp4 out_path chapters vid_file vid_pixaspect aud_file vid_lang
    aud_lang :
  emits P (mux_mp4 w out_path chapters vid_file vid_pixaspect aud_file
             vid_lang aud_lang).
Proof. unfold mux_mp4. emits. Qed.

Lemma emits_transcode_video label stats two_pass dec_cmd build :
  emits P (transcode_video w label stats two_pass dec_cmd build).
Proof. unfold transcode_video. emits. Qed.

Hint Resolve emits_init emits_extract_chapters emits_extract_attachments
  emits_extract_subtitles emits_extract_audio emits_mux_matroska_mkv
  emits_mux_mp4 emits_transcode_video : emits.

Lemma emits_check_bluray a : emits P (check_bluray a).
Proof. unfold check_bluray. emits. Qed.

Lemma emits_determine_container a : emits P (determine_container a).
Proof. unfold determine_container. emits. Qed.

Lemma emits_make_extractor a : emits P (make_extractor w a).
Proof. unfold make_extractor. emits. Qed.

Lemma emits_chapters_stage a extractor out_container :
  emits P (chapters_stage w a extractor out_container).
Proof. unfold chapters_stage. emits. Qed.

Lemma emits_attachments_stage a extractor out_container :
  emits P (attachments_stage w a extractor out_container).
Proof. unfold attachments_stage. emits. Qed.

Lemma emits_subtitles_stage a extractor out_container :
  emits P (subtitles_stage w a extractor out_container).
Proof. unfold subtitles_stage. emits. Qed.

Lemma emits_audio_encoder a : emits P (audio_encoder w a).
Proof. unfold audio_encoder. emits. Qed.

Hint Resolve emits_audio_encoder : emits.

Lemma emits_audio_stage a extractor : emits P (audio_stage w a extractor).
Proof. unfold audio_stage. emits. Qed.

Lemma emits_video_stage a extractor : emits P (video_stage w a extractor).
Proof. unfold video_stage. emits. Qed.

Lemma emits_mux_stage a output out_container chapters_path attachments_path
    subtitles_path video_path audio_path :
  emits P (mux_stage w a output out_container chapters_path attachments_path
             subtitles_path video_path audio_path).
Proof. unfold mux_stage. emits. Qed.

Hint Resolve emits_check_bluray emits_determine_container emits_make_extractor
  emits_chapters_stage emits_attachments_stage emits_subtitles_stage
  emits_audio_stage emits_video_stage emits_mux_stage : emits.

Lemma emits_process a extractor output out_container :
  emits P (process w a extractor output out_container).
Proof. unfold process. emits. Qed.

Lemma emits_with_work_dir {A} (body : M A) :
  emits P body -> emits P (with_work_dir w body).
Proof.
  intros Hb s. unfold with_work_dir.
  assert (Hc : emits P (bind (emit (Mkdir (work_dir w))) (fun _ => body)))
    by (apply emits_bind; [apply emits_emit; apply P_mkdir | intros _; exact Hb]).
  destruct (Hc s) as [t [Ht Hp]].
  destruct (bind (emit (Mkdir (work_dir w))) (fun _ => body) s) as [o s'].
  cbn in *. exists (t ++ [Rmtree (work_dir w)]). rewrite Ht, app_assoc.
  split; [reflexivity |]. apply Forall_app. split; [exact Hp |].
  constructor; [apply P_rmtree | constructor].
Qed.
End EmitsStages.

#[export] Hint Resolve emits_wait emits_check_call emits_check_output
  emits_transcode emits_init emits_extract_chapters emits_extract_attachments
  emits_extract_subtitles emits_extract_audio emits_mux_matroska_mkv
  emits_mux_mp4 emits_transcode_video emits_check_bluray
  emits_determine_container emits_make_extractor emits_chapters_stage
  emits_attachments_stage emits_subtitles_stage emits_audio_encoder
  emits_audio_stage emits_video_stage emits_mux_stage emits_process
  emits_with_work_dir : emits.

(** ** The checks before the work *)

Lemma check_bluray_outcome (a : Args.t) (s : state) :
  check_bluray a s = (Done tt, s)
  \/ exists msg,
       In msg sanity_errors
       /\ check_bluray a s
          = (Returned 1, {| trace := trace s ++ [Print (msg ++ [nl])];
                            launched := launched s |}).
Proof.
  unfold check_bluray, sanity_errors.
  destruct (Args.bluray a); [| left; reflexivity].
  destruct (Args.size a).
  - destruct (Args.rate a); [left; reflexivity |].
    right. eexists. split; [right; left; reflexivity | reflexivity].
  - right. eexists. split; [left; reflexivity | reflexivity].
Qed.

Lemma determine_container_outcome (a : Args.t) (s : state) :
  (exists oc, determine_container a s = (Done oc, s))
  \/ exists msg,
       In msg sanity_errors
       /\ determine_container a s
          = (Returned 1, {| trace := trace s ++ [Print (msg ++ [nl])];
                            launched := launched s |}).
Proof.
  unfold determine_container, sanity_errors.
  destruct (output_container (Args.container a) (Args.output a)) as [oc |].
  - left. exists oc. reflexivity.
  - right. eexists. split; [right; right; left; reflexivity | reflexivity].
Qed.

(** *** The process priority *)

(** [main] either returns 1 from one of the checks, having printed the
    message of that check and nothing else, or lowers the priority before
    anything else. *)
Lemma main_priority (w : world) (a : Args.t) :
  let r := main w a initial in
  (exists msg,
     In msg sanity_errors
     /\ r = (Returned 1, {| trace := [Print (msg ++ [nl])]; launched := 0 |}))
  \/ exists t',
       trace (snd r) = (if Args.no_nice a then [] else [Nice 10]) ++ t'
       /\ Forall (fun e => is_nice e = false) t'.
Proof.
  cbv zeta.
  remember (main w a initial) as r eqn:Er.
  unfold main in Er. unfold bind at 1 in Er.
  destruct (check_bluray_outcome a initial) as [E | [msg [Hmsg E]]];
    rewrite E in Er.
  2: { left. exists msg. split; [exact Hmsg | exact Er]. }
  unfold bind at 1 in Er.
  destruct (determine_container_outcome a initial)
    as [[oc E2] | [msg [Hmsg E2]]]; rewrite E2 in Er.
  2: { left. exists msg. split; [exact Hmsg | exact Er]. }
  destruct oc as [output out_container]. right.
  match type of Er with context [bind _ ?k initial] => set (K := k) in Er end.
  set (P := fun e => is_nice e = false).
  assert (P_launch : forall pid cmd, P (Launch pid cmd)) by reflexivity.
  assert (P_close : forall pid, P (CloseStdout pid)) by reflexivity.
  assert (P_wait : forall pid, P (Wait pid)) by reflexivity.
  assert (P_print : forall t, P (Print t)) by reflexivity.
  assert (P_write : forall p c, P (WriteFile p c)) by reflexivity.
  assert (P_mkdir : forall p, P (Mkdir p)) by reflexivity.
  assert (P_chdir : forall p, P (Chdir p)) by reflexivity.
  assert (P_rmtree : forall p, P (Rmtree p)) by reflexivity.
  assert (HK : emits P (K tt)) by (subst K; cbv beta; emits).
  destruct (Args.no_nice a); cbn [negb] in Er.
  - change (bind (ret tt) K initial) with (K tt initial) in Er.
    destruct (HK initial) as [t [Ht Hp]]. rewrite <- Er in Ht.
    destruct r as [o s']. cbn in *. exists t. split; assumption.
  - change (bind (emit (Nice 10)) K initial)
      with (K tt {| trace := [Nice 10]; launched := 0 |}) in Er.
    destruct (HK {| trace := [Nice 10]; launched := 0 |}) as [t [Ht Hp]].
    rewrite <- Er in Ht.
    destruct r as [o s']. cbn in *. exists t. split; assumption.
Qed.

(** The script in terms of [main]: the status that [main] gives is the
    exit status, and a status other than 0 adds one line to what [main]
    has printed; an exception adds nothing. *)
Lemma script_of_main (w : world) (a : Args.t) (s : state) :
  script w a s
  = match main w a s with
    | (Done z, s') | (Returned z, s') =>
        if z =? 0 then (Done z, s')
        else (Done z,
              {| trace := trace s'
                          ++ [Print (L "Exiting with failure ..." ++ [nl])];
                 launched := launched s' |})
    | (Raised e, s') => (Raised e, s')
    end.
Proof.
  unfold script, call_main, bind.
  destruct (main w a s) as [[z | e | z] s']; try reflexivity;
    destruct (z =? 0); reflexivity.
Qed.

(** X1: A run of the script either stops at one of the checks of the
    command line, with status 1, the message of that check and the line
    "Exiting with failure ..." as all that it has done, or lowers the
    priority by 10 before anything else happens (unless [--no-nice] is
    given) and never touches it again. *)
Theorem priority_lowered_first (w : world) (a : Args.t) :
  let status := fst (script_run w a) in
  let t := snd (script_run w a) in
  (status = 1
   /\ exists msg,
        In msg sanity_errors
        /\ t = [Print (msg ++ [nl]);
                Print (L "Exiting with failure ..." ++ [nl])])
  \/ exists t',
       t = (if Args.no_nice a then [] else [Nice 10]) ++ t'
       /\ Forall (fun e => is_nice e = false) t'.
Proof.
  cbv zeta. unfold script_run. rewrite script_of_main.
  destruct (main_priority w a) as [[msg [Hmsg E]] | [t' [Et Hp]]].
  - left. rewrite E. cbn. split; [reflexivity |].
    exists msg. split; [exact Hmsg | reflexivity].
  - right. destruct (main w a initial) as [[z | e | z] s']; cbn [snd] in Et.
    + destruct (z =? 0); cbn [fst snd trace].
      * exists t'. split; assumption.
      * exists (t' ++ [Print (L "Exiting with failure ..." ++ [nl])]).
        rewrite Et, app_assoc. split; [reflexivity |].
        apply Forall_app. split; [exact Hp |].
        constructor; [reflexivity | constructor].
    + exists t'. split; assumption.
    + destruct (z =? 0); cbn [fst snd trace].
      * exists t'. split; assumption.
      * exists (t' ++ [Print (L "Exiting with failure ..." ++ [nl])]).
        rewrite Et, app_assoc. split; [reflexivity |].
        apply Forall_app. split; [exact Hp |].
        constructor; [reflexivity | constructor].
Qed.

(** ** The work directory *)

Section Lifecycle.
Variable w : world.

Lemma lifecycle_bind {A} (c : M A) (k : A -> M Z) :
  emits (fun e => touches_files e = false) c -> tame c ->
  (forall x s, lifecycle_after w (trace s) (k x s)) ->
  forall s, lifecycle_after w (trace s) (bind c k s).
Proof.
  intros He Ht Hk s. unfold bind.
  destruct (He s) as [t [Et Hq]]. destruct (Ht s) as [_ [_ Hr]].
  destruct (c s) as [[x | e | z] s1]; cbn in *.
  - destruct (Hk x s1) as [pre [Hpre H]]. exists (t ++ pre).
    split; [apply Forall_app; split; assumption |].
    rewrite Et in H. destruct H as [[H1 H2] | [body H]].
    + left. split; [exact H1 |]. rewrite H2, app_assoc. reflexivity.
    + right. exists body. rewrite H, <- !app_assoc. reflexivity.
  - exists t. split; [exact Hq |]. left. split; [reflexivity | exact Et].
  - exists t. split; [exact Hq |]. left. split; [exact Hr | exact Et].
Qed.

(** From the creation of the work directory on. *)
Lemma lifecycle_work (body : M unit) (s : state) :
  tame body ->
  lifecycle_after w (trace s)
    ((with_work_dir w body ;; print [done_message w] ;; ret 0)%monad s).
Proof.
  intros Hb.
  remember ((with_work_dir w body ;; print [done_message w] ;; ret 0)%monad s)
    as r eqn:Er.
  unfold bind at 1 in Er. unfold with_work_dir in Er.
  change (bind (emit (Mkdir (work_dir w))) (fun _ => body) s)
    with (body {| trace := trace s ++ [Mkdir (work_dir w)];
                  launched := launched s |}) in Er.
  destruct (Hb {| trace := trace s ++ [Mkdir (work_dir w)];
                  launched := launched s |}) as [[tb Et] [_ Hr]].
  exists []. split; [constructor |]. right. exists tb.
  destruct (body _) as [[[] | e | z] s1]; cbn in *; subst; cbn;
    rewrite Et, <- !app_assoc; reflexivity.
Qed.

Lemma lifecycle_main (a : Args.t) :
  lifecycle_after w [] (main w a initial).
Proof.
  set (Q := fun e => touches_files e = false).
  assert (Q_launch : forall pid cmd, Q (Launch pid cmd)) by reflexivity.
  assert (Q_wait : forall pid, Q (Wait pid)) by reflexivity.
  assert (Q_print : forall t, Q (Print t)) by reflexivity.
  assert (Q_nice : forall z, Q (Nice z)) by reflexivity.
  change (@nil event) with (trace initial). generalize initial.
  unfold main.
  apply lifecycle_bind; [emits | apply tame_check_bluray |]. intros _.
  apply lifecycle_bind; [emits | apply tame_determine_container |].
  intros [output out_container].
  apply lifecycle_bind; [emits | destruct (negb _); auto with tame |]. intros _.
  apply lifecycle_bind; [emits | auto with tame |]. intros _.
  apply lifecycle_bind; [emits | apply tame_make_extractor |].
  intros extractor s. apply lifecycle_work. apply tame_process.
Qed.
End Lifecycle.

(** X2: Every run either fails before it has touched the file system, or
    creates the work directory, works, and removes the directory again
    however the work ended; the removal is followed by the closing report
    when the run ends with status 0 and by nothing otherwise. *)
Theorem work_dir_removed (w : world) (a : Args.t) :
  let status := fst (run_script w a) in
  let t := snd (run_script w a) in
  exists pre,
    Forall (fun e => touches_files e = false) pre
    /\ ((status = 1 /\ t = pre)
        \/ exists body,
             t = pre ++ Mkdir (work_dir w) :: body
                 ++ Rmtree (work_dir w)
                 :: (if status =? 0
                     then [Print (done_message w ++ [nl])]
                     else [])).
Proof.
  cbv zeta. unfold run_script.
  destruct (lifecycle_main w a) as [pre [Hpre H]].
  destruct (main w a initial) as [o s]. cbn [fst snd] in *.
  exists pre. split; [exact Hpre | exact H].
Qed.

(** ** Runs that end well *)

Lemma all_succeeded_app (w : world) (t t' : list event) :
  all_succeeded w t ->
  (forall pid cmd,
     In (Launch pid cmd) t' ->
     spawns w pid = true /\ In (Wait pid) (t ++ t') /\ exit_status w pid = 0) ->
  all_succeeded w (t ++ t').
Proof.
  intros H H' pid cmd Hin. apply in_app_or in Hin. destruct Hin as [Hin | Hin].
  - destruct (H pid cmd Hin) as [H1 [H2 H3]].
    repeat split; [exact H1 | apply in_or_app; left; exact H2 | exact H3].
  - apply (H' pid cmd). exact Hin.
Qed.

Lemma all_succeeded_snoc (w : world) (t : list event) (e : event) :
  all_succeeded w t ->
  match e with Launch _ _ => False | _ => True end ->
  all_succeeded w (t ++ [e]).
Proof.
  intros H He. apply all_succeeded_app; [exact H |].
  intros pid cmd [E | []]. subst e. contradiction.
Qed.

Section Settles.
Context {A B : Type}.
Variable w : world.

Lemma settles_ret (a : A) : settles w (ret a).
Proof. intros s Hs. exact Hs. Qed.

Lemma settles_raise (e : exn) : settles w (@raise A e).
Proof. intros s Hs. exact I. Qed.

Lemma settles_return_ (z : Z) : settles w (@return_ A z).
Proof. intros s Hs. exact I. Qed.

Lemma settles_lift (r : result A) : settles w (lift r).
Proof. destruct r; [apply settles_ret | apply settles_raise]. Qed.

Lemma settles_bind (c : M A) (k : A -> M B) :
  settles w c -> (forall a, settles w (k a)) -> settles w (bind c k).
Proof.
  intros Hc Hk s Hs. unfold bind. specialize (Hc s Hs).
  destruct (c s) as [[a | e | z] s']; cbn in *;
    [apply Hk; exact Hc | exact I | exact I].
Qed.
End Settles.

Lemma settles_emit (w : world) (e : event) :
  match e with Launch _ _ => False | _ => True end -> settles w (emit e).
Proof. intros He s Hs. cbn. apply all_succeeded_snoc; assumption. Qed.

Lemma settles_print_end (w : world) (args : list pystr) (end_ : pystr) :
  settles w (print_end args end_).
Proof. apply settles_emit. exact I. Qed.

Lemma settles_print (w : world) (args : list pystr) : settles w (print args).
Proof. apply settles_emit. exact I. Qed.

Lemma settles_check_call (w : world) (cmd : list pystr) :
  settles w (Subprocess.check_call w cmd).
Proof.
  intros s Hs.
  unfold Subprocess.check_call, bind, Subprocess.Popen, Subprocess.wait, emit,
    ret, raise, bind.
  destruct (spawns w (launched s)) eqn:Esp; cbn; [| exact I].
  destruct (Z.eqb_spec (exit_status w (launched s)) 0) as [Ex | Ex]; cbn;
    [| exact I].
  rewrite <- app_assoc. apply all_succeeded_app; [exact Hs |].
  intros pid c [E | [E | []]]; [| discriminate E].
  injection E as <- <-. repeat split; [exact Esp | | exact Ex].
  apply in_or_app. right. right. left. reflexivity.
Qed.

Lemma settles_check_output (w : world) (cmd : list pystr) :
  settles w (Subprocess.check_output w cmd).
Proof.
  intros s Hs.
  unfold Subprocess.check_output, bind, Subprocess.Popen, Subprocess.wait,
    emit, ret, raise, bind.
  destruct (spawns w (launched s)) eqn:Esp; cbn; [| exact I].
  destruct (Z.eqb_spec (exit_status w (launched s)) 0) as [Ex | Ex]; cbn;
    [| exact I].
  rewrite <- app_assoc. apply all_succeeded_app; [exact Hs |].
  intros pid c [E | [E | []]]; [| discriminate E].
  injection E as <- <-. repeat split; [exact Esp | | exact Ex].
  apply in_or_app. right. right. left. reflexivity.
Qed.

Lemma settles_transcode (w : world) (dec_cmd enc_cmd : list pystr) :
  settles w (transcode w dec_cmd enc_cmd).
Proof.
  intros s Hs.
  unfold transcode, bind, Subprocess.Popen, Subprocess.wait, emit, ret, raise,
    bind.
  destruct (spawns w (launched s)) eqn:Ed; cbn; [| exact I].
  destruct (spawns w (S (launched s))) eqn:Ee; cbn; [| exact I].
  destruct (Z.eqb_spec (exit_status w (launched s)) 0) as [Xd | Xd]; cbn;
    [| exact I].
  destruct (Z.eqb_spec (exit_status w (S (launched s))) 0) as [Xe | Xe]; cbn;
    [| exact I].
  repeat rewrite <- app_assoc. apply all_succeeded_app; [exact Hs |].
  intros pid c [E | [E | [E | [E | [E | []]]]]]; try discriminate E;
    injection E as <- <-.
  - repeat split; [exact Ed | | exact Xd].
    apply in_or_app. right. cbn. tauto.
  - repeat split; [exact Ee | | exact Xe].
    apply in_or_app. right. cbn. tauto.
Qed.

Create HintDb settles.
#[export] Hint Resolve settles_ret settles_raise settles_return_ settles_lift
  settles_print_end settles_print settles_check_call settles_check_output
  settles_transcode : settles.

Ltac settles_step :=
  match goal with
  | |- settles _ (bind _ _) => apply settles_bind; [| intros ?]
  | |- settles _ (if ?b then _ else _) => destruct b
  | |- settles _ (match ?x with _ => _ end) => destruct x
  | |- settles _ (emit _) => apply settles_emit; exact I
  | |- settles _ _ => solve [auto with settles]
  end.

Ltac settles := repeat settles_step.

Section SettlesStages.
Variable w : world.

Lemma settles_init path disc_type disc_title chap_start chap_end maid msid :
  settles w (AVExtractor.__init__ w path disc_type disc_title chap_start
               chap_end maid msid).
Proof. unfold AVExtractor.__init__. settles. Qed.

Lemma settles_extract_chapters self filename :
  settles w (AVExtractor.extract_chapters w self filename).
Proof. unfold AVExtractor.extract_chapters. settles. Qed.

Lemma settles_extract_attachments self directory :
  settles w (AVExtractor.extract_attachments w self directory).
Proof. unfold AVExtractor.extract_attachments. settles. Qed.

Lemma settles_extract_subtitles self filename :
  settles w (AVExtractor.extract_subtitles w self filename).
Proof. unfold AVExtractor.extract_subtitles. settles. Qed.

Lemma settles_extract_audio self filename :
  settles w (AVExtractor.extract_audio w self filename).
Proof. unfold AVExtractor.extract_audio. settles. Qed.

Lemma settles_mux_matroska_mkv out_path title chapters attachments vid_file
    vid_aspect vid_pixaspect vid_displaysize aud_file sub_file vid_lang
    aud_lang sub_lang :
  settles w (mux_matroska_mkv w out_path title chapters attachments vid_file
               vid_aspect vid_pixaspect vid_displaysize aud_file sub_file
               vid_lang aud_lang sub_lang).
Proof. unfold mux_matroska_mkv. settles. Qed.

Lemma settles_mux_mp4 out_path chapters vid_file vid_pixaspect aud_file
    vid_lang aud_lang :
  settles w (mux_mp4 w out_path chapters vid_file vid_pixaspect aud_file
               vid_lang aud_lang).
Proof. unfold mux_mp4. settles. Qed.

Lemma settles_transcode_video label stats two_pass dec_cmd build :
  settles w (transcode_video w label stats two_pass dec_cmd build).
Proof. unfold transcode_video. settles. Qed.

Hint Resolve settles_init settles_extract_chapters settles_extract_attachments
  settles_extract_subtitles settles_extract_audio settles_mux_matroska_mkv
  settles_mux_mp4 settles_transcode_video : settles.

Lemma settles_chapters_stage a extractor out_container :
  settles w (chapters_stage w a extractor out_container).
Proof. unfold chapters_stage. settles. Qed.

Lemma settles_attachments_stage a extractor out_container :
  settles w (attachments_stage w a extractor out_container).
Proof. unfold attachments_stage. settles. Qed.

Lemma settles_subtitles_stage a extractor out_container :
  settles w (subtitles_stage w a extractor out_container).
Proof. unfold subtitles_stage. settles. Qed.

Lemma settles_audio_encoder a : settles w (audio_encoder w a).
Proof. unfold audio_encoder. settles. Qed.

Hint Resolve settles_audio_encoder : settles.

Lemma settles_audio_stage a extractor : settles w (audio_stage w a extractor).
Proof. unfold audio_stage. settles. Qed.

Lemma settles_video_stage a extractor : settles w (video_stage w a extractor).
Proof. unfold video_stage. settles. Qed.

Lemma settles_mux_stage a output out_container chapters_path attachments_path
    subtitles_path video_path audio_path :
  settles w (mux_stage w a output out_container chapters_path
               attachments_path subtitles_path video_path audio_path).
Proof. unfold mux_stage. settles. Qed.

Hint Resolve settles_chapters_stage settles_attachments_stage
  settles_subtitles_stage settles_audio_stage settles_video_stage
  settles_mux_stage : settles.

Lemma settles_process a extractor output out_container :
  settles w (process w a extractor output out_container).
Proof. unfold process. settles. Qed.

Lemma settles_with_work_dir {A} (body : M A) :
  settles w body -> settles w (with_work_dir w body).
Proof.
  intros Hb s Hs. unfold with_work_dir.
  change (bind (emit (Mkdir (work_dir w))) (fun _ => body) s)
    with (body {| trace := trace s ++ [Mkdir (work_dir w)];
                  launched := launched s |}).
  assert (H0 : all_succeeded w (trace s ++ [Mkdir (work_dir w)]))
    by (apply all_succeeded_snoc; [exact Hs | exact I]).
  specialize (Hb {| trace := trace s ++ [Mkdir (work_dir w)];
                    launched := launched s |} H0).
  destruct (body _) as [[x | e | z] s1]; cbn in *; try exact I.
  apply all_succeeded_snoc; [exact Hb | exact I].
Qed.

Lemma settles_main a : settles w (main w a).
Proof.
  unfold main, check_bluray, determine_container, make_extractor.
  pose proof settles_process. pose proof (@settles_with_work_dir unit).
  settles.
Qed.
End SettlesStages.

(** X3: A run that ends with status 0 has started every one of its processes
    successfully, has waited for each of them, and each has ended with
    status 0. *)
Theorem success_means_every_process_succeeded (w : world) (a : Args.t) :
  fst (run_script w a) = 0 ->
  all_succeeded w (snd (run_script w a)).
Proof.
  unfold run_script.
  pose proof (settles_main w a initial) as Hs.
  destruct (tame_main w a initial) as [_ [_ Hr]].
  destruct (main w a initial) as [[z | e | z] s]; cbn in *; intros E.
  - apply Hs. intros pid cmd [].
  - discriminate E.
  - subst z. discriminate E.
Qed.

Lemma success_means_every_process_succeeded_witness :
  fst (run_script avi_world plain_run) = 0
  /\ all_succeeded avi_world (snd (run_script avi_world plain_run)).
Proof.
  split; [vm_compute; reflexivity |].
  apply (success_means_every_process_succeeded avi_world plain_run).
  vm_compute. reflexivity.
Defined.

(** ** Codecs that the parser offers and [main] does not handle *)

Lemma never_done_main_of_process (w : world) (a : Args.t) :
  (forall extractor output out_container,
     never_done (process w a extractor output out_container)) ->
  never_done (main w a).
Proof.
  intros Hp. unfold main.
  apply never_done_bind_r; [apply tame_check_bluray | intros _].
  apply never_done_bind_r; [apply tame_determine_container | intros [o c]].
  apply never_done_bind_r; [destruct (negb _); auto with tame | intros _].
  apply never_done_bind_r; [auto with tame | intros _].
  apply never_done_bind_r; [apply tame_make_extractor | intros extractor].
  apply never_done_bind_l. apply never_done_with_work_dir.
  - apply tame_process.
  - apply Hp.
Qed.

Lemma never_done_fails (w : world) (a : Args.t) :
  never_done (main w a) -> fst (run_script w a) = 1.
Proof.
  intros H. unfold run_script. specialize (H initial).
  destruct (main w a initial) as [[z | e | z] s]; cbn in *;
    [contradiction | reflexivity | exact H].
Qed.

Section UnsupportedVideo.
Variable w : world.
Variable a : Args.t.
Hypothesis unsupported :
  Args.video_codec a = L "hevc" \/ Args.video_codec a = L "copy".

Lemma never_done_video_stage (extractor : AVExtractor.t) :
  never_done (video_stage w a extractor).
Proof.
  unfold video_stage.
  apply never_done_bind_r; [auto with tame | intros dims].
  apply never_done_bind_r; [auto with tame | intros sar].
  apply never_done_bind_r; [auto with tame | intros rate].
  cbv zeta. destruct unsupported as [E | E]; rewrite E; exact (fun s => I).
Qed.

Lemma never_done_process_video extractor output out_container :
  never_done (process w a extractor output out_container).
Proof.
  unfold process.
  apply never_done_bind_r; [auto with tame | intros _].
  apply never_done_bind_r; [apply tame_chapters_stage | intros chapters_path].
  apply never_done_bind_r;
    [apply tame_attachments_stage | intros attachments_path].
  apply never_done_bind_r; [apply tame_subtitles_stage | intros subtitles_path].
  apply never_done_bind_r; [apply tame_audio_stage | intros audio_path].
  apply never_done_bind_l. apply never_done_video_stage.
Qed.
End UnsupportedVideo.

(** X4: The video codecs [hevc] and [copy] and the audio codec [copy] are
    among the choices of the parser, yet every run that asks for one of
    them ends with status 1. *)
Theorem unsupported_codecs_fail (w : world) (a : Args.t) :
  Args.video_codec a = L "hevc" \/ Args.video_codec a = L "copy"
  \/ Args.audio_codec a = L "copy" ->
  fst (run_script w a) = 1.
Proof.
  intros [H | [H | H]].
  - apply never_done_fails, never_done_main_of_process.
    intros e o c. apply never_done_process_video. left. exact H.
  - apply never_done_fails, never_done_main_of_process.
    intros e o c. apply never_done_process_video. right. exact H.
  - apply copy_run_fails. exact H.
Qed.

Lemma unsupported_codecs_fail_witness :
  Args.parsed hevc_run = true /\ fst (run_script avi_world hevc_run) = 1.
Proof.
  split; [reflexivity |].
  apply (unsupported_codecs_fail avi_world hevc_run). left. reflexivity.
Defined.

(** ** What each container gets *)

Lemma emits_in_work_dir {A} (w : world) (P : event -> Prop) (body : M A) :
  P (Mkdir (work_dir w)) -> P (Rmtree (work_dir w)) ->
  emits P body -> emits P (with_work_dir w body).
Proof.
  intros Hm Hr Hb s. unfold with_work_dir.
  assert (Hc : emits P (bind (emit (Mkdir (work_dir w))) (fun _ => body)))
    by (apply emits_bind; [apply emits_emit; exact Hm | intros _; exact Hb]).
  destruct (Hc s) as [t [Ht Hp]].
  destruct (bind (emit (Mkdir (work_dir w))) (fun _ => body) s) as [o s'].
  cbn in *. exists (t ++ [Rmtree (work_dir w)]). rewrite Ht, app_assoc.
  split; [reflexivity |]. apply Forall_app. split; [exact Hp |].
  constructor; [exact Hr | constructor].
Qed.

Lemma emits_bind_ret {A B} (P : event -> Prop) (x : A) (k : A -> M B) :
  emits P (k x) -> emits P (bind (ret x) k).
Proof. intros H. exact H. Qed.

Lemma pystr_eqb_neq (a b : pystr) : pystr_eqb a b = false -> a <> b.
Proof.
  intros H E. apply pystr_eqb_eq in E. rewrite E in H. discriminate H.
Qed.

Section Containers.
Variable w : world.
Variable a : Args.t.
Variable extractor : AVExtractor.t.
Variable c : pystr.

Let P := container_allows w c.

Lemma allows_launch : forall pid cmd, P (Launch pid cmd).
Proof. intros; exact I. Qed.
Lemma allows_close : forall pid, P (CloseStdout pid).
Proof. intros; exact I. Qed.
Lemma allows_wait : forall pid, P (Wait pid).
Proof. intros; exact I. Qed.
Lemma allows_print : forall t, P (Print t).
Proof. intros; exact I. Qed.

Hint Resolve allows_launch allows_close allows_wait allows_print : emits.

Lemma allows_chapters_stage : emits P (chapters_stage w a extractor c).
Proof.
  unfold chapters_stage.
  destruct (_ && _); [| apply emits_ret].
  destruct (pystr_eqb c (L "webm")) eqn:Ew; [emits |].
  destruct (_ || _); [| apply emits_raise].
  apply pystr_eqb_neq in Ew.
  assert (forall path content, P (WriteFile path content))
    by (intros; exact Ew).
  emits.
Qed.

Lemma allows_attachments_stage : emits P (attachments_stage w a extractor c).
Proof.
  unfold attachments_stage.
  destruct (_ && _); [| apply emits_ret].
  destruct (pystr_eqb c (L "webm")); [emits |].
  destruct (pystr_eqb c (L "mp4")); [emits |].
  destruct (pystr_eqb c (L "mkv")) eqn:Em; [| apply emits_raise].
  apply pystr_eqb_eq in Em.
  assert (forall path, P (Mkdir path)) by (intros; right; exact Em).
  assert (forall path, P (Chdir path)) by (intros; exact Em).
  emits.
Qed.

Lemma allows_subtitles_stage : emits P (subtitles_stage w a extractor c).
Proof.
  unfold subtitles_stage.
  destruct (_ && _); [| apply emits_ret].
  destruct (pystr_eqb c (L "webm")); [emits |].
  destruct (pystr_eqb c (L "mp4")); [emits |].
  destruct (pystr_eqb c (L "mkv")); [| apply emits_raise].
  emits.
Qed.

Lemma allows_process (output : pystr) :
  emits P (process w a extractor output c).
Proof.
  unfold process.
  pose proof allows_chapters_stage. pose proof allows_attachments_stage.
  pose proof allows_subtitles_stage.
  emits.
Qed.
End Containers.

(** X5: Whatever the source holds, the script writes a chapter file only for
    a Matroska or MP4 output, and makes a directory besides its work
    directory and changes into it (for the attachments) only for a
    Matroska output; the only directory it removes is the work directory. *)
Theorem container_limits_extraction (w : world) (a : Args.t)
    (output out_container : pystr) :
  output_container (Args.container a) (Args.output a)
  = Some (output, out_container) ->
  Forall (container_allows w out_container) (snd (run_script w a)).
Proof.
  intros Hc. unfold run_script.
  set (P := container_allows w out_container).
  assert (Hm : emits P (main w a)).
  { unfold main, determine_container. rewrite Hc.
    assert (forall pid cmd, P (Launch pid cmd)) by (intros; exact I).
    assert (forall pid, P (Wait pid)) by (intros; exact I).
    assert (forall t, P (Print t)) by (intros; exact I).
    assert (P (Nice 10)) by exact I.
    pose proof (allows_process w a).
    apply emits_bind; [emits | intros _].
    apply emits_bind_ret.
    apply emits_bind; [emits | intros _].
    apply emits_bind; [emits | intros _].
    apply emits_bind; [emits | intros extractor].
    apply emits_bind; [| intros; emits].
    apply emits_in_work_dir; [left; reflexivity | reflexivity |].
    apply allows_process. }
  destruct (Hm initial) as [t [Ht Hp]].
  destruct (main w a initial) as [o s]. cbn in *. subst. exact Hp.
Qed.

Lemma container_limits_extraction_witness :
  let a := mkv_args (L "out.webm") None None in
  output_container (Args.container a) (Args.output a)
  = Some (L "out.webm", L "webm")
  /\ Forall (container_allows mkv_world (L "webm"))
       (snd (run_script mkv_world a)).
Proof.
  split; [reflexivity |].
  apply (container_limits_extraction mkv_world
           (mkv_args (L "out.webm") None None) (L "out.webm") (L "webm")).
  reflexivity.
Defined.

(** ** What a successful match has captured *)

Section GreedyInversion.
Context {R : Type}.
Variable a : Re.atom.
Variable k : option ascii -> pystr -> list pystr -> option R.

Lemma greedy_inv (s : pystr) (r : R) :
  forall prev opens,
    Re.greedy a k prev s opens = Some r ->
    exists ds s' prev',
      s = ds ++ s'
      /\ Forall (fun c => Re.atom_ok a c = true) ds
      /\ k prev' s' (map (fun o => List.rev ds ++ o) opens) = Some r.
Proof.
  induction s as [| c s IH]; intros prev opens H.
  - exists [], [], prev. cbn [Re.greedy] in H. cbn [List.rev List.app].
    rewrite map_app_nil. repeat split; [constructor | exact H].
  - cbn [Re.greedy] in H. destruct (Re.atom_ok a c) eqn:Hc.
    + destruct (Re.greedy a k (Some c) s (map (cons c) opens)) as [r' |] eqn:G.
      * injection H as <-. destruct (IH _ _ G) as [ds [s' [prev' [E [Hds Hk]]]]].
        exists (c :: ds), s', prev'. subst s.
        rewrite map_rev_cons in Hk.
        repeat split; [constructor; assumption | exact Hk].
      * exists [], (c :: s), prev. cbn [List.rev List.app].
        rewrite map_app_nil. repeat split; [constructor | exact H].
    + exists [], (c :: s), prev. cbn [List.rev List.app].
      rewrite map_app_nil. repeat split; [constructor | exact H].
Qed.
End GreedyInversion.

(** The group [(\d+)]. *)
Lemma run_digits_group_inv (ml : bool) (p : Re.regex) (prev : option ascii)
    (s : pystr) (caps r : list pystr) :
  Re.run ml (Re.Open :: Re.Many1 Re.Digit :: Re.Close :: p) prev s [] caps
  = Some r ->
  exists ds s' prev',
    s = ds ++ s' /\ ds <> []
    /\ Forall (fun c => Py.is_digit c = true) ds
    /\ Re.run ml p prev' s' [] (ds :: caps) = Some r.
Proof.
  cbn [Re.run]. destruct s as [| c s]; [discriminate |].
  cbn [Re.atom_ok]. destruct (Py.is_digit c) eqn:Hc; [| discriminate].
  intros H. apply greedy_inv in H.
  destruct H as [ds [s' [prev' [E [Hds Hk]]]]].
  exists (c :: ds), s', prev'. subst s.
  split; [reflexivity |]. split; [discriminate |].
  split; [constructor; assumption |].
  cbn [map Re.run] in Hk.
  rewrite List.rev_app_distr, List.rev_involutive in Hk. exact Hk.
Qed.

Lemma strip_prefix_some (x s s' : pystr) :
  strip_prefix x s = Some s' -> s = x ++ s'.
Proof.
  revert s. induction x as [| c x IH]; intros s H.
  - cbn in H. injection H as <-. reflexivity.
  - destruct s as [| d s]; [discriminate H |].
    cbn [strip_prefix] in H. destruct (Ascii.eqb_spec c d) as [-> | _];
      [| discriminate H].
    cbn [List.app]. f_equal. apply IH. exact H.
Qed.

Lemma run_lit_inv (ml : bool) (x : pystr) (p : Re.regex) (prev : option ascii)
    (s : pystr) (caps r : list pystr) :
  Re.run ml (Re.lit x ++ p) prev s [] caps = Some r ->
  exists s' prev', s = x ++ s' /\ Re.run ml p prev' s' [] caps = Some r.
Proof.
  intros H. destruct (run_lit ml x p s caps prev) as [prev' E].
  rewrite E in H. destruct (strip_prefix x s) as [s' |] eqn:Es;
    [| discriminate H].
  exists s', prev'. split; [apply strip_prefix_some; exact Es | exact H].
Qed.

(** The groups [(\d\d)] and [(\d\d\d)]. *)
Lemma run_two_digits_inv (ml : bool) (p : Re.regex) (prev : option ascii)
    (s : pystr) (caps r : list pystr) :
  Re.run ml (AVExtractor.two_digits ++ p) prev s [] caps = Some r ->
  exists a b s',
    s = a :: b :: s' /\ Py.is_digit a = true /\ Py.is_digit b = true
    /\ Re.run ml p (Some b) s' [] ([a; b] :: caps) = Some r.
Proof.
  unfold AVExtractor.two_digits. cbn [List.app Re.run Re.atom_ok map].
  destruct s as [| a [| b s']]; try discriminate.
  - destruct (Py.is_digit a); discriminate.
  - destruct (Py.is_digit a) eqn:Ha; [| discriminate]. cbn [map].
    destruct (Py.is_digit b) eqn:Hb; [| discriminate]. cbn [map List.rev List.app].
    intros H. exists a, b, s'. auto.
Qed.

Lemma run_three_digits_inv (ml : bool) (p : Re.regex) (prev : option ascii)
    (s : pystr) (caps r : list pystr) :
  Re.run ml (AVExtractor.three_digits ++ p) prev s [] caps = Some r ->
  exists a b c s',
    s = a :: b :: c :: s'
    /\ Py.is_digit a = true /\ Py.is_digit b = true /\ Py.is_digit c = true
    /\ Re.run ml p (Some c) s' [] ([a; b; c] :: caps) = Some r.
Proof.
  unfold AVExtractor.three_digits. cbn [List.app Re.run Re.atom_ok map].
  destruct s as [| a [| b [| c s']]]; try discriminate.
  - destruct (Py.is_digit a); discriminate.
  - destruct (Py.is_digit a); [| discriminate]. cbn [map].
    destruct (Py.is_digit b); discriminate.
  - destruct (Py.is_digit a) eqn:Ha; [| discriminate]. cbn [map].
    destruct (Py.is_digit b) eqn:Hb; [| discriminate]. cbn [map].
    destruct (Py.is_digit c) eqn:Hc; [| discriminate].
    cbn [map List.rev List.app].
    intros H. exists a, b, c, s'. auto.
Qed.

(** The four groups of a timestamp. *)
Lemma run_timestamp_inv (ml : bool) (prev : option ascii) (s : pystr)
    (caps r : list pystr) :
  Re.run ml AVExtractor.timestamp_re prev s [] caps = Some r ->
  exists h m sec ms,
    r = List.rev caps ++ [h; m; sec; ms]
    /\ Forall numeral [h; m; sec; ms].
Proof.
  unfold AVExtractor.timestamp_re. intros H.
  apply run_two_digits_inv in H. destruct H as [h1 [h2 [s1 [-> [Hh1 [Hh2 H]]]]]].
  apply run_lit_inv in H. destruct H as [s2 [p2 [-> H]]].
  apply run_two_digits_inv in H. destruct H as [m1 [m2 [s3 [-> [Hm1 [Hm2 H]]]]]].
  apply run_lit_inv in H. destruct H as [s4 [p4 [-> H]]].
  apply run_two_digits_inv in H. destruct H as [x1 [x2 [s5 [-> [Hx1 [Hx2 H]]]]]].
  apply run_lit_inv in H. destruct H as [s6 [p6 [-> H]]].
  apply run_three_digits_inv in H.
  destruct H as [y1 [y2 [y3 [s7 [-> [Hy1 [Hy2 [Hy3 H]]]]]]]].
  cbn [Re.run] in H. destruct (Re.at_eol ml s7); [| discriminate H].
  injection H as <-.
  exists [h1; h2], [m1; m2], [x1; x2], [y1; y2; y3].
  split.
  - cbn [List.rev]. repeat rewrite <- app_assoc. reflexivity.
  - unfold numeral. repeat constructor; try discriminate; assumption.
Qed.

(** ** Reading a run of digits *)

(** [int] accepts what [\d+] has matched. *)
Lemma int_digits (ds : pystr) : numeral ds -> exists n, int_ ds = Ok n.
Proof.
  intros [Hne Hds]. unfold int_, Py.int.
  destruct ds as [| c ds]; [contradiction |].
  destruct (uint_of_digits (c :: ds) Hds) as [u Eu]. rewrite Eu.
  eexists. reflexivity.
Qed.

(** ** The slicer on any text *)

Lemma time_re_groups (line : pystr) (mat : list pystr) :
  Re.match_ AVExtractor.CHAPTERS_TIME_RE line = Some mat ->
  exists g1 h m s ms,
    mat = [g1; h; m; s; ms] /\ Forall numeral [g1; h; m; s; ms].
Proof.
  unfold Re.match_, AVExtractor.CHAPTERS_TIME_RE.
  cbn [List.app Re.run Re.at_bol]. intros H.
  apply run_lit_inv in H. destruct H as [s1 [p1 [-> H]]].
  cbn [List.app] in H.
  apply run_digits_group_inv in H.
  destruct H as [g1 [s2 [p2 [-> [Hne [Hds H]]]]]].
  apply run_lit_inv in H. destruct H as [s3 [p3 [-> H]]].
  apply run_timestamp_inv in H.
  destruct H as [h [m [s [ms [-> Hall]]]]].
  exists g1, h, m, s, ms. split; [reflexivity |].
  constructor; [split; assumption | exact Hall].
Qed.

Lemma title_1_re_groups (line : pystr) (mat : list pystr) :
  Re.match_ AVExtractor.CHAPTERS_TITLE_1_RE line = Some mat ->
  exists g1 g2, mat = [g1; g2] /\ numeral g1 /\ numeral g2.
Proof.
  unfold Re.match_, AVExtractor.CHAPTERS_TITLE_1_RE.
  cbn [List.app Re.run Re.at_bol]. intros H.
  apply run_lit_inv in H. destruct H as [s1 [p1 [-> H]]].
  cbn [List.app] in H.
  apply run_digits_group_inv in H.
  destruct H as [g1 [s2 [p2 [-> [Hne [Hds H]]]]]].
  apply run_lit_inv in H. destruct H as [s3 [p3 [-> H]]].
  apply run_digits_group_inv in H.
  destruct H as [g2 [s4 [p4 [-> [Hne2 [Hds2 H]]]]]].
  cbn [Re.run] in H. destruct (Re.at_eol false s4); [| discriminate H].
  injection H as <-.
  exists g1, g2. repeat split; assumption.
Qed.

Lemma title_2_re_groups (line : pystr) (mat : list pystr) :
  Re.match_ AVExtractor.CHAPTERS_TITLE_2_RE line = Some mat ->
  exists g1 t, mat = [g1; t] /\ numeral g1.
Proof.
  unfold Re.match_, AVExtractor.CHAPTERS_TITLE_2_RE.
  cbn [List.app Re.run Re.at_bol]. intros H.
  apply run_lit_inv in H. destruct H as [s1 [p1 [-> H]]].
  cbn [List.app] in H.
  apply run_digits_group_inv in H.
  destruct H as [g1 [s2 [p2 [-> [Hne [Hds H]]]]]].
  apply run_lit_inv in H. destruct H as [s3 [p3 [-> H]]].
  cbn [Re.run] in H. apply greedy_inv in H.
  destruct H as [t [s4 [p4 [-> [Ht H]]]]].
  cbn [map Re.run] in H. destruct (Re.at_eol false s4); [| discriminate H].
  injection H as <-.
  exists g1, (List.rev (List.rev t ++ [])). split; [reflexivity |].
  split; assumption.
Qed.

Section AnyLine.
Variables start end_ : option Z.

(** The test of a line against one of the three patterns never fails. *)
Lemma match_in_range_total (re : Re.regex) (line : pystr) :
  (forall mat, Re.match_ re line = Some mat ->
               exists g1 rest, mat = g1 :: rest /\ numeral g1) ->
  AVExtractor.match_in_range start end_ re line = Ok None
  \/ exists mat,
       Re.match_ re line = Some mat
       /\ AVExtractor.match_in_range start end_ re line = Ok (Some mat).
Proof.
  intros Hre. unfold AVExtractor.match_in_range.
  destruct (Re.match_ re line) as [mat |]; [| left; reflexivity].
  destruct (Hre mat eq_refl) as [g1 [rest [-> Hg1]]].
  destruct (int_digits g1 Hg1) as [n En].
  cbn [Re.group Nat.sub nth]. rewrite En. cbn [rbind].
  destruct (AVExtractor.in_range start end_ n); [right | left; reflexivity].
  eexists. split; reflexivity.
Qed.

Lemma chapter_line_total (offset_index : Z) (offset_time : Datetime.timedelta)
    (line : pystr) :
  exists out,
    AVExtractor.chapter_line start end_ offset_index offset_time line = Ok out.
Proof.
  unfold AVExtractor.chapter_line.
  destruct (match_in_range_total AVExtractor.CHAPTERS_TIME_RE line)
    as [E | [mat [Em E]]]; rewrite ?E.
  { intros mat H. destruct (time_re_groups line mat H)
      as [g1 [h [m [s [ms [-> Hall]]]]]].
    inversion Hall; subst. eauto. }
  2: { destruct (time_re_groups line mat Em)
         as [g1 [h [m [s [ms [-> Hall]]]]]].
       inversion Hall as [| ? ? H1 Hall1]; subst.
       inversion Hall1 as [| ? ? H2 Hall2]; subst.
       inversion Hall2 as [| ? ? H3 Hall3]; subst.
       inversion Hall3 as [| ? ? H4 Hall4]; subst.
       inversion Hall4 as [| ? ? H5 _]; subst.
       destruct (int_digits _ H1) as [n1 E1], (int_digits _ H2) as [n2 E2],
         (int_digits _ H3) as [n3 E3], (int_digits _ H4) as [n4 E4],
         (int_digits _ H5) as [n5 E5].
       cbn [rbind Re.group Nat.sub nth].
       rewrite E1, E2, E3, E4, E5. cbn [rbind]. eexists. reflexivity. }
  cbn [rbind].
  destruct (match_in_range_total AVExtractor.CHAPTERS_TITLE_1_RE line)
    as [E1 | [mat [Em E1]]]; rewrite ?E1.
  { intros mat H. destruct (title_1_re_groups line mat H)
      as [g1 [g2 [-> [H1 H2]]]]. eauto. }
  2: { destruct (title_1_re_groups line mat Em) as [g1 [g2 [-> [H1 H2]]]].
       destruct (int_digits _ H1) as [n1 N1], (int_digits _ H2) as [n2 N2].
       cbn [rbind Re.group Nat.sub nth].
       rewrite N1, N2. cbn [rbind]. eexists. reflexivity. }
  cbn [rbind].
  destruct (match_in_range_total AVExtractor.CHAPTERS_TITLE_2_RE line)
    as [E2 | [mat [Em E2]]]; rewrite ?E2.
  { intros mat H. destruct (title_2_re_groups line mat H)
      as [g1 [t [-> H1]]]. eauto. }
  2: { destruct (title_2_re_groups line mat Em) as [g1 [t [-> H1]]].
       destruct (int_digits _ H1) as [n1 N1].
       cbn [rbind Re.group Nat.sub nth].
       rewrite N1. cbn [rbind]. eexists. reflexivity. }
  cbn [rbind]. eexists. reflexivity.
Qed.

Lemma chapter_lines_total (offset_index : Z) (offset_time : Datetime.timedelta)
    (lines : list pystr) :
  forall acc, exists out,
    AVExtractor.chapter_lines start end_ offset_index offset_time lines acc
    = Ok out.
Proof.
  induction lines as [| line lines IH]; intros acc.
  - exists acc. reflexivity.
  - cbn [AVExtractor.chapter_lines].
    destruct (chapter_line_total offset_index offset_time line) as [out E].
    rewrite E. cbn [rbind]. apply IH.
Qed.
End AnyLine.

Lemma search_from_inv (ml : bool) (p : Re.regex) (s : pystr) :
  forall prev m,
    Re.search_from ml p prev s = Some m ->
    exists prev' s', Re.run ml p prev' s' [] [] = Some m.
Proof.
  induction s as [| c s IH]; intros prev m H; cbn [Re.search_from] in H.
  - destruct (Re.run ml p prev [] [] []) eqn:E; [| discriminate H].
    injection H as <-. eauto.
  - destruct (Re.run ml p prev (c :: s) [] []) eqn:E.
    + injection H as <-. eauto.
    + apply IH in H. exact H.
Qed.

Lemma offsets_total (start : option Z) (chapters : pystr) :
  (exists off, AVExtractor.offsets start chapters = Ok off)
  \/ (start <> None
      /\ AVExtractor.offsets start chapters
         = Raise (Exception (L "Start chapter could not be found!"))).
Proof.
  unfold AVExtractor.offsets. destruct start as [start |]; [| left; eauto].
  unfold Re.search.
  destruct (Re.search_from _ _ _ _) as [mat |] eqn:E.
  - left. apply search_from_inv in E. destruct E as [prev' [s' H]].
    cbn [List.app Re.run] in H.
    destruct (Re.at_bol true prev'); [| discriminate H].
    apply run_lit_inv in H. destruct H as [s1 [p1 [-> H]]].
    apply run_lit_inv in H. destruct H as [s2 [p2 [-> H]]].
    apply run_lit_inv in H. destruct H as [s3 [p3 [-> H]]].
    apply run_timestamp_inv in H.
    destruct H as [h [m [s [ms [-> Hall]]]]].
    inversion Hall as [| ? ? H1 Hall1]; subst.
    inversion Hall1 as [| ? ? H2 Hall2]; subst.
    inversion Hall2 as [| ? ? H3 Hall3]; subst.
    inversion Hall3 as [| ? ? H4 _]; subst.
    destruct (int_digits _ H1) as [n1 E1], (int_digits _ H2) as [n2 E2],
      (int_digits _ H3) as [n3 E3], (int_digits _ H4) as [n4 E4].
    cbn [List.rev List.app Re.group Nat.sub nth].
    rewrite E1, E2, E3, E4. cbn [rbind]. eauto.
  - right. split; [discriminate | reflexivity].
Qed.

(** With conversions that have no limit of digits, as [Py.int] and
    [Py.str_int] are, slicing any text either yields a text, or fails
    because a start chapter is set and no line of the text gives its
    time. *)
Lemma slicer_outcomes (start end_ : option Z) (chapters : pystr) :
  (exists out, AVExtractor.new_chapters start end_ chapters = Ok out)
  \/ (start <> None
      /\ AVExtractor.new_chapters start end_ chapters
         = Raise (Exception (L "Start chapter could not be found!"))).
Proof.
  unfold AVExtractor.new_chapters.
  destruct (offsets_total start chapters) as [[off E] | [Hs E]]; rewrite E.
  - left. cbn [rbind]. apply chapter_lines_total.
  - right. split; [exact Hs | reflexivity].
Qed.

(** X6: On a text whose runs of digits are shorter than 4300 characters,
    with a start chapter below [10 ^ 4299] in size (so that every number
    read and written stays within what [int] and [str] convert), slicing
    either yields a text, or fails because a start chapter is set and no
    line of the text gives its time; nothing else in the text can make it
    fail. *)
Theorem slicer_fails_only_for_missing_start (start end_ : option Z)
    (chapters : pystr) :
  (longest_digit_run chapters < max_str_digits)%nat ->
  (forall s, start = Some s -> Z.abs s < 10 ^ 4299) ->
  (exists out, AVExtractor.new_chapters start end_ chapters = Ok out)
  \/ (start <> None
      /\ AVExtractor.new_chapters start end_ chapters
         = Raise (Exception (L "Start chapter could not be found!"))).
Proof. intros _ _. apply slicer_outcomes. Qed.

Lemma slicer_fails_only_for_missing_start_witness :
  (longest_digit_run (render six_chapters) < max_str_digits)%nat
  /\ ((exists out,
         AVExtractor.new_chapters (Some 7) None (render six_chapters) = Ok out)
      \/ (Some 7 <> None
          /\ AVExtractor.new_chapters (Some 7) None (render six_chapters)
             = Raise (Exception (L "Start chapter could not be found!")))).
Proof.
  assert (H : (longest_digit_run (render six_chapters) < max_str_digits)%nat).
  { apply Nat.ltb_lt. vm_compute. reflexivity. }
  split; [exact H |].
  apply (slicer_fails_only_for_missing_start (Some 7) None
           (render six_chapters) H).
  intros s E. injection E as <-. apply Z.ltb_lt. vm_compute. reflexivity.
Defined.

(** ** Chapter times modulo a day *)

(** The difference of two timestamps, the way [chapter_line] reads it off
    a [timedelta]: the days are dropped. *)
Lemma sub_fields_wrapping (t toff : Z) :
  let d := (t - toff) mod day_ms in
  let new_time :=
    Datetime.sub (Datetime.normalize (t * 1000))
                 (Datetime.normalize (toff * 1000)) in
  Datetime.seconds new_time / 3600 = d / 3600000
  /\ Datetime.seconds new_time / 60 mod 60 = d / 60000 mod 60
  /\ Datetime.seconds new_time mod 60 = d / 1000 mod 60
  /\ Datetime.microseconds new_time / 1000 = d mod 1000.
Proof.
  cbv zeta. unfold day_ms. set (D := t - toff).
  unfold Datetime.sub. rewrite !total_us_normalize.
  replace (t * 1000 - toff * 1000) with (D * 1000) by (subst D; ring).
  unfold Datetime.normalize, Datetime.us_per_day.
  cbn [Datetime.seconds Datetime.microseconds].
  change (86400 * 1000000) with (86400000 * 1000).
  rewrite Z.mul_mod_distr_r by lia.
  change 1000000 with (1000 * 1000).
  rewrite Z.div_mul_cancel_r by lia.
  rewrite Z.mul_mod_distr_r by lia.
  rewrite Z.div_mul by lia.
  rewrite !Z.div_div by lia.
  repeat split; try reflexivity.
  symmetry. apply Z.mod_mod_divide. exists 86400. reflexivity.
Qed.

Section ChapterLineWrapping.
Variables start end_ : option Z.
Variables ioff toff : Z.

Lemma chapter_line_timestamp_wrapping (i h m s ms : Z) :
  well_formed (Timestamp i h m s ms) ->
  AVExtractor.chapter_line start end_ ioff (Datetime.normalize (toff * 1000))
    (render_record (Timestamp i h m s ms))
  = Ok (if within start end_ i
        then render_record (rebase_wrapping ioff toff (Timestamp i h m s ms))
             ++ [nl]
        else []).
Proof.
  intros [Hi [Hh [Hm [Hs Hms]]]].
  unfold AVExtractor.chapter_line, AVExtractor.match_in_range.
  rewrite (time_re_timestamp i Hi h m s ms Hh Hm Hs Hms).
  cbn [Re.group Nat.sub nth rbind].
  rewrite (int__padded 2 i Hi). cbn [rbind].
  rewrite in_range_within.
  destruct (within start end_ i) eqn:Ew; cbn [Re.group Nat.sub nth rbind].
  - rewrite (int__padded 2 i Hi), (int__padded 2 h), (int__padded 2 m),
      (int__padded 2 s), (int__padded 3 ms) by lia.
    cbn [rbind]. f_equal.
    rewrite make_normalize.
    destruct (sub_fields_wrapping (millis h m s ms) toff)
      as [E1 [E2 [E3 E4]]].
    rewrite E1, E2, E3, E4.
    unfold rebase_wrapping, render_record, padded, str, Str_int.
    repeat rewrite <- app_assoc. reflexivity.
  - unfold render_record.
    rewrite (title_1_re_timestamp i Hi), (title_2_re_timestamp i Hi).
    reflexivity.
Qed.

Lemma chapter_line_record_wrapping (r : chapter_record) :
  well_formed r ->
  AVExtractor.chapter_line start end_ ioff (Datetime.normalize (toff * 1000))
    (render_record r)
  = Ok (if within start end_ (index_of r)
        then render_record (rebase_wrapping ioff toff r) ++ [nl]
        else []).
Proof.
  intros Hwf. destruct r as [i h m s ms | i n | i t].
  - apply chapter_line_timestamp_wrapping. exact Hwf.
  - apply (chapter_line_label start end_ ioff toff i n Hwf).
  - apply (chapter_line_title start end_ ioff toff i t Hwf).
Qed.

Lemma chapter_lines_records_wrapping (rs : list chapter_record) (acc : pystr) :
  Forall well_formed rs ->
  AVExtractor.chapter_lines start end_ ioff (Datetime.normalize (toff * 1000))
    (map render_record rs) acc
  = Ok (acc
        ++ render (map (rebase_wrapping ioff toff)
                     (filter (fun r => within start end_ (index_of r)) rs))).
Proof.
  intros Hwf. revert acc.
  induction Hwf as [| r rs Hr Hrs IH]; intros acc.
  - cbn. rewrite app_nil_r. reflexivity.
  - cbn [map AVExtractor.chapter_lines].
    rewrite (chapter_line_record_wrapping r Hr).
    cbn [rbind]. rewrite IH.
    f_equal. cbn [filter].
    destruct (within start end_ (index_of r)).
    + cbn [map]. unfold render, unlines. cbn [map List.concat].
      repeat rewrite <- app_assoc. reflexivity.
    + rewrite app_nil_r. reflexivity.
Qed.
End ChapterLineWrapping.

Lemma new_chapters_emitted (start end_ : option Z) (rs : list chapter_record)
    (toff : Z) :
  Forall well_formed rs ->
  time_offset start rs = Some toff ->
  AVExtractor.new_chapters start end_ (render rs)
  = Ok (render (emitted start end_ toff rs)).
Proof.
  intros Hwf Hoff. unfold AVExtractor.new_chapters.
  rewrite (offsets_render start rs Hwf), Hoff. cbn [rbind fst snd].
  unfold render at 1. rewrite splitlines_unlines.
  - rewrite (chapter_lines_records_wrapping start end_ (index_offset start)
               toff rs [] Hwf).
    reflexivity.
  - apply Forall_forall. intros l Hl. apply in_map_iff in Hl.
    destruct Hl as [r [<- Hr]]. apply rendered_line_safe.
    rewrite Forall_forall in Hwf. apply Hwf. exact Hr.
Qed.

Lemma wrapped_fields (d : Z) :
  0 <= d < day_ms ->
  0 <= d / 3600000 < 24 /\ 0 <= d / 60000 mod 60 < 60
  /\ 0 <= d / 1000 mod 60 < 60 /\ 0 <= d mod 1000 < 1000.
Proof.
  unfold day_ms. intros Hd.
  repeat split; try (apply Z.mod_pos_bound; lia);
    try (apply Z.div_pos; lia).
  apply Z.div_lt_upper_bound; lia.
Qed.

Lemma emitted_clock_time (start end_ : option Z) (toff : Z)
    (rs : list chapter_record) :
  Forall clock_time (emitted start end_ toff rs).
Proof.
  unfold emitted. apply Forall_forall. intros r Hr.
  apply in_map_iff in Hr. destruct Hr as [r0 [<- _]].
  destruct r0 as [i h m s ms | i n | i t]; cbn; try exact I.
  destruct (wrapped_fields ((millis h m s ms - toff) mod day_ms)) as [H1 [H2 [H3 _]]].
  - apply Z.mod_pos_bound. reflexivity.
  - lia.
Qed.


Lemma disordered_chapters_well_formed : Forall well_formed disordered_chapters.
Proof.
  unfold disordered_chapters.
  repeat (constructor; [cbn; repeat split; lia |]).
  constructor.
Defined.


(** ** Slicing what has been sliced *)

Lemma as_written_render (r : chapter_record) :
  render_record (as_written r) = render_record r.
Proof.
  destruct r as [i h m s ms | i n | i t]; try reflexivity.
  cbn [as_written]. destruct (n <? 0); [| reflexivity].
  cbn [render_record].
  change (L "NAME=Chapter ") with (L "NAME=" ++ L "Chapter ").
  repeat rewrite <- app_assoc. reflexivity.
Qed.

Lemma render_as_written (rs : list chapter_record) :
  render (map as_written rs) = render rs.
Proof.
  unfold render. rewrite map_map. f_equal. apply map_ext.
  apply as_written_render.
Qed.

Lemma line_safe_forallb (t : pystr) :
  line_safe t -> forallb (fun c => negb (Py.is_linebreak c)) t = true.
Proof.
  intros H. apply forallb_forall. intros c Hc.
  unfold line_safe in H. rewrite Forall_forall in H. rewrite (H c Hc).
  reflexivity.
Qed.

Lemma within_index (start end_ : option Z) (i : Z) :
  within start end_ i = true -> 0 <= i -> 0 <= i - index_offset start.
Proof.
  unfold within, index_offset. intros H Hi.
  destruct start as [s |]; [| lia].
  apply andb_true_iff in H. destruct H as [H _]. apply Z.leb_le in H. lia.
Qed.

Lemma negative_label_is_title (i n : Z) :
  0 <= i -> n < 0 -> well_formed (Title i (L "Chapter " ++ padded 2 n)).
Proof.
  intros Hi Hn. cbn [well_formed]. split; [exact Hi |]. split.
  - apply line_safe_forallb. apply line_safe_app;
      [apply line_safe_literal; reflexivity | apply line_safe_padded].
  - unfold is_label_title. rewrite strip_prefix_app.
    destruct (padded_negative 2 n Hn) as [rest ->]. reflexivity.
Qed.

Lemma emitted_well_formed (start end_ : option Z) (toff : Z)
    (rs : list chapter_record) :
  Forall well_formed rs ->
  Forall well_formed (map as_written (emitted start end_ toff rs)).
Proof.
  intros Hwf. apply Forall_forall. intros r Hr.
  apply in_map_iff in Hr. destruct Hr as [r1 [<- Hr1]].
  unfold emitted in Hr1. apply in_map_iff in Hr1.
  destruct Hr1 as [r0 [<- Hr0]]. apply filter_In in Hr0.
  destruct Hr0 as [Hin Hw]. rewrite Forall_forall in Hwf.
  specialize (Hwf r0 Hin).
  destruct r0 as [i h m s ms | i n | i t]; cbn [index_of] in Hw;
    cbn [well_formed] in Hwf.
  - cbn [rebase_wrapping as_written well_formed].
    destruct (wrapped_fields ((millis h m s ms - toff) mod day_ms))
      as [H1 [H2 [H3 H4]]]; [apply Z.mod_pos_bound; reflexivity |].
    pose proof (within_index start end_ i Hw). lia.
  - cbn [rebase_wrapping as_written].
    pose proof (within_index start end_ i Hw) as Hi.
    destruct (Z.ltb_spec (n - index_offset start) 0) as [Hn | Hn].
    + apply negative_label_is_title; [apply Hi |]; lia.
    + cbn [well_formed]. lia.
  - cbn [rebase_wrapping as_written well_formed].
    pose proof (within_index start end_ i Hw). split; [lia | tauto].
Qed.

Lemma as_written_clock_time (rs : list chapter_record) :
  Forall clock_time rs -> Forall clock_time (map as_written rs).
Proof.
  intros H. apply Forall_forall. intros r Hr. apply in_map_iff in Hr.
  destruct Hr as [r0 [<- Hr0]]. rewrite Forall_forall in H.
  specialize (H r0 Hr0). destruct r0 as [i h m s ms | i n | i t];
    cbn [as_written]; try exact H.
  destruct (n <? 0); exact I.
Qed.



(** ** The extractions *)

Lemma bind_done_inv {A B} (c : M A) (k : A -> M B) (s s2 : state) (b : B) :
  bind c k s = (Done b, s2) ->
  exists a s1, c s = (Done a, s1) /\ k a s1 = (Done b, s2).
Proof.
  unfold bind. destruct (c s) as [[a | e | z] s1]; intros H;
    try discriminate H.
  exists a, s1. split; [reflexivity | exact H].
Qed.

(** What [check_output] and [check_call] leave in the trace. *)
Lemma check_output_run (w : world) (cmd : list pystr) (s : state) :
  let pid := launched s in
  Subprocess.check_output w cmd s
  = if spawns w pid then
      if exit_status w pid =? 0 then
        (Done (stdout_of w pid),
         {| trace := trace s ++ [Launch pid cmd; Wait pid];
            launched := S pid |})
      else
        (Raised CalledProcessError,
         {| trace := trace s ++ [Launch pid cmd; Wait pid];
            launched := S pid |})
    else
      (Raised FileNotFoundError,
       {| trace := trace s ++ [Launch pid cmd]; launched := S pid |}).
Proof.
  cbv zeta.
  unfold Subprocess.check_output, bind, Subprocess.Popen, Subprocess.wait,
    emit, ret, raise, bind.
  destruct (spawns w (launched s)); cbn; [| reflexivity].
  rewrite <- app_assoc.
  destruct (exit_status w (launched s) =? 0); reflexivity.
Qed.

Lemma check_call_run (w : world) (cmd : list pystr) (s : state) :
  let pid := launched s in
  Subprocess.check_call w cmd s
  = if spawns w pid then
      if exit_status w pid =? 0 then
        (Done tt,
         {| trace := trace s ++ [Launch pid cmd; Wait pid];
            launched := S pid |})
      else
        (Raised CalledProcessError,
         {| trace := trace s ++ [Launch pid cmd; Wait pid];
            launched := S pid |})
    else
      (Raised FileNotFoundError,
       {| trace := trace s ++ [Launch pid cmd]; launched := S pid |}).
Proof.
  cbv zeta.
  unfold Subprocess.check_call, bind, Subprocess.Popen, Subprocess.wait,
    emit, ret, raise, bind.
  destruct (spawns w (launched s)); cbn; [| reflexivity].
  rewrite <- app_assoc.
  destruct (exit_status w (launched s) =? 0); reflexivity.
Qed.


(** X10: [extract_attachments] makes the directory, changes into it and asks
    [mkvextract] for the attachments; it changes back to the directory it
    came from only when the tool has ended with status 0, so a failing
    extraction leaves the process in the attachment directory.  For a
    source that is not a Matroska file it does nothing but fail. *)
Theorem attachments_change_back_on_success (w : world) (self : AVExtractor.t)
    (directory : pystr) (s : state) :
  let r := AVExtractor.extract_attachments w self directory s in
  let pid := launched s in
  let cmd :=
    [L "mkvextract"; L "attachments"; AVExtractor.path self]
    ++ AVExtractor.str_range_1 (AVExtractor.attachment_cnt self) in
  if AVExtractor.is_matroska self then
    exists t,
      trace (snd r)
      = trace s ++ Mkdir directory :: Chdir directory :: Launch pid cmd :: t
      /\ if spawns w pid && (exit_status w pid =? 0)
         then fst r = Done tt /\ t = [Wait pid; Chdir (getcwd w)]
         else (exists e, fst r = Raised e)
              /\ Forall (fun e => touches_files e = false) t
  else r = (Raised AssertionError, s).
Proof.
  cbv zeta. unfold AVExtractor.extract_attachments.
  destruct (AVExtractor.is_matroska self); cbn [negb]; [| reflexivity].
  match goal with
  | |- exists t, trace (snd ?c) = _ /\ _ => remember c as r eqn:Er
  end.
  unfold bind at 1 in Er. cbn [emit] in Er.
  unfold bind at 1 in Er. cbn [emit trace launched] in Er.
  unfold bind at 1 in Er. rewrite check_call_run in Er.
  cbn [trace launched] in Er.
  destruct (spawns w (launched s)) eqn:Esp.
  - destruct (Z.eqb_spec (exit_status w (launched s)) 0) as [Ex | Ex];
      subst r; cbn.
    + eexists. repeat rewrite <- app_assoc.
      split; [reflexivity | split; reflexivity].
    + eexists. repeat rewrite <- app_assoc. split; [reflexivity |].
      split; [eexists; reflexivity | repeat constructor].
  - subst r. cbn. eexists. repeat rewrite <- app_assoc.
    split; [reflexivity |].
    split; [eexists; reflexivity | repeat constructor].
Qed.

(** ** From the construction of the extractor to its commands *)

Lemma init_done (w : world) path disc_type disc_title chap_start chap_end maid
    msid (s s' : state) (self : AVExtractor.t) :
  AVExtractor.__init__ w path disc_type disc_title chap_start chap_end maid
    msid s = (Done self, s') ->
  AVExtractor.mplayer_input_args self
  = AVExtractor.input_args path disc_type disc_title maid msid
    ++ AVExtractor.chapter_args chap_start chap_end
  /\ AVExtractor.chap_start self = chap_start
  /\ AVExtractor.chap_end self = chap_end
  /\ AVExtractor.path self = abspath w path
  /\ exists t,
       trace s'
       = trace s
         ++ Launch (launched s)
              (AVExtractor.probe_command
                 (AVExtractor.input_args path disc_type disc_title maid msid))
            :: t.
Proof.
  unfold AVExtractor.__init__. intros H.
  apply bind_done_inv in H. destruct H as [out [s1 [H1 H]]].
  rewrite check_output_run in H1. cbv zeta in H1.
  assert (Ht : exists t1,
            trace s1
            = trace s
              ++ Launch (launched s)
                   (AVExtractor.probe_command
                      (AVExtractor.input_args path disc_type disc_title maid
                         msid)) :: t1).
  { destruct (spawns w (launched s)); [| discriminate H1].
    destruct (exit_status w (launched s) =? 0); [| discriminate H1].
    injection H1 as _ <-. cbn. eexists. reflexivity. }
  clear H1. destruct Ht as [t1 Ht].
  assert (Hkeep : forall {A} (c : M A) (x : A) (s2 s3 : state),
            tame c -> c s2 = (Done x, s3) ->
            (exists t2, trace s2 = trace s ++ Launch (launched s)
                (AVExtractor.probe_command
                   (AVExtractor.input_args path disc_type disc_title maid
                      msid)) :: t2) ->
            exists t3, trace s3 = trace s ++ Launch (launched s)
                (AVExtractor.probe_command
                   (AVExtractor.input_args path disc_type disc_title maid
                      msid)) :: t3).
  { intros A c x s2 s3 Hc E [t2 E2]. destruct (Hc s2) as [[t Et] _].
    rewrite E in Et. cbn in Et. rewrite Et, E2.
    exists (t2 ++ t). rewrite <- app_assoc. reflexivity. }
  apply bind_done_inv in H. destruct H as [video [s2 [H2 H]]].
  assert (Ht2 : exists t2,
            trace s2 = trace s ++ Launch (launched s)
                (AVExtractor.probe_command
                   (AVExtractor.input_args path disc_type disc_title maid
                      msid)) :: t2).
  { eapply Hkeep; [| exact H2 | eexists; exact Ht]. tame. }
  clear H2 Ht.
  apply bind_done_inv in H. destruct H as [[[sr ch] ac] [s3 [H3 H]]].
  assert (Ht3 : exists t3,
            trace s3 = trace s ++ Launch (launched s)
                (AVExtractor.probe_command
                   (AVExtractor.input_args path disc_type disc_title maid
                      msid)) :: t3).
  { eapply Hkeep; [| exact H3 | exact Ht2]. tame. }
  clear H3 Ht2. cbv zeta in H.
  destruct (AVExtractor.disc_eqb disc_type dvd).
  { injection H as <- <-. cbn. auto. }
  destruct (pystr_eqb _ _).
  2: { injection H as <- <-. cbn. auto. }
  apply bind_done_inv in H. destruct H as [out2 [s4 [H4 H]]].
  assert (Ht4 : exists t4,
            trace s4 = trace s ++ Launch (launched s)
                (AVExtractor.probe_command
                   (AVExtractor.input_args path disc_type disc_title maid
                      msid)) :: t4).
  { eapply Hkeep; [| exact H4 | exact Ht3]. auto with tame. }
  clear H4 Ht3.
  destruct (Re.search true AVExtractor.MKV_SUBTITLES_RE out2).
  - apply bind_done_inv in H. destruct H as [n [s5 [H5 H]]].
    assert (Ht5 : exists t5,
              trace s5 = trace s ++ Launch (launched s)
                  (AVExtractor.probe_command
                     (AVExtractor.input_args path disc_type disc_title maid
                        msid)) :: t5).
    { eapply Hkeep; [| exact H5 | exact Ht4]. auto with tame. }
    injection H as <- <-. cbn. auto.
  - injection H as <- <-. cbn. auto.
Qed.

(** X11: The probe that the constructor runs looks at the whole input, without
    the chapter range; every extractor it returns carries the range in
    its input selection, so that the command that decodes the video ends
    with the input selection, the range, [-nosound] and the subtitle
    switch, and the command that decodes the audio of a range is the
    [mplayer] command that ends with the input selection and the range. *)
Theorem chapter_range_reaches_decoders (w : world) (path : pystr)
    (disc_type : option disc) (disc_title : Z)
    (chap_start chap_end maid msid : option Z) (s s' : state)
    (self : AVExtractor.t) :
  AVExtractor.__init__ w path disc_type disc_title chap_start chap_end maid
    msid s = (Done self, s') ->
  let selection := AVExtractor.input_args path disc_type disc_title maid msid in
  let range := AVExtractor.chapter_args chap_start chap_end in
  (exists t,
     trace s'
     = trace s ++ Launch (launched s) (AVExtractor.probe_command selection) :: t)
  /\ (forall denoise pp scale crop deint ivtc force_rate hardsub,
        exists filters_and_rate,
          AVExtractor.get_decode_video_command self denoise pp scale crop
            deint ivtc force_rate hardsub
          = filters_and_rate ++ selection ++ range ++ [L "-nosound"]
            ++ AVExtractor.hardsub_opt hardsub)
  /\ (range <> [] ->
      AVExtractor.decode_audio self
      = Ok ([L "mplayer"; L "-quiet"; L "-really-quiet"; L "-nocorrect-pts";
             L "-vc"; L "null"; L "-vo"; L "null"; L "-channels";
             str (AVExtractor.audio_channels self); L "-ao";
             L "pcm:fast:waveheader:file=/dev/stdout"]
            ++ selection ++ range)).
Proof.
  intros H. cbv zeta.
  destruct (init_done _ _ _ _ _ _ _ _ _ _ _ H) as [Ea [Es [Ee [_ Ht]]]].
  split; [exact Ht |]. split.
  - intros. unfold AVExtractor.get_decode_video_command. rewrite Ea.
    exists ([L "mencoder"; L "-quiet"; L "-really-quiet"; L "-sws"; L "9";
             L "-vf"; AVExtractor.filters denoise pp scale crop deint ivtc]
            ++ AVExtractor.ofps ivtc force_rate
            ++ [L "-ovc"; L "raw"; L "-of"; L "rawvideo"; L "-o"; L "-"]).
    repeat rewrite <- app_assoc. reflexivity.
  - intros Hr. unfold AVExtractor.decode_audio. rewrite Es, Ee, Ea.
    destruct chap_start, chap_end; try reflexivity.
    contradiction Hr. reflexivity.
Qed.

Lemma chapter_range_reaches_decoders_witness :
  exists self s',
    AVExtractor.__init__ mkv_world (L "in.mkv") None 1 (Some 3) (Some 5) None
      None initial = (Done self, s')
    /\ AVExtractor.decode_audio self
       = Ok [L "mplayer"; L "-quiet"; L "-really-quiet"; L "-nocorrect-pts";
             L "-vc"; L "null"; L "-vo"; L "null"; L "-channels"; L "2";
             L "-ao"; L "pcm:fast:waveheader:file=/dev/stdout"; L "in.mkv";
             L "-chapter"; L "3-5"].
Proof.
  eexists. eexists. split; [vm_compute; reflexivity |].
  refine (proj2 (proj2 (chapter_range_reaches_decoders mkv_world (L "in.mkv")
                          None 1 (Some 3) (Some 5) None None initial _ _ _)) _).
  - vm_compute. reflexivity.
  - discriminate.
Defined.

(** ** The audio encoders as [main] calls them *)

Lemma parsed_audio_mode (a : Args.t) :
  Args.parsed a = true ->
  is_some (Args.audio_quality a) && is_some (Args.audio_bitrate a) = false.
Proof.
  unfold Args.parsed. rewrite !andb_true_iff.
  intros [[[_ H] _] _]. apply negb_true_iff in H. exact H.
Qed.

(** X12: With the Opus codec the audio quality of the command line has no
    effect: the parser never passes a quality together with a bitrate, so
    the encoder gets [--bitrate] when a bitrate is given and [--vbr]
    otherwise, and never [--vcbr]. *)
Theorem opus_ignores_quality (w : world) (a : Args.t) (s : state) :
  Args.parsed a = true ->
  Args.audio_codec a = L "opus" ->
  let audio_path := OsPath.join (work_dir w) (L "audio.opus") in
  audio_encoder w a s
  = (Done (audio_path,
           [L "opusenc"; L "--ignorelength"; L "--discard-comments"]
           ++ match Args.audio_bitrate a with
              | Some b => [L "--bitrate"; Py.str_int b]
              | None => [L "--vbr"]
              end
           ++ [L "-"; audio_path]),
     {| trace := trace s ++ [Print (L "==> Transcoding audio to Opus format ...")];
        launched := launched s |}).
Proof.
  intros Hp Hc. cbv zeta. pose proof (parsed_audio_mode a Hp) as Hm.
  unfold audio_encoder. rewrite Hc.
  destruct (Args.audio_quality a), (Args.audio_bitrate a);
    try discriminate Hm; reflexivity.
Qed.

Lemma opus_ignores_quality_witness :
  fst (audio_encoder avi_world plain_run initial)
  = Done (L "/tmp/qtranscode-0/audio.opus",
          [L "opusenc"; L "--ignorelength"; L "--discard-comments"; L "--vbr";
           L "-"; L "/tmp/qtranscode-0/audio.opus"]).
Proof.
  rewrite (opus_ignores_quality avi_world plain_run initial eq_refl eq_refl).
  reflexivity.
Defined.

Lemma mp3_levels (n : Z) :
  0 <= n <= 1000 ->
  (x <- Float.int_to_float n ;;
   Float.round (Float.sub (Float.of_Z 10) x))%result = Ok (10 - n).
Proof.
  intros Hn.
  assert (Hall : forallb mp3_level_ok (seq 0 1001) = true)
    by (vm_compute; reflexivity).
  rewrite forallb_forall in Hall.
  specialize (Hall (Z.to_nat n)).
  assert (Hin : In (Z.to_nat n) (seq 0 1001)) by (apply in_seq; lia).
  specialize (Hall Hin). unfold mp3_level_ok in Hall.
  rewrite Z2Nat.id in Hall by lia.
  destruct (_ <- _ ;; _)%result as [r | e]; [| discriminate Hall].
  apply Z.eqb_eq in Hall. rewrite Hall. reflexivity.
Qed.

(** X13: With the MP3 codec [main] hands the quality of the command line to
    the builder as its bitrate, and the bitrate as its quality: a quality
    [x] gives [lame -b x], and a bitrate [n] (shown here for the bitrates
    up to 1000) gives [lame -V] with the level [10 - n]. *)
Theorem mp3_options_are_swapped (w : world) (a : Args.t) (s : state) :
  Args.parsed a = true ->
  Args.audio_codec a = L "mp3" ->
  let audio_path := OsPath.join (work_dir w) (L "audio.mp3") in
  (forall x,
     Args.audio_quality a = Some x ->
     fst (audio_encoder w a s)
     = Done (audio_path,
             [L "lame"; L "-b"; float_repr w x; L "-"; audio_path]))
  /\ (forall n,
        Args.audio_bitrate a = Some n -> 0 <= n <= 1000 ->
        fst (audio_encoder w a s)
        = Done (audio_path,
                [L "lame"; L "-V"; Py.str_int (10 - n); L "-"; audio_path])).
Proof.
  intros Hp Hc. cbv zeta. pose proof (parsed_audio_mode a Hp) as Hm.
  unfold audio_encoder. rewrite Hc. split.
  - intros x Hx. rewrite Hx in *.
    destruct (Args.audio_bitrate a); [discriminate Hm |]. reflexivity.
  - intros n Hb Hn. rewrite Hb in *.
    destruct (Args.audio_quality a); [discriminate Hm |].
    pose proof (mp3_levels n Hn) as Hl.
    cbn [option_map]. unfold get_encode_mp3_command.
    cbn [is_some andb negb assert rbind to_float].
    destruct (Float.int_to_float n) as [x | e]; [| discriminate Hl].
    cbn [rbind] in Hl |- *. rewrite Hl. reflexivity.
Qed.

Lemma mp3_options_are_swapped_witness :
  fst (audio_encoder avi_world mp3_run initial)
  = Done (L "/tmp/qtranscode-0/audio.mp3",
          [L "lame"; L "-V"; L "-118"; L "-"; L "/tmp/qtranscode-0/audio.mp3"]).
Proof.
  refine (proj2 (mp3_options_are_swapped avi_world mp3_run initial eq_refl
                   eq_refl) 128 eq_refl _).
  lia.
Defined.

(** ** The stage with no name *)

(** X14: The filter chain of the video decode command has a stage with no name
    (two commas in a row) exactly when inverse telecine is asked for
    without a crop. *)
Theorem empty_filter_stage (denoise pp : bool) (scale crop : option (list Z))
    (deint ivtc : bool) :
  In [] (stages (AVExtractor.filters denoise pp scale crop deint ivtc))
  <-> ivtc = true /\ crop = None.
Proof.
  rewrite stages_filters.
  destruct ivtc, deint, pp, denoise, crop as [c |], scale as [sc |];
    cbn [List.app In]; split;
    try (intros [H1 H2]; discriminate);
    try (intros _; tauto);
    intros H;
    repeat (destruct H as [H | H]; [discriminate H |]);
    contradiction.
Qed.

(** ** The sample aspect ratio *)

Lemma make_zero (n : Z) : Fraction.make n 0 = Raise ZeroDivisionError.
Proof. reflexivity. Qed.

(** X15: The sample aspect ratio that [main] hands to the H.264 encoder: with a
    display aspect [p:q] and a picture of [w] by [h] it is the fraction
    [(p/q) / (w/h)] in lowest terms, with a pixel aspect [p:q] it is
    [p/q] in lowest terms, and 1/1 otherwise; a zero among [q], [w] and
    [h] raises [ZeroDivisionError]. *)
Theorem sample_aspect_ratio (a : Args.t) (dims : Z * Z) :
  match Args.display_aspect a, Args.pixel_aspect a with
  | Some (p, q), _ =>
      if (q =? 0) || (fst dims =? 0) || (snd dims =? 0)
      then sample_aspect a dims = Raise ZeroDivisionError
      else exists sar,
             sample_aspect a dims = Ok sar
             /\ lowest_terms sar
             /\ Fraction.numerator sar * (q * fst dims)
                = p * snd dims * Fraction.denominator sar
  | None, Some (p, q) =>
      if q =? 0
      then sample_aspect a dims = Raise ZeroDivisionError
      else exists sar,
             sample_aspect a dims = Ok sar
             /\ lowest_terms sar
             /\ Fraction.numerator sar * q = p * Fraction.denominator sar
  | None, None =>
      sample_aspect a dims
      = Ok {| Fraction.numerator := 1; Fraction.denominator := 1 |}
  end.
Proof.
  unfold sample_aspect. destruct dims as [w h]. cbn [fst snd].
  destruct (Args.display_aspect a) as [[p q] |].
  - cbn [fst snd].
    destruct (Z.eqb_spec q 0) as [-> | Hq]; [reflexivity |].
    destruct (make_spec p q Hq) as [x [Ex [[Hxd _] Hx]]]. rewrite Ex.
    cbn [rbind orb].
    destruct (Z.eqb_spec w 0) as [-> | Hw].
    + cbn [orb].
      destruct (Z.eqb_spec h 0) as [-> | Hh]; [reflexivity |].
      destruct (make_spec 0 h Hh) as [y [Ey [[Hyd _] Hy]]]. rewrite Ey.
      cbn [rbind]. unfold Fraction.div.
      assert (Fraction.numerator y = 0) by nia.
      replace (Fraction.denominator x * Fraction.numerator y) with 0 by nia.
      reflexivity.
    + cbn [orb].
      destruct (Z.eqb_spec h 0) as [-> | Hh]; [reflexivity |].
      destruct (make_spec w h Hh) as [y [Ey [[Hyd _] Hy]]]. rewrite Ey.
      cbn [rbind]. unfold Fraction.div.
      assert (Hyn : Fraction.numerator y <> 0) by nia.
      destruct (make_spec (Fraction.numerator x * Fraction.denominator y)
                  (Fraction.denominator x * Fraction.numerator y))
        as [sar [Es [Hl Hc]]]; [nia |].
      exists sar. split; [exact Es |]. split; [exact Hl |].
      apply (Z.mul_cancel_r _ _
               (Fraction.denominator x * Fraction.denominator y)); [nia |].
      transitivity
        (Fraction.numerator sar
         * (Fraction.denominator x * Fraction.numerator y) * (q * h)).
      { replace (Fraction.numerator sar
                 * (Fraction.denominator x * Fraction.numerator y) * (q * h))
          with (Fraction.numerator sar * Fraction.denominator x * q
                * (Fraction.numerator y * h)) by ring.
        rewrite Hy. ring. }
      rewrite Hc.
      replace (Fraction.numerator x * Fraction.denominator y
               * Fraction.denominator sar * (q * h))
        with (Fraction.numerator x * q * Fraction.denominator y
              * Fraction.denominator sar * h) by ring.
      rewrite Hx. ring.
  - destruct (Args.pixel_aspect a) as [[p q] |]; [| reflexivity].
    cbn [fst snd].
    destruct (Z.eqb_spec q 0) as [-> | Hq]; [reflexivity |].
    destruct (make_spec p q Hq) as [x [Ex [Hl Hx]]].
    exists x. auto.
Qed.

(** ** The choice of the AAC encoder *)

Lemma round_raises (x : Float.float) (e : exn) :
  Float.round x = Raise e -> e = OverflowError \/ e = ValueError.
Proof.
  destruct x; cbn; intros H; try discriminate H; injection H as <-; auto.
Qed.

Lemma to_float_raises (q : num) (e : exn) :
  to_float q = Raise e -> e = OverflowError.
Proof.
  destruct q as [z | x]; cbn; [| discriminate].
  unfold Float.int_to_float. destruct (Float.of_Z z); intros H;
    try discriminate H.
  injection H as <-. reflexivity.
Qed.

Lemma affine_level_raises (w : world) (a b : Float.float) (q : num) (e : exn) :
  affine_level a b q = Raise e -> e = OverflowError \/ e = ValueError.
Proof.
  unfold affine_level.
  destruct (to_float q) as [x |] eqn:Eq.
  - cbn [rbind]. destruct (Float.round _) eqn:Er; [discriminate |].
    intros H. injection H as <-. apply (round_raises _ _ Er).
  - cbn [rbind]. intros H. injection H as <-. left.
    apply (to_float_raises _ _ Eq).
Qed.

(** X16: [get_encode_aac_command] refuses a quality together with a bitrate
    before it looks for an encoder.  Otherwise it takes the first encoder
    that is installed among [fdkaac], [neroAacEnc] and [faac], in this
    order, and fails with "No AAC encoder!" when there is none; with an
    encoder at hand it can only fail on a quality, with [OverflowError]
    or [ValueError] (an integer too large for a float, an infinity or a
    NaN, which [round] refuses). *)
Theorem aac_encoder_preference (w : world) (out_path : pystr)
    (quality bitrate : option num) :
  let r := get_encode_aac_command w out_path quality bitrate in
  if is_some quality && is_some bitrate
  then r = Raise AssertionError
  else
    match find (which w) aac_encoders with
    | None => r = Raise (Exception (L "No AAC encoder!"))
    | Some name =>
        match r with
        | Ok cmd => hd [] cmd = name
        | Raise e =>
            quality <> None /\ (e = OverflowError \/ e = ValueError)
        end
    end.
Proof.
  cbv zeta. unfold get_encode_aac_command, aac_encoders.
  destruct (is_some quality && is_some bitrate) eqn:Eb; [reflexivity |].
  cbn [negb assert rbind find].
  destruct (which w (L "fdkaac")).
  { destruct quality as [q |].
    - destruct (affine_level _ _ q) as [m | e] eqn:E; cbn [rbind].
      + reflexivity.
      + split; [discriminate | apply (affine_level_raises w _ _ _ _ E)].
    - destruct bitrate; reflexivity. }
  destruct (which w (L "neroAacEnc")).
  { destruct quality as [q |].
    - destruct (to_float q) as [x | e] eqn:Eq; cbn [rbind].
      + unfold Float.div.
        assert (Hz : Float.is_zero (Float.of_Z 10) = false)
          by (vm_compute; reflexivity).
        rewrite Hz. cbn [rbind].
        destruct (Float.round _) as [r | e] eqn:Er; cbn [rbind].
        * reflexivity.
        * split; [discriminate | apply (round_raises _ _ Er)].
      + split; [discriminate |]. left. apply (to_float_raises _ _ Eq).
    - destruct bitrate; reflexivity. }
  destruct (which w (L "faac")).
  { destruct quality as [q |].
    - destruct (affine_level _ _ q) as [m | e] eqn:E; cbn [rbind].
      + reflexivity.
      + split; [discriminate | apply (affine_level_raises w _ _ _ _ E)].
    - destruct bitrate; reflexivity. }
  reflexivity.
Qed.

(** ** What the extractor offers *)

Lemma check_call_starts (w : world) (tool : pystr) (args : list pystr) :
  starts_tool tool [] (Subprocess.check_call w (tool :: args)).
Proof.
  intros s. rewrite check_call_run. cbv zeta.
  destruct (spawns w (launched s));
    [destruct (exit_status w (launched s) =? 0) |];
    cbn; eexists; eexists; reflexivity.
Qed.

Lemma check_output_starts' (w : world) (tool : pystr) (args : list pystr) :
  starts_tool tool [] (Subprocess.check_output w (tool :: args)).
Proof.
  intros s. rewrite check_output_run. cbv zeta.
  destruct (spawns w (launched s));
    [destruct (exit_status w (launched s) =? 0) |];
    cbn; eexists; eexists; reflexivity.
Qed.

Lemma starts_bind {A B} (tool : pystr) (pre : list event) (c : M A)
    (k : A -> M B) :
  starts_tool tool pre c -> (forall x, tame (k x)) ->
  starts_tool tool pre (bind c k).
Proof.
  intros Hc Hk s. unfold bind. destruct (Hc s) as [args [post E]].
  destruct (c s) as [[a | e | z] s1]; cbn [snd] in *.
  - destruct (Hk a s1) as [[t Et] _]. rewrite Et, E.
    exists args, (post ++ t). repeat rewrite <- app_assoc. reflexivity.
  - exists args, post. exact E.
  - exists args, post. exact E.
Qed.

Lemma starts_after_emit {A} (tool : pystr) (pre : list event) (e : event)
    (c : M A) :
  starts_tool tool pre c ->
  starts_tool tool (e :: pre) (bind (emit e) (fun _ => c)).
Proof.
  intros H s. unfold bind, emit.
  destruct (H {| trace := trace s ++ [e]; launched := launched s |})
    as [args [post E]].
  cbn in E |- *. rewrite E. exists args, post.
  rewrite <- app_assoc. reflexivity.
Qed.

(** What the fields of a new extractor say about the source. *)
Lemma init_capabilities (w : world) (path : pystr)
    (disc_type : option disc) (disc_title : Z)
    (chap_start chap_end maid msid : option Z) (s s' : state)
    (self : AVExtractor.t) :
  AVExtractor.__init__ w path disc_type disc_title chap_start chap_end maid
    msid s = (Done self, s') ->
  AVExtractor.disc_type self = disc_type
  /\ if AVExtractor.disc_eqb disc_type dvd
     then AVExtractor.has_chapters self = true
          /\ AVExtractor.attachment_cnt self = 0
          /\ AVExtractor.disc_title self = Some disc_title
          /\ AVExtractor.mkv_subtitle_tracknum self = None
     else if AVExtractor.is_matroska self
          then AVExtractor.has_subtitles self = true ->
               exists n, AVExtractor.mkv_subtitle_tracknum self = Some n
          else AVExtractor.has_chapters self = false
               /\ AVExtractor.attachment_cnt self = 0
               /\ AVExtractor.has_subtitles self = false.
Proof.
  unfold AVExtractor.__init__. intros H.
  apply bind_done_inv in H. destruct H as [out [s1 [_ H]]].
  apply bind_done_inv in H. destruct H as [video [s2 [_ H]]].
  apply bind_done_inv in H. destruct H as [[[sr ch] ac] [s3 [_ H]]].
  cbv zeta in H.
  destruct (AVExtractor.disc_eqb disc_type dvd) eqn:Ed.
  { injection H as <- <-. cbn [AVExtractor.disc_type AVExtractor.has_chapters
         AVExtractor.attachment_cnt AVExtractor.disc_title
         AVExtractor.mkv_subtitle_tracknum AVExtractor.is_matroska
         AVExtractor.has_subtitles].
    destruct disc_type as [[|] |]; try discriminate Ed. auto. }
  destruct (pystr_eqb _ _) eqn:Em.
  2: { injection H as <- <-. cbn [AVExtractor.disc_type AVExtractor.has_chapters
         AVExtractor.attachment_cnt AVExtractor.disc_title
         AVExtractor.mkv_subtitle_tracknum AVExtractor.is_matroska
         AVExtractor.has_subtitles]. auto. }
  apply bind_done_inv in H. destruct H as [out2 [s4 [_ H]]].
  destruct (Re.search true AVExtractor.MKV_SUBTITLES_RE out2).
  - apply bind_done_inv in H. destruct H as [n [s5 [_ H]]].
    injection H as <- <-. cbn [AVExtractor.disc_type AVExtractor.has_chapters
         AVExtractor.attachment_cnt AVExtractor.disc_title
         AVExtractor.mkv_subtitle_tracknum AVExtractor.is_matroska
         AVExtractor.has_subtitles]. split; [reflexivity |].
    intros _. exists n. reflexivity.
  - injection H as <- <-. cbn [AVExtractor.disc_type AVExtractor.has_chapters
         AVExtractor.attachment_cnt AVExtractor.disc_title
         AVExtractor.mkv_subtitle_tracknum AVExtractor.is_matroska
         AVExtractor.has_subtitles]. split; [reflexivity |].
    discriminate.
Qed.

(** X17: What an extractor made by the constructor reports, it tries to
    extract: with [has_chapters] the chapters start [mkvextract] for a path
    that ends in [.mkv] and [dvdxchap] otherwise; with attachments their
    extraction makes the directory, changes into it and starts
    [mkvextract]; with [has_subtitles] the subtitles start [mkvextract]
    for a file and [mencoder] for a DVD.  The exception is a DVD whose
    device path ends in [.mkv]: its subtitles are asked of the Matroska
    track number, which was never set, and the call raises
    [AttributeError] before any process is started. *)
Theorem extractor_offers_what_it_can_extract (w : world) (path : pystr)
    (disc_type : option disc) (disc_title : Z)
    (chap_start chap_end maid msid : option Z) (s s' : state)
    (self : AVExtractor.t) :
  AVExtractor.__init__ w path disc_type disc_title chap_start chap_end maid
    msid s = (Done self, s') ->
  (AVExtractor.has_chapters self = true ->
   forall filename,
     starts_tool
       (if AVExtractor.is_matroska self then L "mkvextract"
        else L "dvdxchap")
       [] (AVExtractor.extract_chapters w self filename))
  /\ (0 < AVExtractor.attachment_cnt self ->
      forall directory,
        starts_tool (L "mkvextract") [Mkdir directory; Chdir directory]
          (AVExtractor.extract_attachments w self directory))
  /\ (AVExtractor.has_subtitles self = true ->
      forall filename,
        if AVExtractor.disc_eqb disc_type dvd
        then if AVExtractor.is_matroska self
             then forall s0,
                    AVExtractor.extract_subtitles w self filename s0
                    = (Raised AttributeError, s0)
             else starts_tool (L "mencoder") []
                    (AVExtractor.extract_subtitles w self filename)
        else starts_tool (L "mkvextract") []
               (AVExtractor.extract_subtitles w self filename)).
Proof.
  intros H. apply init_capabilities in H. destruct H as [Hd H].
  split; [| split].
  - intros Hc filename. unfold AVExtractor.extract_chapters.
    destruct (AVExtractor.is_matroska self) eqn:Em.
    + apply starts_bind; [| intros x; tame].
      apply check_output_starts'.
    + rewrite Hd.
      destruct (AVExtractor.disc_eqb disc_type dvd).
      * destruct H as [_ [_ [Ht _]]]. rewrite Ht.
        apply starts_bind; [| intros x; tame].
        intros s0.
        exact (check_output_starts' w (L "dvdxchap")
                 [L "--title"; str disc_title; AVExtractor.path self] s0).
      * destruct H as [Hn _]. rewrite Hn in Hc. discriminate Hc.
  - intros Hc directory. unfold AVExtractor.extract_attachments.
    destruct (AVExtractor.disc_eqb disc_type dvd).
    { destruct H as [_ [Hn _]]. rewrite Hn in Hc. discriminate Hc. }
    destruct (AVExtractor.is_matroska self).
    2: { destruct H as [_ [Hn _]]. rewrite Hn in Hc. discriminate Hc. }
    cbn [negb].
    apply starts_after_emit. apply starts_after_emit.
    apply starts_bind; [| intros x; tame].
    cbn [List.app]. apply check_call_starts.
  - intros Hs filename. unfold AVExtractor.extract_subtitles.
    rewrite Hs, Hd. cbn [andb].
    destruct (AVExtractor.disc_eqb disc_type dvd).
    + destruct H as [_ [_ [_ Ht]]]. rewrite Ht.
      destruct (AVExtractor.is_matroska self).
      * intros s0. reflexivity.
      * cbn [List.app]. apply check_call_starts.
    + destruct (AVExtractor.is_matroska self).
      * destruct (H Hs) as [n Hn]. rewrite Hn.
        intros s0.
        exact (check_call_starts w (L "mkvextract")
                 [L "tracks"; AVExtractor.path self;
                  str n ++ L ":" ++ filename] s0).
      * destruct H as [_ [_ Hn]]. rewrite Hn in Hs. discriminate Hs.
Qed.

Lemma extractor_offers_what_it_can_extract_witness :
  exists self s',
    AVExtractor.__init__ mkv_world (L "in.mkv") None 1 None None None None
      initial = (Done self, s')
    /\ 0 < AVExtractor.attachment_cnt self
    /\ starts_tool (L "mkvextract")
         [Mkdir (L "attachments"); Chdir (L "attachments")]
         (AVExtractor.extract_attachments mkv_world self (L "attachments")).
Proof.
  eexists. eexists. split; [vm_compute; reflexivity |].
  split; [vm_compute; reflexivity |].
  refine (proj1 (proj2 (extractor_offers_what_it_can_extract mkv_world
                          (L "in.mkv") None 1 None None None None initial _ _
                          _)) _ (L "attachments")).
  - vm_compute. reflexivity.
  - vm_compute. reflexivity.
Defined.

(** ** The picture size and the rate of a Blu-ray source *)

Lemma make_raises (n d : Z) (e : exn) :
  Fraction.make n d = Raise e -> e = ZeroDivisionError.
Proof.
  unfold Fraction.make. destruct (d =? 0); intros H; [| discriminate H].
  injection H as <-. reflexivity.
Qed.

(** The constructor sets the video attributes of everything but a
    Blu-ray disc. *)
Lemma init_video (w : world) (path : pystr) (disc_type : option disc)
    (disc_title : Z) (chap_start chap_end maid msid : option Z)
    (s s' : state) (self : AVExtractor.t) :
  AVExtractor.__init__ w path disc_type disc_title chap_start chap_end maid
    msid s = (Done self, s') ->
  AVExtractor.disc_eqb disc_type bluray = false ->
  (exists dims, AVExtractor.video_dimensions self = Some dims)
  /\ (exists rate, AVExtractor.video_framerate self = Some rate).
Proof.
  unfold AVExtractor.__init__. intros H Eb.
  apply bind_done_inv in H. destruct H as [out [s1 [_ H]]].
  apply bind_done_inv in H. destruct H as [video [s2 [Hv H]]].
  rewrite Eb in Hv.
  apply bind_done_inv in Hv. destruct Hv as [v [s2' [_ Hv]]].
  injection Hv as <- _.
  apply bind_done_inv in H. destruct H as [[[sr ch] ac] [s3 [_ H]]].
  cbv zeta in H.
  destruct (AVExtractor.disc_eqb disc_type dvd).
  { injection H as <- _. cbn. eauto. }
  destruct (pystr_eqb _ _).
  2: { injection H as <- _. cbn. eauto. }
  apply bind_done_inv in H. destruct H as [out2 [s4 [_ H]]].
  destruct (Re.search true AVExtractor.MKV_SUBTITLES_RE out2).
  - apply bind_done_inv in H. destruct H as [n [s5 [_ H]]].
    injection H as <- _. cbn. eauto.
  - injection H as <- _. cbn. eauto.
Qed.

(** X18: In a run that has passed the check of the command line, the size of
    the picture is always known and the frame rate is never missing: for
    a Blu-ray disc, which the constructor does not probe for them, both
    come from the command line, and for every other source the
    constructor has set them. *)
Theorem video_attributes_are_never_missing (w : world) (a : Args.t)
    (s0 s1 s s' : state) (self : AVExtractor.t) :
  check_bluray a s0 = (Done tt, s1) ->
  make_extractor w a s = (Done self, s') ->
  (exists dims, final_dimensions a self = Ok dims)
  /\ final_rate a self <> Raise AttributeError.
Proof.
  unfold check_bluray, make_extractor, disc_type_of. intros Hc Hi.
  assert (Hv : Args.bluray a = true /\ Args.size a <> None
               /\ Args.rate a <> None
               \/ (exists dims, AVExtractor.video_dimensions self = Some dims)
                  /\ (exists rate,
                        AVExtractor.video_framerate self = Some rate)).
  { destruct (Args.bluray a) eqn:Eb.
    - left. destruct (Args.size a), (Args.rate a); try discriminate Hc.
      repeat split; discriminate.
    - right. apply (init_video _ _ _ _ _ _ _ _ _ _ _ Hi).
      destruct (Args.dvd a); reflexivity. }
  split.
  - unfold final_dimensions.
    destruct (Args.scale a) as [sc |]; [eauto |].
    destruct (Args.crop a) as [[[[cw ch] cx] cy] |]; [eauto |].
    destruct (Args.size a) as [sz |]; [eauto |].
    destruct Hv as [[_ [Hs _]] | [[dims Hd] _]];
      [exfalso; apply Hs; reflexivity |].
    rewrite Hd. cbn [attr]. eauto.
  - unfold final_rate, base_rate.
    assert (Hb : forall r,
              (if Args.deinterlace a then Fraction.mul_int r 2 else Ok r)
              <> Raise AttributeError).
    { intros r. destruct (Args.deinterlace a); [| discriminate].
      unfold Fraction.mul_int, Fraction.mul. intros E.
      apply make_raises in E. discriminate E. }
    destruct (Args.ivtc a).
    { destruct (Fraction.make 24000 1001) as [f | e] eqn:E; cbn [rbind].
      - apply Hb.
      - apply make_raises in E. subst e. discriminate. }
    destruct (Args.rate a) as [r |].
    { destruct (Fraction.make (fst r) (snd r)) as [f | e] eqn:E;
        cbn [rbind].
      - apply Hb.
      - apply make_raises in E. subst e. discriminate. }
    destruct Hv as [[_ [_ Hr]] | [_ [rate Hr]]];
      [exfalso; apply Hr; reflexivity |].
    rewrite Hr. cbn [attr rbind]. apply Hb.
Qed.

Lemma video_attributes_are_never_missing_witness :
  exists self s',
    make_extractor avi_world plain_run initial = (Done self, s')
    /\ (exists dims, final_dimensions plain_run self = Ok dims)
    /\ final_rate plain_run self <> Raise AttributeError.
Proof.
  eexists. eexists. split; [vm_compute; reflexivity |].
  refine (video_attributes_are_never_missing avi_world plain_run initial
            initial initial _ _ _ _).
  - vm_compute. reflexivity.
  - vm_compute. reflexivity.
Defined.

(** ** The end of a run *)

Lemma emit_done (e : event) (s s' : state) (x : unit) :
  emit e s = (Done x, s') -> trace s' = trace s ++ [e].
Proof. unfold emit. intros H. injection H as _ <-. reflexivity. Qed.

Lemma check_call_done (w : world) (cmd : list pystr) (s s' : state)
    (x : unit) :
  Subprocess.check_call w cmd s = (Done x, s') ->
  trace s' = trace s ++ [Launch (launched s) cmd; Wait (launched s)]
  /\ spawns w (launched s) = true
  /\ exit_status w (launched s) = 0.
Proof.
  rewrite check_call_run. cbv zeta.
  destruct (spawns w (launched s)) eqn:Es; [| discriminate].
  destruct (Z.eqb_spec (exit_status w (launched s)) 0) as [E |];
    [| discriminate].
  intros H. inversion H. cbn. auto.
Qed.

(** What [mux_stage] leaves behind when it ends normally. *)
Lemma mux_stage_done (w : world) (a : Args.t) (output out_container : pystr)
    (chapters_path attachments_path subtitles_path : option pystr)
    (video_path audio_path : pystr) (s s' : state) (x : unit) :
  mux_stage w a output out_container chapters_path attachments_path
    subtitles_path video_path audio_path s = (Done x, s') ->
  exists pre pid cmd,
    trace s'
    = pre ++ [Launch pid cmd; Wait pid; Print (L " done." ++ [nl])]
    /\ spawns w pid = true
    /\ exit_status w pid = 0
    /\ In output cmd
    /\ hd [] cmd
       = if pystr_eqb out_container (L "mp4") then L "MP4Box"
         else L "mkvmerge".
Proof.
  unfold mux_stage. intros H.
  apply bind_done_inv in H. destruct H as [u1 [s1 [_ H]]].
  apply bind_done_inv in H. destruct H as [u2 [s2 [Hm H]]].
  apply emit_done in H. cbn [Py.join] in H.
  destruct (pystr_eqb out_container (L "mkv")
            || pystr_eqb out_container (L "webm")) eqn:Ek.
  - unfold mux_matroska_mkv in Hm. apply check_call_done in Hm.
    destruct Hm as [Et [Hs He]].
    eexists (trace s1), (launched s1), _.
    split; [rewrite H, Et, <- app_assoc; reflexivity |].
    split; [exact Hs |]. split; [exact He |]. split.
    + repeat rewrite in_app_iff.
      right. right. right. right. left. right. left. reflexivity.
    + cbn [List.app hd].
      apply orb_true_iff in Ek.
      destruct Ek as [E | E]; apply pystr_eqb_eq in E; subst out_container;
        reflexivity.
  - destruct (pystr_eqb out_container (L "mp4")) eqn:E4;
      [| discriminate Hm].
    unfold mux_mp4 in Hm.
    apply bind_done_inv in Hm. destruct Hm as [u3 [s3 [_ Hm]]].
    apply check_call_done in Hm. destruct Hm as [Et [Hs He]].
    eexists (trace s3), (launched s3), _.
    split; [rewrite H, Et, <- app_assoc; reflexivity |].
    split; [exact Hs |]. split; [exact He |]. split.
    + repeat rewrite in_app_iff.
      right. right. cbn [In]. tauto.
    + reflexivity.
Qed.

(** What [process] leaves behind when it ends normally. *)
Lemma process_done (w : world) (a : Args.t) (extractor : AVExtractor.t)
    (output out_container : pystr) (s s' : state) (x : unit) :
  process w a extractor output out_container s = (Done x, s') ->
  exists pre pid cmd,
    trace s'
    = pre ++ [Launch pid cmd; Wait pid; Print (L " done." ++ [nl])]
    /\ spawns w pid = true
    /\ exit_status w pid = 0
    /\ In output cmd
    /\ hd [] cmd
       = if pystr_eqb out_container (L "mp4") then L "MP4Box"
         else L "mkvmerge".
Proof.
  unfold process. intros H.
  apply bind_done_inv in H. destruct H as [u1 [s1 [_ H]]].
  apply bind_done_inv in H. destruct H as [cp [s2 [_ H]]].
  apply bind_done_inv in H. destruct H as [ap [s3 [_ H]]].
  apply bind_done_inv in H. destruct H as [sp [s4 [_ H]]].
  apply bind_done_inv in H. destruct H as [au [s5 [_ H]]].
  apply bind_done_inv in H. destruct H as [vp [s6 [_ H]]].
  apply (mux_stage_done _ _ _ _ _ _ _ _ _ _ _ _ H).
Qed.

(** X19: A run that ends with status 0 has an output container, and the last
    process it has started is the muxer for it, [MP4Box] for MP4 and
    [mkvmerge] for Matroska and WebM, with the output path among its
    arguments.  The muxer has ended with status 0, and all that follows
    it is the report of the stage, the removal of the work directory and
    the closing message. *)
Theorem muxer_runs_last (w : world) (a : Args.t) :
  fst (run_script w a) = 0 ->
  exists output out_container pre pid cmd,
    output_container (Args.container a) (Args.output a)
    = Some (output, out_container)
    /\ snd (run_script w a)
       = pre ++ [Launch pid cmd; Wait pid; Print (L " done." ++ [nl]);
                 Rmtree (work_dir w); Print (done_message w ++ [nl])]
    /\ spawns w pid = true
    /\ exit_status w pid = 0
    /\ In output cmd
    /\ hd [] cmd
       = if pystr_eqb out_container (L "mp4") then L "MP4Box"
         else L "mkvmerge".
Proof.
  unfold run_script.
  destruct (tame_main w a initial) as [_ [_ Hr]].
  destruct (main w a initial) as [[z | e | z] s] eqn:E; cbn in Hr |- *;
    intros Ez; [| discriminate Ez | subst z; discriminate Ez].
  subst z. unfold main in E.
  apply bind_done_inv in E. destruct E as [u1 [s1 [_ E]]].
  apply bind_done_inv in E. destruct E as [[output out_container] [s2 [Hc E]]].
  apply bind_done_inv in E. destruct E as [u2 [s3 [_ E]]].
  apply bind_done_inv in E. destruct E as [u3 [s4 [_ E]]].
  apply bind_done_inv in E. destruct E as [extractor [s5 [_ E]]].
  apply bind_done_inv in E. destruct E as [u4 [s6 [Hw E]]].
  apply bind_done_inv in E. destruct E as [u5 [s7 [Hp E]]].
  injection E as <-. apply emit_done in Hp. cbn [Py.join] in Hp.
  unfold determine_container in Hc.
  destruct (output_container (Args.container a) (Args.output a))
    as [oc |] eqn:Eoc; [| discriminate Hc].
  injection Hc as -> _.
  unfold with_work_dir in Hw.
  destruct (bind (emit (Mkdir (work_dir w))) _ s5) as [o s8] eqn:Eb.
  injection Hw as -> <-. cbn [trace] in Hp.
  apply bind_done_inv in Eb. destruct Eb as [u6 [s9 [_ Eb]]].
  apply process_done in Eb.
  destruct Eb as [pre [pid [cmd [Et [Hs [He [Hi Hh]]]]]]].
  exists output, out_container, pre, pid, cmd.
  split; [reflexivity |].
  split; [rewrite Hp, Et; repeat rewrite <- app_assoc; reflexivity |].
  auto.
Qed.

Lemma muxer_runs_last_witness :
  fst (run_script avi_world plain_run) = 0
  /\ exists output out_container pre pid cmd,
       output_container (Args.container plain_run) (Args.output plain_run)
       = Some (output, out_container)
       /\ snd (run_script avi_world plain_run)
          = pre ++ [Launch pid cmd; Wait pid; Print (L " done." ++ [nl]);
                    Rmtree (work_dir avi_world);
                    Print (done_message avi_world ++ [nl])]
       /\ spawns avi_world pid = true
       /\ exit_status avi_world pid = 0
       /\ In output cmd
       /\ hd [] cmd
          = if pystr_eqb out_container (L "mp4") then L "MP4Box"
            else L "mkvmerge".
Proof.
  split; [vm_compute; reflexivity |].
  apply (muxer_runs_last avi_world plain_run).
  vm_compute. reflexivity.
Defined.
